(** * es_pii_extract_update: a shallow embedding and its verified properties

    The development follows [es_pii_extract_update.py]: text normalisation,
    the detectors, the Elasticsearch client (scroll and bulk), the per-document
    extraction and the main loop that writes the CSV report and queues the
    bulk updates.

    Python strings are sequences of Unicode code points; a code point is an
    [N] and a string a [list N]. *)

From Stdlib Require Import ZArith NArith Lia String Ascii DecimalString.
From stdpp Require Import base option list gmap sets.

Local Open Scope Z_scope.
Set Warnings "-register-all".

(** ** Strings *)

Abbreviation char := N (only parsing).
Abbreviation str := (list N) (only parsing).

(** An ASCII literal as a Python string. *)
Definition lit (s : string) : str :=
  (fun a => N_of_ascii a) <$> list_ascii_of_string s.

(** Truth value of a string: [if s:] holds for the non-empty ones. *)
Definition str_truthy (s : str) : bool :=
  match s with [] => false | _ => true end.

(** [s[a:b]] for [0 <= a <= b]. *)
Definition slice (a b : nat) (s : str) : str := take (b - a) (drop a s).

(** [s.split(sep)] for a one-character separator: the pieces between the
    separators, empty pieces included; the empty string gives one empty
    piece. *)
Fixpoint split_on (sep : N) (s : str) : list str :=
  match s with
  | [] => [[]]
  | c :: s' =>
      if decide (c = sep) then [] :: split_on sep s'
      else match split_on sep s' with
           | [] => [[c]]
           | p :: ps => (c :: p) :: ps
           end
  end.

Definition DOT : N := 46%N.
Definition SPACE : N := 32%N.
Definition HYPHEN : N := 45%N.
Definition UNDERSCORE : N := 95%N.
Definition SLASH : N := 47%N.

(** ** Normalisation *)

(** [UNICODE_DASHES = "‐‑‒–—"]. *)
Definition UNICODE_DASHES : str := [0x2010; 0x2011; 0x2012; 0x2013; 0x2014]%N.

(** [NBSP_SET]: NBSP, figure space, narrow NBSP, thin space, zero-width
    space. The set is walked in this order; [nbsp_pass_order] shows that the
    order does not matter. *)
Definition NBSP_SET : list N := [0xA0; 0x2007; 0x202F; 0x2009; 0x200B]%N.

(** [s.replace(old, new)] for one-character [old] and [new]. *)
Definition replace_char (old new : N) (s : str) : str :=
  (fun c => if decide (c = old) then new else c) <$> s.

(** [for ch in chars: s = s.replace(ch, " ")]. *)
Definition nbsp_pass (chars : list N) (s : str) : str :=
  foldl (fun acc ch => replace_char ch SPACE acc) s chars.

(** [dash_re.sub("-", s)] with [dash_re] the class of [UNICODE_DASHES]. *)
Definition dash_pass (s : str) : str :=
  (fun c => if decide (c ∈ UNICODE_DASHES) then HYPHEN else c) <$> s.

(** The class [[ \t\r\f\v]]: space, tab, carriage return, form feed,
    vertical tab. *)
Definition WS_CLASS : list N := [32; 9; 13; 12; 11]%N.

Definition ws_class (c : N) : bool := bool_decide (c ∈ WS_CLASS).

(** [re.sub(r"[ \t\r\f\v]+", " ", s)]: every maximal run of class characters
    becomes one space. [in_run] tells that the previous character belonged to
    a run, whose space has been written already. *)
Fixpoint ws_pass (in_run : bool) (s : str) : str :=
  match s with
  | [] => []
  | c :: s' =>
      if ws_class c then
        if in_run then ws_pass true s' else SPACE :: ws_pass true s'
      else c :: ws_pass false s'
  end.

Definition normalize_separators (s : str) : str :=
  match s with
  | [] => s
  | _ => ws_pass false (dash_pass (nbsp_pass NBSP_SET s))
  end.

(** ** JSON values

    Documents, configuration entries and server replies are JSON trees. A
    float is carried by the two things the program can observe of it, its
    truth value and its rendering. A dictionary is an association list in
    insertion order; a key is looked up at its first entry. *)

Inductive value : Type :=
  | VNull
  | VBool (b : bool)
  | VInt (n : Z)
  | VFloat (nonzero : bool) (shown : str)
  | VStr (s : str)
  | VList (l : list value)
  | VDict (d : list (str * value)).

Abbreviation dict := (list (str * value)) (only parsing).

(** [bool(v)]. *)
Definition truthy (v : value) : bool :=
  match v with
  | VNull => false
  | VBool b => b
  | VInt n => negb (n =? 0)
  | VFloat nz _ => nz
  | VStr s => str_truthy s
  | VList l => match l with [] => false | _ => true end
  | VDict d => match d with [] => false | _ => true end
  end.

(** [d.get(k)], and with it [k in d] and [d[k]]. *)
Fixpoint dict_get {A} (k : str) (d : list (str * A)) : option A :=
  match d with
  | [] => None
  | (k', v) :: d' => if decide (k = k') then Some v else dict_get k d'
  end.

(** The answer to a request: none (the transport failed and [post] raised),
    or a status with the body decoded as the API documents it; [None] for a
    body that is not of that form, on which decoding raises. *)
Inductive HttpReply (A : Type) :=
  | NoReply
  | Reply (status : Z) (payload : option A).
Arguments NoReply {A}.
Arguments Reply {A} status payload.

(** The entry of [v] under the key [k], when [v] is a dictionary that has
    one. *)
Definition child (k : str) (v : value) : option value :=
  match v with
  | VDict d => dict_get k d
  | _ => None
  end.

(** Dotted-path lookup: the keys of [parts] followed one after the other,
    [None] as soon as one is missing. *)
Definition lookup_path (v : value) (parts : list str) : option value :=
  foldl (fun cur k => cur ≫= child k) (Some v) parts.

(** The elements of [l] whose key is not in [seen] and is not the key of an
    earlier element of [l]: the first occurrence of every new key, in the
    order of [l]. *)
Fixpoint first_by {A K : Type} `{EqDecision K} (key : A -> K) (seen : list K)
    (l : list A) : list A :=
  match l with
  | [] => []
  | x :: l' =>
      if decide (key x ∈ seen) then first_by key seen l'
      else x :: first_by key (key x :: seen) l'
  end.

(** A list without its repetitions, in first-seen order. *)
Definition first_seen (l : list str) : list str := first_by id [] l.

(** ** The Python runtime

    What the program takes from the interpreter and its libraries: the
    Unicode character tables, case mapping, the rendering of values that are
    not strings, and the regular-expression compiler. A compiled pattern is
    modelled by its [finditer]: the texts [m.group(0)] of the non-overlapping
    matches, left to right. *)

Abbreviation Pattern := (list N -> list (list N)) (only parsing).

Class PyRuntime := {
  (** [ch.isdigit()] *)
  isdigit : N -> bool;
  (** [int(ch)] for a one-character string: its decimal digit value,
      [None] when it raises [ValueError]; also the class [\d] *)
  decimal : N -> option Z;
  (** [ch.isspace()], the class [\s] *)
  isspace : N -> bool;
  (** [s.lower()] and [s.upper()] *)
  lower : str -> str;
  upper : str -> str;
  (** [str(v)] for a value that is not a string *)
  repr_value : value -> str;
  (** [re.compile(regex, flags)], [None] when it raises [re.error] *)
  re_compile : str -> Z -> option Pattern
}.

(** What the proofs use of the tables: a decimal digit has a value from 0 to
    9 and is a digit for [isdigit]; below 128 the decimal digits are the
    characters 0 to 9. *)
Class PyRuntimeLaws `{PyRuntime} : Prop := {
  decimal_range : forall c v, decimal c = Some v -> 0 <= v <= 9;
  decimal_isdigit : forall c v, decimal c = Some v -> isdigit c = true;
  decimal_ascii : forall c, (c < 128)%N ->
    decimal c = if ((48 <=? c) && (c <=? 57))%N then Some (Z.of_N c - 48) else None
}.

Section Program.
Context `{RT : PyRuntime}.

(** [str(v)]. *)
Definition py_str (v : value) : str :=
  match v with
  | VStr s => s
  | _ => repr_value v
  end.

(** [str(v)] for an integer [0 <= v <= 9]. *)
Definition str_of_digit (v : Z) : str := [Z.to_N (48 + v)].

(** One turn of the loop of [unicode_digits_to_ascii]: what it appends to
    [out] for the character [ch]. *)
Definition digit_piece (ch : N) : list str :=
  if isdigit ch then
    match decimal ch with
    | Some v => if (0 <=? v) && (v <=? 9) then [str_of_digit v] else []
    | None => []
    end
  else [].

Definition unicode_digits_to_ascii (s : str) : str :=
  concat (s ≫= digit_piece).

(** ** Detectors *)

Record Detector := {
  name : str;
  pattern : Pattern;
  normalizer : option (str -> option str);
  desc : value
}.

(** [Detector.find]: the values it yields, in order. *)
Definition find (d : Detector) (text : str) : list str :=
  pattern d text ≫= fun raw =>
    let val := match normalizer d with
               | Some f => f raw
               | None => Some raw
               end in
    match val with
    | Some v => if str_truthy v then [v] else []
    | None => []
    end.

(** [_norm] of [make_nas_detector]. *)
Definition nas_norm (s : str) : option str :=
  let digits := unicode_digits_to_ascii s in
  if decide (length digits ≠ 9%nat) then None
  else Some (slice 0 3 digits ++ [HYPHEN] ++ slice 3 6 digits ++ [HYPHEN] ++ slice 6 9 digits).

(** The pattern [(\d[\d\-\s_./]{7,24}\d)|(\d{9})]. *)

Definition is_decimal (c : N) : bool :=
  match decimal c with Some _ => true | None => false end.

(** The class [[\d\-\s_./]]. *)
Definition nas_sep_class (c : N) : bool :=
  is_decimal c || bool_decide (c = HYPHEN) || isspace c
  || bool_decide (c ∈ [UNDERSCORE; DOT; SLASH]).

(** Length of the longest prefix of [s] in the class, [limit] at most: what
    the greedy repetition takes first. *)
Fixpoint class_run (limit : nat) (s : str) : nat :=
  match limit, s with
  | S k, c :: s' => if nas_sep_class c then S (class_run k s') else 0%nat
  | _, _ => 0%nat
  end.

(** Backtracking of the repetition: the largest [j] with [lo <= j <= lo + n]
    such that the character after [j] class characters is a decimal digit. *)
Fixpoint backtrack (lo n : nat) (s : str) : option nat :=
  match n with
  | O => if bool_decide (is_decimal <$> s !! lo = Some true) then Some lo else None
  | S n' =>
      if bool_decide (is_decimal <$> s !! (lo + n)%nat = Some true) then Some (lo + n)%nat
      else backtrack lo n' s
  end.

(** First alternative at the start of [s]: the length of the match. *)
Definition nas_alt1 (s : str) : option nat :=
  match s with
  | c :: s' =>
      if is_decimal c then
        let k := class_run 24 s' in
        if decide (7 <= k)%nat then (fun j => S (S j)) <$> backtrack 7 (k - 7) s'
        else None
      else None
  | [] => None
  end.

(** Second alternative: nine decimal digits. *)
Definition nas_alt2 (s : str) : option nat :=
  if bool_decide (length (take 9 s) = 9%nat) && forallb is_decimal (take 9 s)
  then Some 9%nat else None.

Definition nas_match_at (s : str) : option nat :=
  match nas_alt1 s with
  | Some n => Some n
  | None => nas_alt2 s
  end.

(** [finditer]: [skip] characters of [s] belong to the match found last. *)
Fixpoint nas_finditer_from (skip : nat) (s : str) : list str :=
  match s with
  | [] => []
  | _ :: s' =>
      match skip with
      | S k => nas_finditer_from k s'
      | O =>
          match nas_match_at s with
          | Some n => take n s :: nas_finditer_from (n - 1) s'
          | None => nas_finditer_from 0 s'
          end
      end
  end.

Definition nas_pattern : Pattern := nas_finditer_from 0.

Definition make_nas_detector : Detector :=
  {| name := lit "NAS";
     pattern := nas_pattern;
     normalizer := Some nas_norm;
     desc := VStr (lit "Canadian SIN ###-###-### (separators and unicode digits accepted).") |}.

(** ** Loading detectors from YAML *)

(** What importing [yaml], opening the file and [yaml.safe_load] come to. *)
Inductive YamlSource :=
  | NoYamlModule
  | CannotOpen
  | YamlError
  | Parsed (spec : value).

(** [for x in v]: the elements walked, [None] when [v] is not iterable. *)
Definition py_iter (v : value) : option (list value) :=
  match v with
  | VList l => Some l
  | VStr s => Some ((fun c => VStr [c]) <$> s)
  | VDict d => Some ((fun kv => VStr kv.1) <$> d)
  | _ => None
  end.

(** [flags_map.get(key, 0)] with the values of [re.IGNORECASE],
    [re.MULTILINE], [re.DOTALL] and [re.VERBOSE]. *)
Definition flags_map_get (key : str) : Z :=
  if decide (key = lit "IGNORECASE") then 2
  else if decide (key = lit "MULTILINE") then 8
  else if decide (key = lit "DOTALL") then 16
  else if decide (key = lit "VERBOSE") then 64
  else 0.

Definition item_flags (item : dict) : Z :=
  match dict_get (lit "flags") item with
  | Some (VStr fl) => Z.lor 0 (flags_map_get (upper fl))
  | Some (VList fs) =>
      foldl (fun flags f => Z.lor flags (flags_map_get (upper (py_str f)))) 0 fs
  | _ => 0
  end.

(** [_norm_local]. *)
Definition nas_norm_local (s : str) : option str :=
  let digits := unicode_digits_to_ascii s in
  if decide (length digits = 9%nat)
  then Some (slice 0 3 digits ++ [HYPHEN] ++ slice 3 6 digits ++ [HYPHEN] ++ slice 6 9 digits)
  else None.

Definition item_normalizer (item : dict) : option (str -> option str) :=
  match dict_get (lit "normalize") item with
  | Some (VStr n) => if decide (n = lit "nas") then Some nas_norm_local else None
  | _ => None
  end.

(** One turn of the loop over the entries; [None] when it raises: the entry
    is not a dictionary, [name] or [regex] is missing, [regex] is not a
    string or does not compile. Detector names are strings in this model: an
    entry whose name is something else is outside it and gives [None] too. *)
Definition load_item (item : value) : option Detector :=
  match item with
  | VDict d =>
      match dict_get (lit "name") d, dict_get (lit "regex") d with
      | Some (VStr nm), Some (VStr regex) =>
          match re_compile regex (item_flags d) with
          | Some pat =>
              Some {| name := nm;
                      pattern := pat;
                      normalizer := item_normalizer d;
                      desc := default (VStr []) (dict_get (lit "desc") d) |}
          | None => None
          end
      | _, _ => None
      end
  | _ => None
  end.

(** [load_detectors_from_yaml]; [None] when an exception leaves it. Only the
    failure to import [yaml] is caught. *)
Definition load_detectors_from_yaml (src : YamlSource) : option (list Detector) :=
  match src with
  | NoYamlModule => Some []
  | CannotOpen | YamlError => None
  | Parsed v =>
      let spec := if truthy v then v else VList [] in
      py_iter spec ≫= mapM load_item
  end.

(** The names of [flags_map] with the bit of their value: 2, 8, 16 and
    64. *)
Definition FLAG_BITS : list (list N * Z) :=
  [(lit "IGNORECASE", 1); (lit "MULTILINE", 3); (lit "DOTALL", 4); (lit "VERBOSE", 6)].

(** The entry [item] names the flag [nm]: its [flags] is a string that
    reads [nm] in upper case, or a list with such an element. *)
Definition names_flag (item : dict) (nm : str) : Prop :=
  match dict_get (lit "flags") item with
  | Some (VStr fl) => upper fl = nm
  | Some (VList fs) => exists f, f ∈ fs /\ upper (py_str f) = nm
  | _ => False
  end.

(** ** The Elasticsearch client *)

(** [r.raise_for_status()] raises on the client and server errors. *)
Definition raises_for_status (status : Z) : bool :=
  (400 <=? status) && (status <? 600).

(** A hit: its [_id] and [_source] entries when it has them. *)
Record Hit := {
  hit_id : option str;
  hit_source : option dict
}.

(** A search or scroll answer: [_scroll_id] and [hits.hits]. *)
Record Page := {
  scroll_id : option str;
  hits : list Hit
}.

(** [raise_for_status] and [r.json()] on a scroll answer. *)
Definition scroll_page (r : HttpReply Page) : option Page :=
  match r with
  | Reply status (Some p) => if raises_for_status status then None else Some p
  | _ => None
  end.

(** [not hits or not scroll_id]. *)
Definition scroll_ends (p : Page) : bool :=
  match hits p with [] => true | _ => false end
  || negb (str_truthy (default [] (scroll_id p))).

(** What the generator has done when it stops: the hits yielded, the number
    of requests sent, and whether it stopped on an exception. *)
Record ScrollRun := {
  yielded : list Hit;
  requests : nat;
  raised : bool
}.

Definition yield_first (hs : list Hit) (r : ScrollRun) : ScrollRun :=
  {| yielded := hs ++ yielded r; requests := requests r; raised := raised r |}.

(** The [while True] loop. [replies k] answers the request number [k] (the
    search is number 0); [prev] is the answer in hand. The loop has no bound
    of its own: [None] when [fuel] turns do not finish it. *)
Fixpoint scroll_loop (fuel : nat) (replies : nat -> HttpReply Page)
    (k : nat) (prev : Page) : option ScrollRun :=
  if scroll_ends prev then Some {| yielded := []; requests := k; raised := false |}
  else
    match fuel with
    | O => None
    | S fuel' =>
        match scroll_page (replies k) with
        | None => Some {| yielded := []; requests := S k; raised := true |}
        | Some p => yield_first (hits p) <$> scroll_loop fuel' replies (S k) p
        end
    end.

(** [ESClient.search_scroll]. *)
Definition search_scroll (fuel : nat) (replies : nat -> HttpReply Page) : option ScrollRun :=
  match scroll_page (replies 0%nat) with
  | None => Some {| yielded := []; requests := 1; raised := true |}
  | Some p => yield_first (hits p) <$> scroll_loop fuel replies 1 p
  end.

(** A bulk answer: [errors] and [items]; an item maps its action to the
    result of the action. *)
Record BulkData := {
  errors : bool;
  items : list (list (str * dict))
}.

(** What [bulk] prints on the error stream. *)
Inductive LogEntry :=
  | BulkHttpError (status : Z)
  | BulkItemErrors (errs : list (list (str * dict))).

(** [any(v.get("error") for v in it.values())]. *)
Definition item_failed (it : list (str * dict)) : bool :=
  existsb (fun kv => truthy (default VNull (dict_get (lit "error") kv.2))) it.

(** [ESClient.bulk] on the answer to its request: what it prints, and the
    data it returns, [None] when it raises. *)
Definition bulk (r : HttpReply BulkData) : list LogEntry * option BulkData :=
  match r with
  | NoReply => ([], None)
  | Reply status payload =>
      let log := if 400 <=? status then [BulkHttpError status] else [] in
      if (400 <=? status) && raises_for_status status then (log, None)
      else
        match payload with
        | None => (log, None)
        | Some data =>
            if errors data
            then (log ++ [BulkItemErrors (take 5 (filter (fun it => item_failed it = true) (items data)))],
                  Some data)
            else (log, Some data)
        end
  end.

(** ** The client object *)

(** [self.verify]: the flag [verify_tls], or the path of the CA bundle. *)
Inductive Verify :=
  | VerifyFlag (verify_tls : bool)
  | VerifyCA (ca_cert : list N).

(** What [ESClient.__init__] sets: the fields of the client and, of its
    session, the [Authorization] header, [auth] and the [Content-Type]
    header. *)
Record ESClient := {
  base_url : list N;
  timeout : Z;
  verify : Verify;
  authorization : option (list N);
  auth : option (list N * list N);
  content_type : list N
}.

(** [s.lstrip(ch)] and [s.rstrip(ch)] for one character [ch]. *)
Fixpoint lstrip_char (ch : N) (s : list N) : list N :=
  match s with
  | [] => []
  | c :: s' => if decide (c = ch) then lstrip_char ch s' else s
  end.

Definition rstrip_char (ch : N) (s : list N) : list N :=
  reverse (lstrip_char ch (reverse s)).

(** Truth value of an optional argument: [None] and the empty string are
    false. *)
Definition arg_truthy (a : option (list N)) : bool :=
  match a with
  | Some s => str_truthy s
  | None => false
  end.

Definition ESClient_init (url : list N) (user password api_key bearer ca_cert : option (list N))
    (timeout : Z) (verify_tls : bool) : ESClient :=
  {| base_url := rstrip_char SLASH url;
     timeout := timeout;
     verify := if arg_truthy ca_cert then VerifyCA (default [] ca_cert)
               else VerifyFlag verify_tls;
     authorization :=
       if arg_truthy api_key then Some (lit "ApiKey " ++ default [] api_key)
       else if arg_truthy bearer then Some (lit "Bearer " ++ default [] bearer)
       else None;
     auth :=
       if arg_truthy api_key then None
       else if arg_truthy bearer then None
       else if arg_truthy user && arg_truthy password
            then Some (default [] user, default [] password)
            else None;
     content_type := lit "application/json" |}.

(** The addresses of the requests: [f"{self.base_url}/{index}/_search?scroll={scroll}"],
    [f"{self.base_url}/_search/scroll"] and [f"{self.base_url}/_bulk"]. *)
Definition search_url (es : ESClient) (index scroll : list N) : list N :=
  base_url es ++ lit "/" ++ index ++ lit "/_search?scroll=" ++ scroll.

Definition scroll_url (es : ESClient) : list N := base_url es ++ lit "/_search/scroll".

Definition bulk_url (es : ESClient) : list N := base_url es ++ lit "/_bulk".

(** ** Extraction *)

(** The loop of [get_text_from_source] over the parts of the alternate
    field: [None] of Python is [VNull]. *)
Fixpoint alt_walk (cur : value) (parts : list str) : value :=
  match parts with
  | [] => cur
  | part :: parts' =>
      match cur with
      | VDict d =>
          match dict_get part d with
          | Some v => alt_walk v parts'
          | None => VNull
          end
      | _ => VNull
      end
  end.

Definition get_text_from_source (src : dict) (content_field : str)
    (alt_field : option str) : str :=
  let alt :=
    match alt_field with
    | Some a =>
        if str_truthy a then
          let cur := alt_walk (VDict src) (split_on DOT a) in
          if truthy cur then py_str cur else []
        else []
    | None => []
    end in
  match dict_get content_field src with
  | None => alt
  | Some VNull => alt
  | Some v => py_str v
  end.

(** The loop of [get_path_virtual]: [None] where it returns the empty
    string early. *)
Fixpoint path_walk (cur : value) (parts : list str) : option value :=
  match parts with
  | [] => Some cur
  | p :: parts' =>
      match cur with
      | VDict d =>
          match dict_get p d with
          | Some v => path_walk v parts'
          | None => None
          end
      | _ => None
      end
  end.

Definition get_path_virtual (src : dict) (path_field : str) : str :=
  match path_walk (VDict src) (split_on DOT path_field) with
  | Some cur => py_str cur
  | None => []
  end.

Definition extract_from_text (text : str) (detectors : list Detector) : list (str * str) :=
  if str_truthy text then
    let text := normalize_separators text in
    detectors ≫= fun det => (fun val => (name det, val)) <$> find det text
  else [].

Definition target_field (detector_name : str) (fmap : gmap (list N) (list N))
    (prefix : str) : str :=
  match fmap !! detector_name with
  | Some f => f
  | None =>
      let field := replace_char SPACE UNDERSCORE (lower detector_name) in
      if decide (field = lit "nas") then lit "nas_norm"
      else if str_truthy prefix then prefix ++ field else field
  end.
(** ** The field map of the command line *)

Definition COMMA : N := 44%N.
Definition EQUALS : N := 61%N.

(** [s.lstrip()], [s.rstrip()] and [s.strip()]: the white space dropped at
    the ends. *)
Fixpoint lstrip (s : str) : str :=
  match s with
  | [] => []
  | c :: s' => if isspace c then lstrip s' else s
  end.

Definition rstrip (s : str) : str := reverse (lstrip (reverse s)).

Definition strip (s : str) : str := rstrip (lstrip s).

(** [part.split(sep, 1)] when [sep in part]: what stands before the first
    [sep] and what stands after it; [None] when [sep] is not in [part]. *)
Fixpoint split_first (sep : N) (part : str) : option (str * str) :=
  match part with
  | [] => None
  | c :: part' =>
      if decide (c = sep) then Some ([], part')
      else (fun kv => (c :: kv.1, kv.2)) <$> split_first sep part'
  end.

(** One turn of the loop of [parse_field_map]. *)
Definition field_map_step (m : gmap (list N) (list N)) (part : str) : gmap (list N) (list N) :=
  if negb (str_truthy (strip part)) then m
  else match split_first EQUALS part with
       | Some (k, v) => <[strip k := strip v]> m
       | None => m
       end.

Definition parse_field_map (s : option str) : gmap (list N) (list N) :=
  match s with
  | None => ∅
  | Some s =>
      if negb (str_truthy s) then ∅
      else foldl field_map_step ∅ (split_on COMMA s)
  end.

(** ** The main loop *)

(** The arguments the loop reads. *)
Record Config := {
  index : str;
  content_field : str;
  alt_content_field : option str;
  path_field : str;
  dedupe : bool;
  detectors_yaml : option str;
  fmap : gmap (list N) (list N);
  field_prefix : str;
  apply_updates : bool;
  bulk_size : Z
}.

(** A line of the bulk buffer, as the object [json.dumps] writes: the header
    of an update action or its body. *)
Inductive Line :=
  | Header (_index : str) (_id : str) (retry_on_conflict : Z)
  | Body (lang : str) (source : str) (upd : gmap (list N) (list (list N))).

(** What the run meets outside: the detector file, the answers to the search
    and scroll requests by request number, and the answer to a bulk request
    by the number of bulk requests answered before it. The scroll is a
    snapshot of the index, so its answers do not depend on the updates. *)
Record World := {
  yaml_source : YamlSource;
  scroll_replies : nat -> HttpReply Page;
  bulk_replies : nat -> list Line -> HttpReply BulkData
}.

(** The source of the painless script of [build_update_script_params]. *)
Definition update_script : str := lit "
      def up = params.upd;
      for (entry in up.entrySet()) {
        def f = entry.getKey();
        def vals = entry.getValue();
        if (ctx._source[f] == null) { ctx._source[f] = new ArrayList(); }
        for (v in vals) {
          if (!ctx._source[f].contains(v)) { ctx._source[f].add(v); }
        }
      }
    ".

Definition build_update_script_params (field_to_values : gmap (list N) (list (list N)))
    : str * gmap (list N) (list (list N)) :=
  (update_script, field_to_values).

(** A row of the report: detector, value, path, doc_id. *)
Abbreviation Row := (list N * list N * list N * list N)%type (only parsing).
Abbreviation Key := (list N * list N * list N)%type (only parsing).

Definition CSV_HEADER : Row := (lit "detector", lit "value", lit "path", lit "doc_id").

Definition row_key (r : Row) : Key := (r.1.1.1, r.1.1.2, r.1.2).

(** The variables of [main] that the loop changes, the rows written after
    the header row, the bulk requests that were answered, and the error
    stream. *)
Record State := {
  rows : list Row;
  seen_csv : gset (list N * list N * list N);
  bulk_lines : list Line;
  docs_count : nat;
  pairs_count : nat;
  updates_count : nat;
  bulk_calls : list (list Line);
  stderr : list LogEntry
}.

Definition initial_state : State :=
  {| rows := []; seen_csv := ∅; bulk_lines := []; docs_count := 0;
     pairs_count := 0; updates_count := 0; bulk_calls := []; stderr := [] |}.

(** The report file. *)
Definition csv_file (st : State) : list Row := CSV_HEADER :: rows st.

(** How a turn of the loop ends: normally, or by an exception that ends the
    run. The state is the one reached. *)
Inductive Outcome :=
  | Continue (st : State)
  | Fatal (st : State).

Definition outcome_state (o : Outcome) : State :=
  match o with Continue st | Fatal st => st end.

Definition count_doc (st : State) : State :=
  {| rows := rows st; seen_csv := seen_csv st; bulk_lines := bulk_lines st;
     docs_count := S (docs_count st); pairs_count := pairs_count st;
     updates_count := updates_count st; bulk_calls := bulk_calls st;
     stderr := stderr st |}.

(** [writer.writerow(row); pairs_count += 1], with [seen] the new
    [seen_csv]. *)
Definition write_row (row : Row) (seen : gset (list N * list N * list N)) (st : State) : State :=
  {| rows := rows st ++ [row]; seen_csv := seen; bulk_lines := bulk_lines st;
     docs_count := docs_count st; pairs_count := S (pairs_count st);
     updates_count := updates_count st; bulk_calls := bulk_calls st;
     stderr := stderr st |}.

(** One turn of the loop that writes the CSV. *)
Definition csv_step (cfg : Config) (path _id : str) (st : State) (pair : str * str) : State :=
  let row := (pair.1, pair.2, path, _id) in
  if dedupe cfg then
    let key := (pair.1, pair.2, path) in
    if decide (key ∈ seen_csv st) then st
    else write_row row ({[ key ]} ∪ seen_csv st) st
  else write_row row (seen_csv st) st.

Definition write_csv (cfg : Config) (path _id : str) (st : State) (pairs : list (str * str)) : State :=
  foldl (csv_step cfg path _id) st pairs.

(** One turn of the loop that groups the values by target field. *)
Definition group_step (cfg : Config) (field_to_values : gmap (list N) (list (list N)))
    (pair : str * str) : gmap (list N) (list (list N)) :=
  let field := target_field pair.1 (fmap cfg) (field_prefix cfg) in
  let m := match field_to_values !! field with
           | Some _ => field_to_values
           | None => <[field := []]> field_to_values
           end in
  let vals := default [] (m !! field) in
  if decide (pair.2 ∈ vals) then m else <[field := vals ++ [pair.2]]> m.

Definition group_fields (cfg : Config) (pairs : list (str * str)) : gmap (list N) (list (list N)) :=
  foldl (group_step cfg) ∅ pairs.

(** The two lines of an update action. *)
Definition update_lines (cfg : Config) (_id : str)
    (field_to_values : gmap (list N) (list (list N))) : list Line :=
  let '(script_src, params) := build_update_script_params field_to_values in
  [Header (index cfg) _id 3; Body (lit "painless") script_src params].

Definition queue_update (ls : list Line) (st : State) : State :=
  {| rows := rows st; seen_csv := seen_csv st; bulk_lines := bulk_lines st ++ ls;
     docs_count := docs_count st; pairs_count := pairs_count st;
     updates_count := S (updates_count st); bulk_calls := bulk_calls st;
     stderr := stderr st |}.

Definition log_more (log : list LogEntry) (st : State) : State :=
  {| rows := rows st; seen_csv := seen_csv st; bulk_lines := bulk_lines st;
     docs_count := docs_count st; pairs_count := pairs_count st;
     updates_count := updates_count st; bulk_calls := bulk_calls st;
     stderr := stderr st ++ log |}.

(** The buffer emptied after [es.bulk] has returned on it. *)
Definition sent (log : list LogEntry) (st : State) : State :=
  {| rows := rows st; seen_csv := seen_csv st; bulk_lines := [];
     docs_count := docs_count st; pairs_count := pairs_count st;
     updates_count := updates_count st;
     bulk_calls := bulk_calls st ++ [bulk_lines st];
     stderr := stderr st ++ log |}.

(** [flush_bulk]. *)
Definition flush_bulk (w : World) (st : State) : Outcome :=
  match bulk_lines st with
  | [] => Continue st
  | _ =>
      match bulk (bulk_replies w (length (bulk_calls st)) (bulk_lines st)) with
      | (log, Some _) => Continue (sent log st)
      | (log, None) => Fatal (log_more log st)
      end
  end.

(** The body of the loop over the hits. *)
Definition process_hit (cfg : Config) (w : World) (detectors : list Detector)
    (st : State) (hit : Hit) : Outcome :=
  let st := count_doc st in
  let _id := default [] (hit_id hit) in
  let src := default [] (hit_source hit) in
  let text := get_text_from_source src (content_field cfg) (alt_content_field cfg) in
  if negb (str_truthy text) then Continue st
  else
    let path := get_path_virtual src (path_field cfg) in
    let pairs := extract_from_text text detectors in
    let st := write_csv cfg path _id st pairs in
    if apply_updates cfg && match pairs with [] => false | _ => true end then
      let field_to_values := group_fields cfg pairs in
      if bool_decide (field_to_values ≠ ∅) then
        if negb (str_truthy _id) then Continue st
        else
          let st := queue_update (update_lines cfg _id field_to_values) st in
          if bulk_size cfg <=? Z.of_nat (length (bulk_lines st)) / 2
          then flush_bulk w st
          else Continue st
      else Continue st
    else Continue st.

Fixpoint run_hits (cfg : Config) (w : World) (detectors : list Detector)
    (st : State) (hs : list Hit) : Outcome :=
  match hs with
  | [] => Continue st
  | h :: hs' =>
      match process_hit cfg w detectors st h with
      | Continue st' => run_hits cfg w detectors st' hs'
      | Fatal st' => Fatal st'
      end
  end.

(** The detectors of the run; [None] when loading raises. *)
Definition main_detectors (cfg : Config) (w : World) : option (list Detector) :=
  match detectors_yaml cfg with
  | Some p =>
      if str_truthy p
      then (fun ds => make_nas_detector :: ds) <$> load_detectors_from_yaml (yaml_source w)
      else Some [make_nas_detector]
  | None => Some [make_nas_detector]
  end.

(** How [main] ends: before the report is opened, when loading the detectors
    raises, or after the loop. *)
Inductive MainResult :=
  | LoadFailed
  | Ran (o : Outcome).

(** The loop of [main] over the generator, once the hits of the page [prev]
    have been read: the generator resumes, sends the request number [k]
    unless [prev] ends the scroll, and the loop reads the hits of the answer.
    The generator runs only when the loop asks for a hit, so after a turn
    that ends on an exception no request is sent any more. [Continue] is
    the loop left normally, [Fatal] an exception of the scroll or of a turn,
    [None] a loop that [fuel] requests do not finish. *)
Fixpoint scroll_hits (fuel : nat) (cfg : Config) (w : World) (detectors : list Detector)
    (k : nat) (prev : Page) (st : State) : option Outcome :=
  if scroll_ends prev then Some (Continue st)
  else
    match fuel with
    | O => None
    | S fuel' =>
        match scroll_page (scroll_replies w k) with
        | None => Some (Fatal st)
        | Some p =>
            match run_hits cfg w detectors st (hits p) with
            | Fatal st' => Some (Fatal st')
            | Continue st' => scroll_hits fuel' cfg w detectors (S k) p st'
            end
        end
    end.

(** [main] from the detectors on: the search request, the loop over the
    hits that the generator yields, and the final flush; [None] when the
    loop does not end within [fuel] scroll requests. *)
Definition main (fuel : nat) (cfg : Config) (w : World) : option MainResult :=
  match main_detectors cfg w with
  | None => Some LoadFailed
  | Some detectors =>
      match scroll_page (scroll_replies w 0%nat) with
      | None => Some (Ran (Fatal initial_state))
      | Some p =>
          match run_hits cfg w detectors initial_state (hits p) with
          | Fatal st => Some (Ran (Fatal st))
          | Continue st =>
              o ← scroll_hits fuel cfg w detectors 1 p st;
              match o with
              | Fatal st' => Some (Ran (Fatal st'))
              | Continue st' =>
                  if apply_updates cfg then Some (Ran (flush_bulk w st'))
                  else Some (Ran (Continue st'))
              end
          end
      end
  end.

(** ** Notions of the specification that depend on the character tables *)

(** The ASCII digit of a decimal digit of any script; [None] for the
    characters that are not decimal digits. *)
Definition ascii_digit_of (c : N) : option N :=
  (fun v => Z.to_N (48 + v)) <$> decimal c.

(** The text that the alternate field gives: the value at the end of the
    dotted path when there is one and it is true, the empty string
    otherwise. *)
Definition fallback_text (src : dict) (alt_field : option str) : str :=
  match alt_field with
  | Some a =>
      if str_truthy a then
        match lookup_path (VDict src) (split_on DOT a) with
        | Some v => if truthy v then py_str v else []
        | None => []
        end
      else []
  | None => []
  end.

(** The rows that a hit offers to the report, before any deduplication. *)
Definition hit_rows (cfg : Config) (detectors : list Detector) (h : Hit) : list Row :=
  let src := default [] (hit_source h) in
  let text := get_text_from_source src (content_field cfg) (alt_content_field cfg) in
  (fun p => (p.1, p.2, get_path_virtual src (path_field cfg), default [] (hit_id h)))
    <$> extract_from_text text detectors.

(** The findings of a hit. *)
Definition hit_pairs (cfg : Config) (detectors : list Detector) (h : Hit) : list (str * str) :=
  extract_from_text
    (get_text_from_source (default [] (hit_source h)) (content_field cfg)
       (alt_content_field cfg))
    detectors.

(** The values found for the target field [f], in the order of the
    findings. *)
Definition field_values (cfg : Config) (f : str) (pairs : list (str * str)) : list str :=
  snd <$> filter (fun p => target_field p.1 (fmap cfg) (field_prefix cfg) = f) pairs.

(** Every line queued so far: those of the answered bulk requests, then the
    buffer. *)
Definition all_lines (st : State) : list Line := concat (bulk_calls st) ++ bulk_lines st.
(** ** Notions for the bulk buffer *)

(** The update action that a hit queues, as its two lines: none when the
    updates are off, when the text gives no finding or when the hit has no
    [_id]. *)
Definition hit_update (cfg : Config) (detectors : list Detector) (h : Hit) : list Line :=
  let pairs := hit_pairs cfg detectors h in
  let _id := default [] (hit_id h) in
  if apply_updates cfg && match pairs with [] => false | _ => true end && str_truthy _id
  then update_lines cfg _id (group_fields cfg pairs)
  else [].

(** The number of update actions of a batch: [bulk_size], and one when
    [bulk_size] is less. *)
Definition batch_actions (cfg : Config) : Z := Z.max 1 (bulk_size cfg).

(** A server that answers every bulk request with a status below 400 and a
    body that can be decoded. *)
Definition bulk_answered (w : World) : Prop :=
  forall k ls, exists status data,
    bulk_replies w k ls = Reply status (Some data) /\ status < 400.

(** The bulk request for the buffer of [st] is refused: the buffer is not
    empty and [bulk] raises on the answer to it. *)
Definition refused (w : World) (st : State) : Prop :=
  bulk_lines st <> []
  /\ (bulk (bulk_replies w (length (bulk_calls st)) (bulk_lines st))).2 = None.

(** What the loop keeps true of the buffer and of the requests sent: the
    buffer holds fewer actions than a batch, and every request sent carried
    a full batch. *)
Definition batches_ok (cfg : Config) (st : State) : Prop :=
  (exists q : nat, length (bulk_lines st) = (2 * q)%nat /\ Z.of_nat q < batch_actions cfg)
  /\ Forall (fun call => Z.of_nat (length call) = 2 * batch_actions cfg) (bulk_calls st).

End Program.

(** ** A runtime

    The tables of CPython 3.11 (Unicode 14.0) for decimal digits, digits and
    white space, as inclusive ranges of code points. A range of decimal
    digits starts at a digit zero, and the values repeat every ten code
    points. *)

Definition DECIMAL_RANGES : list (N * N) :=
  [(0x30, 0x39); (0x660, 0x669); (0x6F0, 0x6F9); (0x7C0, 0x7C9);
   (0x966, 0x96F); (0x9E6, 0x9EF); (0xA66, 0xA6F); (0xAE6, 0xAEF);
   (0xB66, 0xB6F); (0xBE6, 0xBEF); (0xC66, 0xC6F); (0xCE6, 0xCEF);
   (0xD66, 0xD6F); (0xDE6, 0xDEF); (0xE50, 0xE59); (0xED0, 0xED9);
   (0xF20, 0xF29); (0x1040, 0x1049); (0x1090, 0x1099); (0x17E0, 0x17E9);
   (0x1810, 0x1819); (0x1946, 0x194F); (0x19D0, 0x19D9); (0x1A80, 0x1A89);
   (0x1A90, 0x1A99); (0x1B50, 0x1B59); (0x1BB0, 0x1BB9); (0x1C40, 0x1C49);
   (0x1C50, 0x1C59); (0xA620, 0xA629); (0xA8D0, 0xA8D9); (0xA900, 0xA909);
   (0xA9D0, 0xA9D9); (0xA9F0, 0xA9F9); (0xAA50, 0xAA59); (0xABF0, 0xABF9);
   (0xFF10, 0xFF19); (0x104A0, 0x104A9); (0x10D30, 0x10D39);
   (0x11066, 0x1106F); (0x110F0, 0x110F9); (0x11136, 0x1113F);
   (0x111D0, 0x111D9); (0x112F0, 0x112F9); (0x11450, 0x11459);
   (0x114D0, 0x114D9); (0x11650, 0x11659); (0x116C0, 0x116C9);
   (0x11730, 0x11739); (0x118E0, 0x118E9); (0x11950, 0x11959);
   (0x11C50, 0x11C59); (0x11D50, 0x11D59); (0x11DA0, 0x11DA9);
   (0x16A60, 0x16A69); (0x16AC0, 0x16AC9); (0x16B50, 0x16B59);
   (0x1D7CE, 0x1D7FF); (0x1E140, 0x1E149); (0x1E2F0, 0x1E2F9);
   (0x1E950, 0x1E959); (0x1FBF0, 0x1FBF9)]%N.

(** The digits that are not decimal: superscripts, subscripts, circled
    digits and the like, on which [int] raises. *)
Definition OTHER_DIGIT_RANGES : list (N * N) :=
  [(0xB2, 0xB3); (0xB9, 0xB9); (0x1369, 0x1371); (0x19DA, 0x19DA);
   (0x2070, 0x2070); (0x2074, 0x2079); (0x2080, 0x2089); (0x2460, 0x2468);
   (0x2474, 0x247C); (0x2488, 0x2490); (0x24EA, 0x24EA); (0x24F5, 0x24FD);
   (0x24FF, 0x24FF); (0x2776, 0x277E); (0x2780, 0x2788); (0x278A, 0x2792);
   (0x10A40, 0x10A43); (0x10E60, 0x10E68); (0x11052, 0x1105A);
   (0x1F100, 0x1F10A)]%N.

Definition SPACE_RANGES : list (N * N) :=
  [(0x9, 0xD); (0x1C, 0x20); (0x85, 0x85); (0xA0, 0xA0); (0x1680, 0x1680);
   (0x2000, 0x200A); (0x2028, 0x2029); (0x202F, 0x202F); (0x205F, 0x205F);
   (0x3000, 0x3000)]%N.

Definition in_range (c : N) (r : N * N) : bool := ((r.1 <=? c) && (c <=? r.2))%N.

Definition in_ranges (rs : list (N * N)) (c : N) : bool := existsb (in_range c) rs.

Definition unicode_decimal (c : N) : option Z :=
  match List.find (in_range c) DECIMAL_RANGES with
  | Some r => Some (Z.of_N ((c - r.1) mod 10))
  | None => None
  end.

Definition unicode_isdigit (c : N) : bool :=
  in_ranges DECIMAL_RANGES c || in_ranges OTHER_DIGIT_RANGES c.

(** Case mapping of the ASCII letters; other characters are left as they
    are, so these are [str.lower] and [str.upper] on ASCII text. *)
Definition ascii_lower (s : str) : str :=
  (fun c => if ((65 <=? c) && (c <=? 90))%N then (c + 32)%N else c) <$> s.

Definition ascii_upper (s : str) : str :=
  (fun c => if ((97 <=? c) && (c <=? 122))%N then (c - 32)%N else c) <$> s.

(** [sep.join(l)]. *)
Fixpoint join (sep : str) (l : list str) : str :=
  match l with
  | [] => []
  | [x] => x
  | x :: l' => x ++ sep ++ join sep l'
  end.

(** [str] of the values that are not strings. Inside a list or a dictionary
    a string is written between single quotes as it is, which is its [repr]
    when it holds printable characters other than quotes and backslashes. *)
Fixpoint show_value (v : value) : str :=
  match v with
  | VNull => lit "None"
  | VBool true => lit "True"
  | VBool false => lit "False"
  | VInt n => lit (NilZero.string_of_int (Z.to_int n))
  | VFloat _ shown => shown
  | VStr s => lit "'" ++ s ++ lit "'"
  | VList l =>
      lit "[" ++ join (lit ", ") (show_value <$> l) ++ lit "]"
  | VDict d =>
      lit "{"
      ++ join (lit ", ") ((fun kv => lit "'" ++ kv.1 ++ lit "': " ++ show_value kv.2) <$> d)
      ++ lit "}"
  end.

(** The source of the national-ID pattern. *)
Definition NAS_REGEX : str := lit "(\d[\d\-\s_./]{7,24}\d)|(\d{9})".

(** The occurrences of a word, left to right and without overlap: what a
    pattern that holds no special character finds. *)
Fixpoint word_finditer_from (word : str) (skip : nat) (s : str) : list str :=
  match s with
  | [] => []
  | _ :: s' =>
      match skip with
      | S k => word_finditer_from word k s'
      | O =>
          if decide (take (length word) s = word)
          then word :: word_finditer_from word (length word - 1) s'
          else word_finditer_from word 0 s'
      end
  end.

Definition REGEX_SPECIALS : str := lit ".^$*+?{}[]\|()".

(** [re.compile] on the patterns of the examples: the national-ID pattern
    and the words made of letters, digits and other characters that are not
    special, compiled without flags. Other patterns are not in this table
    and are given as not compiling. *)
Definition sample_re_compile (unicode_tables : PyRuntime) (regex : str) (flags : Z)
    : option Pattern :=
  if decide (regex = NAS_REGEX) then Some (@nas_pattern unicode_tables)
  else if decide (flags = 0 /\ regex <> [] /\ Forall (fun c => c ∉ REGEX_SPECIALS) regex)
       then Some (word_finditer_from regex 0)
       else None.

Definition unicode_tables : PyRuntime :=
  {| isdigit := unicode_isdigit;
     decimal := unicode_decimal;
     isspace := in_ranges SPACE_RANGES;
     lower := ascii_lower;
     upper := ascii_upper;
     repr_value := show_value;
     re_compile := fun _ _ => None |}.

Instance py311 : PyRuntime :=
  {| isdigit := unicode_isdigit;
     decimal := unicode_decimal;
     isspace := in_ranges SPACE_RANGES;
     lower := ascii_lower;
     upper := ascii_upper;
     repr_value := show_value;
     re_compile := sample_re_compile unicode_tables |}.

(** ** Notions of the specification *)

(** What the first two passes of [normalize_separators] make of one
    character. *)
Definition sep_subst (c : N) : N :=
  if decide (c ∈ NBSP_SET) then SPACE
  else if decide (c ∈ UNICODE_DASHES) then HYPHEN
  else c.

(** The characters that end up in a run of white space: the listed spaces
    and the class of the last pass. *)
Definition space_like (c : N) : Prop := c ∈ NBSP_SET \/ c ∈ WS_CLASS.

Definition LINE_FEED : N := 10%N.
Definition CARRIAGE_RETURN : N := 13%N.

(** The characters that the specification lists as rewritten: the spaces of
    [NBSP_SET], the dashes, and space, tab, vertical tab and form feed. *)
Definition C8_LISTED : list N := NBSP_SET ++ UNICODE_DASHES ++ [32; 9; 11; 12]%N.

(** A line of text that ends in carriage return and line feed. *)
Definition CRLF_TEXT : str := lit "a" ++ [CARRIAGE_RETURN; LINE_FEED] ++ lit "b".

(** The characters 0 to 9. *)
Definition is_ascii_digit (c : N) : Prop := (48 <= c <= 57)%N.

(** ** Sample data *)

Definition SAMPLE_CONFIG : Config :=
  {| index := lit "docs";
     content_field := lit "content";
     alt_content_field := Some (lit "attachment.content");
     path_field := lit "path.virtual";
     dedupe := false;
     detectors_yaml := None;
     fmap := ∅;
     field_prefix := lit "pii.";
     apply_updates := true;
     bulk_size := 1000 |}.

Definition OK_BULK : HttpReply BulkData :=
  Reply 200 (Some {| errors := false; items := [] |}).

(** A source tree whose primary field is the empty string and whose
    alternate field holds text. *)
Definition EMPTY_PRIMARY_SOURCE : dict :=
  [(lit "content", VStr []);
   (lit "attachment", VDict [(lit "content", VStr (lit "SIN 123 456 789"))]);
   (lit "path", VDict [(lit "virtual", VStr (lit "/a/b"))])].

Definition EMPTY_PRIMARY_HIT : Hit :=
  {| hit_id := Some (lit "1"); hit_source := Some EMPTY_PRIMARY_SOURCE |}.

(** A world with one page of hits [hs], then an empty page. *)
Definition one_page (hs : list Hit) : World :=
  {| yaml_source := NoYamlModule;
     scroll_replies := fun k =>
       match k with
       | O => Reply 200 (Some {| scroll_id := Some (lit "cursor"); hits := hs |})
       | _ => Reply 200 (Some {| scroll_id := Some (lit "cursor"); hits := [] |})
       end;
     bulk_replies := fun _ _ => OK_BULK |}.

(** A configuration that names a detector file. *)
Definition YAML_CONFIG : Config :=
  {| index := lit "docs";
     content_field := lit "content";
     alt_content_field := Some (lit "attachment.content");
     path_field := lit "path.virtual";
     dedupe := false;
     detectors_yaml := Some (lit "detectors.yaml");
     fmap := ∅;
     field_prefix := lit "pii.";
     apply_updates := false;
     bulk_size := 1000 |}.

Definition SIN_SOURCE : dict :=
  [(lit "content", VStr (lit "SIN 123 456 789 here"));
   (lit "path", VDict [(lit "virtual", VStr (lit "/a/b"))])].

Definition SIN_HIT : Hit :=
  {| hit_id := Some (lit "1"); hit_source := Some SIN_SOURCE |}.

(** A world whose detector file is what [src] says, with one page of one
    document. *)
Definition yaml_world (src : YamlSource) : World :=
  {| yaml_source := src;
     scroll_replies := scroll_replies (one_page [SIN_HIT]);
     bulk_replies := fun _ _ => OK_BULK |}.

(** A detector file with one entry that has no [regex]. *)
Definition NO_REGEX_FILE : YamlSource :=
  Parsed (VList [VDict [(lit "name", VStr (lit "EMAIL"))]]).

(** An entry that names a normalizer the program does not know. *)
Definition UNKNOWN_NORMALIZER_ITEM : dict :=
  [(lit "name", VStr (lit "WORD"));
   (lit "regex", VStr (lit "SIN"));
   (lit "normalize", VStr (lit "digits"))].

(** Arabic-Indic one, superscript two, seven, the letter A. *)
Definition MIXED_DIGITS : str := [0x661; 0xB2; 0x37; 0x41]%N.

(** Nine Arabic-Indic digits in groups of three. *)
Definition ARABIC_SIN : str :=
  [0x661; 0x662; 0x663; 0x20; 0x664; 0x665; 0x666; 0x20; 0x667; 0x668; 0x669]%N.

(** A document without [_id] whose text holds a national ID. *)
Definition NO_ID_HIT : Hit := {| hit_id := None; hit_source := Some SIN_SOURCE |}.

(** A document whose text holds no finding. *)
Definition PLAIN_HIT : Hit :=
  {| hit_id := Some (lit "2");
     hit_source := Some [(lit "content", VStr (lit "nothing to report"))] |}.

(** The same text at the same path in another document. *)
Definition SIN_HIT_COPY : Hit :=
  {| hit_id := Some (lit "3"); hit_source := Some SIN_SOURCE |}.

Definition DEDUPE_CONFIG : Config :=
  {| index := lit "docs";
     content_field := lit "content";
     alt_content_field := Some (lit "attachment.content");
     path_field := lit "path.virtual";
     dedupe := true;
     detectors_yaml := None;
     fmap := ∅;
     field_prefix := lit "pii.";
     apply_updates := false;
     bulk_size := 1000 |}.

(** A second detector for national IDs, as a detector file declares it, and
    a field map that sends it to the field of the built-in one. *)
Definition SIN2_DETECTOR : Detector :=
  {| name := lit "SIN2";
     pattern := nas_pattern;
     normalizer := Some nas_norm_local;
     desc := VStr [] |}.

Definition MAPPED_CONFIG : Config :=
  {| index := lit "docs";
     content_field := lit "content";
     alt_content_field := Some (lit "attachment.content");
     path_field := lit "path.virtual";
     dedupe := false;
     detectors_yaml := Some (lit "detectors.yaml");
     fmap := {[ lit "SIN2" := lit "nas_norm" ]};
     field_prefix := lit "pii.";
     apply_updates := true;
     bulk_size := 1000 |}.

(** A text in which one national ID occurs twice and another once. *)
Definition TWO_SINS_HIT : Hit :=
  {| hit_id := Some (lit "7");
     hit_source := Some
       [(lit "content", VStr (lit "a 123 456 789 b 987-654-321 c 123456789"))] |}.

(** Three pages: two with hits, then an empty one that still carries a
    cursor; the server would go on answering with hits after it. *)
Definition PAGES (i : nat) : Page :=
  match i with
  | 0%nat => {| scroll_id := Some (lit "c1"); hits := [SIN_HIT; PLAIN_HIT] |}
  | 1%nat => {| scroll_id := Some (lit "c2"); hits := [SIN_HIT_COPY] |}
  | 2%nat => {| scroll_id := Some (lit "c3"); hits := [] |}
  | _ => {| scroll_id := Some (lit "c4"); hits := [NO_ID_HIT] |}
  end.

Definition PAGE_REPLIES (i : nat) : HttpReply Page := Reply 200 (Some (PAGES i)).

(** A source tree without the primary field. *)
Definition ALT_ONLY_SOURCE : dict :=
  [(lit "attachment", VDict [(lit "content", VStr (lit "SIN 123 456 789"))])].

(** A bulk answer for three items, the second of which met a version
    conflict. *)
Definition CONFLICT_ITEM : list (str * dict) :=
  [(lit "update",
    [(lit "status", VInt 409);
     (lit "error", VDict [(lit "type", VStr (lit "version_conflict_engine_exception"))])])].

Definition CONFLICT_DATA : BulkData :=
  {| errors := true;
     items := [[(lit "update", [(lit "status", VInt 200)])];
               CONFLICT_ITEM;
               [(lit "update", [(lit "status", VInt 200)])]] |}.

Definition conflict_world : World :=
  {| yaml_source := NoYamlModule;
     scroll_replies := scroll_replies (one_page []);
     bulk_replies := fun _ _ => Reply 200 (Some CONFLICT_DATA) |}.

(** The state with one update in the buffer. *)
Definition QUEUED_STATE : State :=
  queue_update
    (update_lines SAMPLE_CONFIG (lit "1") {[ lit "nas_norm" := [lit "123-456-789"] ]})
    initial_state.

(** An answer with the status 300 and a body that reports no error. *)
Definition MULTIPLE_CHOICES : HttpReply BulkData :=
  Reply 300 (Some {| errors := false; items := [] |}).

(** Non-breaking space, tab, space. *)
Definition SPACE_RUN : str := [0xA0; 9; 32]%N.

(** Nine digits with a non-breaking space and an en dash between the
    groups. *)
Definition NBSP_SIN : str := [49; 50; 51; 0xA0; 52; 53; 54; 0x2013; 55; 56; 57]%N.

(** One page with a hit, then a request that the server refuses. *)
Definition FIRST_PAGE : Page := {| scroll_id := Some (lit "c1"); hits := [SIN_HIT] |}.

Definition FAILING_REPLIES (i : nat) : HttpReply Page :=
  match i with
  | O => Reply 200 (Some FIRST_PAGE)
  | _ => Reply 503 None
  end.


(** A run that sends every update on its own, against a server that goes on
    answering the scroll with a page of one document and refuses the bulk
    requests. *)
Definition BATCH_ONE_CONFIG : Config :=
  {| index := lit "docs";
     content_field := lit "content";
     alt_content_field := Some (lit "attachment.content");
     path_field := lit "path.virtual";
     dedupe := false;
     detectors_yaml := None;
     fmap := ∅;
     field_prefix := lit "pii.";
     apply_updates := true;
     bulk_size := 1 |}.

Definition refusing_world : World :=
  {| yaml_source := NoYamlModule;
     scroll_replies := fun _ =>
       Reply 200 (Some {| scroll_id := Some (lit "c1"); hits := [SIN_HIT] |});
     bulk_replies := fun _ _ => Reply 503 None |}.

(** An entry of a detector file for national IDs. *)
Definition NAS_ITEM : dict :=
  [(lit "name", VStr (lit "SIN"));
   (lit "regex", VStr NAS_REGEX);
   (lit "normalize", VStr (lit "nas"))].

(** The field map of the usage text, cut to two entries. *)
Definition FIELD_MAP_ENTRIES : list (str * str) :=
  [(lit "NAS", lit "nas_norm"); (lit "EMAIL", lit "emails")].

(** ** Tactics *)

(** Settles goals about membership in lists built with cons and append. *)
Ltac membership := intuition (subst; (tauto || eauto || congruence)).

(** Settles the comparisons of a status with constants. *)
Ltac status_tests :=
  repeat match goal with
    | |- context [?a <=? ?b] =>
        first [ replace (a <=? b) with true by lia
              | replace (a <=? b) with false by lia ]
    | |- context [?a <? ?b] =>
        first [ replace (a <? b) with true by lia
              | replace (a <? b) with false by lia ]
    end.

(** * Properties *)

Section Properties.
Context `{RT : PyRuntime}.

(** ** Normalisation of separators *)

(** The loop over [NBSP_SET] is one pass over the text. *)
Lemma nbsp_pass_fmap (chars : list N) (s : list N) :
  nbsp_pass chars s = (fun c => if decide (c ∈ chars) then SPACE else c) <$> s.
Proof.
  revert s. induction chars as [|ch chars IH]; intros s.
  - simpl. rewrite <- (list_fmap_id s) at 1. apply list_fmap_ext. intros _ c _.
    simpl. destruct (decide (c ∈ [])) as [Hin|]; [by apply not_elem_of_nil in Hin | done].
  - simpl. rewrite IH. unfold replace_char. rewrite <- list_fmap_compose.
    apply list_fmap_ext. intros _ c _. simpl.
    destruct (decide (c = ch)) as [->|Hne].
    + rewrite (decide_True (P := ch ∈ ch :: chars)) by (apply elem_of_cons; by left).
      by destruct (decide (SPACE ∈ chars)).
    + destruct (decide (c ∈ chars)) as [Hin|Hout].
      * rewrite decide_True; [done | apply elem_of_cons; by right].
      * rewrite decide_False; [done|]. rewrite elem_of_cons. tauto.
Qed.

(** The order in which the set is walked does not matter. *)
Lemma nbsp_pass_order (chars : list N) (s : list N) :
  chars ≡ₚ NBSP_SET -> nbsp_pass chars s = nbsp_pass NBSP_SET s.
Proof.
  intros Hp. rewrite !nbsp_pass_fmap. apply list_fmap_ext. intros _ c _.
  destruct (decide (c ∈ chars)) as [Hin|Hout].
  - rewrite decide_True; [done | by rewrite <- Hp].
  - rewrite decide_False; [done | by rewrite <- Hp].
Qed.

(** The three passes as one substitution followed by the collapse of the
    runs. *)
Lemma normalize_separators_fmap (s : list N) :
  normalize_separators s = ws_pass false (sep_subst <$> s).
Proof.
  destruct s as [|c s]; [done|]. unfold normalize_separators.
  rewrite nbsp_pass_fmap. unfold dash_pass. rewrite <- list_fmap_compose.
  f_equal. apply list_fmap_ext. intros _ x _. unfold sep_subst. simpl.
  destruct (decide (x ∈ NBSP_SET)); [|done].
  rewrite decide_False; [done|]. vm_compute. intros Hin.
  repeat (apply elem_of_cons in Hin as [Hin|Hin]; [discriminate|]).
  by apply not_elem_of_nil in Hin.
Qed.

Lemma ws_pass_other (b : bool) (x y : list N) (c : N) :
  ws_class c = false ->
  ws_pass b (x ++ c :: y) = ws_pass b x ++ c :: ws_pass false y.
Proof.
  intros Hc. revert b. induction x as [|d x IH]; intros b; simpl.
  - by rewrite Hc.
  - destruct (ws_class d); [destruct b|]; by rewrite IH.
Qed.

Lemma ws_pass_run (r z : list N) :
  Forall (fun c => ws_class c = true) r -> ws_pass true (r ++ z) = ws_pass true z.
Proof. induction 1 as [|c r Hc _ IH]; simpl; [done | by rewrite Hc]. Qed.

Lemma ws_pass_run_start (r z : list N) :
  r <> [] -> Forall (fun c => ws_class c = true) r ->
  ws_pass false (r ++ z) = SPACE :: ws_pass true z.
Proof.
  intros Hne Hr. destruct Hr as [|c r Hc Hr]; [done|]. simpl. rewrite Hc.
  by rewrite ws_pass_run.
Qed.

Lemma ws_pass_resume (z : list N) :
  (forall c z', z = c :: z' -> ws_class c = false) ->
  ws_pass true z = ws_pass false z.
Proof.
  destruct z as [|c z]; [done|]. intros Hz. simpl.
  by rewrite (Hz c z eq_refl).
Qed.

Lemma ws_pass_after (x z : list N) :
  (forall x' c, x = x' ++ [c] -> ws_class c = false) ->
  ws_pass false (x ++ z) = ws_pass false x ++ ws_pass false z.
Proof.
  intros Hx. destruct x as [|d x _] using rev_ind; [done|].
  rewrite <- app_assoc. simpl. rewrite !ws_pass_other by eauto.
  by rewrite <- app_assoc.
Qed.

Lemma sep_subst_space_like (c : N) : space_like c -> ws_class (sep_subst c) = true.
Proof.
  unfold sep_subst, space_like. intros [Hc|Hc].
  - by rewrite decide_True.
  - unfold WS_CLASS in Hc. rewrite !elem_of_cons, elem_of_nil in Hc.
    destruct Hc as [->|[->|[->|[->|[->|[]]]]]]; by vm_compute.
Qed.

Lemma sep_subst_dash (c : N) :
  c ∈ UNICODE_DASHES -> sep_subst c = HYPHEN.
Proof.
  unfold sep_subst, UNICODE_DASHES. rewrite !elem_of_cons, elem_of_nil.
  intros [->|[->|[->|[->|[->|[]]]]]]; by vm_compute.
Qed.

Lemma sep_subst_other (c : N) :
  ~ space_like c -> c ∉ UNICODE_DASHES -> sep_subst c = c /\ ws_class c = false.
Proof.
  unfold sep_subst, space_like, ws_class. intros Hs Hd. split.
  - rewrite decide_False by tauto. by rewrite decide_False.
  - apply bool_decide_eq_false. tauto.
Qed.

Lemma sep_subst_not_space (c : N) : ~ space_like c -> ws_class (sep_subst c) = false.
Proof.
  intros Hs. destruct (decide (c ∈ UNICODE_DASHES)) as [Hd|Hd].
  - by rewrite sep_subst_dash.
  - destruct (sep_subst_other c Hs Hd) as [-> ?]. done.
Qed.

(** The collapse of the runs does nothing to a collapsed text. *)
Lemma ws_pass_idempotent (b : bool) (s : list N) :
  ws_pass b (ws_pass b s) = ws_pass b s.
Proof.
  revert b. induction s as [|c s IH]; intros b; [done|]. simpl.
  destruct (ws_class c) eqn:Hc.
  - destruct b; [apply IH|]. simpl. by rewrite IH.
  - simpl. rewrite Hc. by rewrite IH.
Qed.

Lemma ws_pass_Forall (P : N -> Prop) (b : bool) (s : list N) :
  P SPACE -> Forall P s -> Forall P (ws_pass b s).
Proof.
  intros Hsp Hs. revert b. induction Hs as [|c s Hc _ IH]; intros b; simpl; [done|].
  destruct (ws_class c); [destruct b|]; auto.
Qed.

Lemma sep_subst_idempotent (c : N) : sep_subst (sep_subst c) = sep_subst c.
Proof.
  assert (Hs : sep_subst SPACE = SPACE) by (by vm_compute).
  assert (Hh : sep_subst HYPHEN = HYPHEN) by (by vm_compute).
  unfold sep_subst at 2 3. destruct (decide (c ∈ NBSP_SET)); [done|].
  destruct (decide (c ∈ UNICODE_DASHES)); [done|].
  unfold sep_subst. rewrite decide_False by done. by rewrite decide_False.
Qed.

(** Normalising twice is normalising once. *)
Lemma normalize_separators_idempotent (s : list N) :
  normalize_separators (normalize_separators s) = normalize_separators s.
Proof.
  rewrite !normalize_separators_fmap.
  assert (Hfix : Forall (fun c => sep_subst c = c) (ws_pass false (sep_subst <$> s))).
  { apply ws_pass_Forall; [done|]. apply Forall_fmap, Forall_true.
    intros c. apply sep_subst_idempotent. }
  rewrite (Forall_fmap_ext_1 sep_subst id) by done.
  rewrite list_fmap_id. apply ws_pass_idempotent.
Qed.

(** C8, as the code has it. [normalize_separators] leaves every character
    that is neither a dash of [UNICODE_DASHES] nor space-like unchanged and
    in place, the line feed among them; it turns a dash into a hyphen; and it
    turns a maximal run of space-like characters into one space. Space-like
    are the characters of [NBSP_SET] and space, tab, carriage return, form
    feed and vertical tab: the carriage return is rewritten too. *)
Theorem normalize_separators_rewrites :
  (forall a c b, ~ space_like c -> c ∉ UNICODE_DASHES ->
     normalize_separators (a ++ c :: b)
     = normalize_separators a ++ c :: normalize_separators b)
  /\ (forall a b,
     normalize_separators (a ++ LINE_FEED :: b)
     = normalize_separators a ++ LINE_FEED :: normalize_separators b)
  /\ (forall a c b, c ∈ UNICODE_DASHES ->
     normalize_separators (a ++ c :: b)
     = normalize_separators a ++ HYPHEN :: normalize_separators b)
  /\ (forall a r b, r <> [] -> Forall space_like r ->
     (forall a' c, a = a' ++ [c] -> ~ space_like c) ->
     (forall c b', b = c :: b' -> ~ space_like c) ->
     normalize_separators (a ++ r ++ b)
     = normalize_separators a ++ SPACE :: normalize_separators b).
Proof.
  assert (Hother : forall a c b, ~ space_like c -> c ∉ UNICODE_DASHES ->
     normalize_separators (a ++ c :: b)
     = normalize_separators a ++ c :: normalize_separators b).
  { intros a c b Hs Hd. rewrite !normalize_separators_fmap, fmap_app, fmap_cons.
    destruct (sep_subst_other c Hs Hd) as [-> Hc]. by apply ws_pass_other. }
  split; [exact Hother|]. split; [|split].
  - intros a b. apply Hother.
    + apply (bool_decide_unpack _). by vm_compute.
    + apply (bool_decide_unpack _). by vm_compute.
  - intros a c b Hd. rewrite !normalize_separators_fmap, fmap_app, fmap_cons.
    rewrite (sep_subst_dash c Hd). by apply ws_pass_other.
  - intros a r b Hne Hr Ha Hb.
    rewrite !normalize_separators_fmap, !fmap_app.
    rewrite ws_pass_after.
    + f_equal. rewrite ws_pass_run_start.
      * f_equal. apply ws_pass_resume. intros c z' Hz.
        destruct b as [|c0 b]; [done|]. simpl in Hz. injection Hz as <- <-.
        apply sep_subst_not_space. eauto.
      * by destruct r.
      * apply Forall_fmap. eapply Forall_impl; [exact Hr|].
        intros c Hc. by apply sep_subst_space_like.
    + intros x' c Hx. destruct a as [|d a _] using rev_ind.
      * by destruct x'.
      * rewrite fmap_app in Hx. simpl in Hx. apply app_inj_tail in Hx as [_ <-].
        apply sep_subst_not_space. eauto.
Qed.



(** ** Folding of digits *)

(** The three tests of the loop come to one lookup of the decimal value. *)
Lemma digit_piece_decimal `{!PyRuntimeLaws} (c : N) :
  digit_piece c = match decimal c with Some v => [[Z.to_N (48 + v)]] | None => [] end.
Proof.
  unfold digit_piece. destruct (decimal c) as [v|] eqn:Hd.
  - rewrite (decimal_isdigit c v Hd).
    pose proof (decimal_range c v Hd) as [Hlo Hhi].
    apply Z.leb_le in Hlo, Hhi. by rewrite Hlo, Hhi.
  - by destruct (isdigit c).
Qed.

Lemma unicode_digits_to_ascii_omap `{!PyRuntimeLaws} (s : list N) :
  unicode_digits_to_ascii s = omap ascii_digit_of s.
Proof.
  unfold unicode_digits_to_ascii, ascii_digit_of.
  induction s as [|c s IH]; [done|].
  rewrite bind_cons, concat_app, IH, digit_piece_decimal. simpl.
  by destruct (decimal c).
Qed.

(** The ASCII digits of the decimal characters: they are characters 0 to
    9, as many as the decimal characters. *)
Lemma omap_ascii_digit_cons (c : N) (s : list N) :
  omap ascii_digit_of (c :: s)
  = match decimal c with
    | Some v => Z.to_N (48 + v) :: omap ascii_digit_of s
    | None => omap ascii_digit_of s
    end.
Proof. unfold ascii_digit_of. simpl. by destruct (decimal c). Qed.

Lemma omap_ascii_digit_Forall `{!PyRuntimeLaws} (s : list N) :
  Forall is_ascii_digit (omap ascii_digit_of s).
Proof.
  induction s as [|c s IH]; [constructor|]. rewrite omap_ascii_digit_cons.
  destruct (decimal c) as [v|] eqn:Hd; [|done].
  constructor; [|done]. pose proof (decimal_range c v Hd).
  unfold is_ascii_digit. lia.
Qed.

Lemma omap_ascii_digit_length (s : list N) :
  length (omap ascii_digit_of s) = length (filter (fun c => is_Some (decimal c)) s).
Proof.
  induction s as [|c s IH]; [done|]. rewrite omap_ascii_digit_cons, filter_cons.
  destruct (decimal c) as [v|] eqn:Hd.
  - rewrite decide_True by eauto. simpl. by rewrite IH.
  - rewrite decide_False; [done|]. by intros [? ?].
Qed.

(** C3. For every string [s], [unicode_digits_to_ascii s] holds only the
    characters 0 to 9; its length is the number of characters of [s] that
    are decimal digits; it is the list of the ASCII digits of those
    characters in their order in [s], every other character being dropped
    wherever it stands. A character that is a digit for [isdigit] without
    being decimal (a superscript two) is dropped as well. *)
Theorem unicode_digits_to_ascii_digits `{!PyRuntimeLaws} (s : list N) :
  unicode_digits_to_ascii s = omap ascii_digit_of s
  /\ Forall is_ascii_digit (unicode_digits_to_ascii s)
  /\ length (unicode_digits_to_ascii s)
     = length (filter (fun c => is_Some (decimal c)) s).
Proof.
  split; [apply unicode_digits_to_ascii_omap|].
  rewrite unicode_digits_to_ascii_omap. split.
  - apply omap_ascii_digit_Forall.
  - apply omap_ascii_digit_length.
Qed.

(** ** The national-ID normalizer *)

Lemma ascii_digit_of_ascii `{!PyRuntimeLaws} (c : N) :
  (c < 128)%N ->
  ascii_digit_of c = if ((48 <=? c) && (c <=? 57))%N then Some c else None.
Proof.
  intros Hc. unfold ascii_digit_of. rewrite (decimal_ascii c Hc).
  destruct ((48 <=? c) && (c <=? 57))%N eqn:Hd; [|done]. simpl. f_equal.
  apply andb_true_iff in Hd as [H1 H2]. apply N.leb_le in H1, H2. lia.
Qed.

(** On ASCII text the fold keeps the characters 0 to 9. *)
Lemma unicode_digits_to_ascii_ascii `{!PyRuntimeLaws} (s : list N) :
  Forall (fun c => (c < 128)%N) s ->
  unicode_digits_to_ascii s
  = filter (fun c => ((48 <=? c) && (c <=? 57))%N = true) s.
Proof.
  intros Hs. rewrite unicode_digits_to_ascii_omap.
  induction Hs as [|c s Hc _ IH]; [done|]. rewrite filter_cons, <- IH.
  pose proof (ascii_digit_of_ascii c Hc) as Hd.
  destruct ((48 <=? c) && (c <=? 57))%N.
  - rewrite decide_True by done. simpl. by rewrite Hd.
  - rewrite decide_False by done. simpl. by rewrite Hd.
Qed.

Lemma nas_norm_truthy (s v : list N) : nas_norm s = Some v -> str_truthy v = true.
Proof.
  unfold nas_norm. case_decide; [done|]. intros [= <-].
  by destruct (slice 0 3 (unicode_digits_to_ascii s)).
Qed.

(** C2. The national-ID normalizer folds the raw match to its decimal
    digits. When there are exactly nine, [d1] to [d9], it returns
    [d1 d2 d3 - d4 d5 d6 - d7 d8 d9]; otherwise it returns nothing, and
    [find] then yields nothing for that match: a detector with this
    normalizer yields the normalised values of the matches that have nine
    digits, in order. The text 123 456 789 gives 123-456-789, and 123-45
    gives nothing. *)
Theorem nas_norm_nine_digits `{!PyRuntimeLaws} :
  (forall s, length (filter (fun c => is_Some (decimal c)) s) = 9%nat ->
     exists d1 d2 d3 d4 d5 d6 d7 d8 d9,
       omap ascii_digit_of s = [d1; d2; d3; d4; d5; d6; d7; d8; d9]
       /\ Forall is_ascii_digit [d1; d2; d3; d4; d5; d6; d7; d8; d9]
       /\ nas_norm s = Some [d1; d2; d3; HYPHEN; d4; d5; d6; HYPHEN; d7; d8; d9])
  /\ (forall s, length (filter (fun c => is_Some (decimal c)) s) <> 9%nat ->
     nas_norm s = None)
  /\ (forall d text, normalizer d = Some nas_norm ->
     find d text = omap nas_norm (pattern d text))
  /\ nas_norm (lit "123 456 789") = Some (lit "123-456-789")
  /\ nas_norm (lit "123-45") = None.
Proof.
  split; [|split; [|split; [|split]]].
  - intros s Hn.
    pose proof (unicode_digits_to_ascii_omap s) as Heq.
    pose proof (omap_ascii_digit_Forall s) as Hall.
    pose proof (omap_ascii_digit_length s) as Hlen.
    rewrite Hn in Hlen. unfold nas_norm. rewrite Heq. rewrite decide_False by lia.
    destruct (omap ascii_digit_of s) as [|d1 [|d2 [|d3 [|d4 [|d5 [|d6 [|d7 [|d8 [|d9 [|? ?]]]]]]]]]];
      try discriminate.
    by exists d1, d2, d3, d4, d5, d6, d7, d8, d9.
  - intros s Hn.
    pose proof (omap_ascii_digit_length s) as Hlen.
    unfold nas_norm. rewrite unicode_digits_to_ascii_omap.
    rewrite decide_True; [done | congruence].
  - intros d text Hd. unfold find. rewrite Hd.
    induction (pattern d text) as [|raw l IH]; [done|].
    rewrite bind_cons, IH. simpl.
    destruct (nas_norm raw) as [v|] eqn:Hv; [|done].
    by rewrite (nas_norm_truthy raw v Hv).
  - unfold nas_norm. rewrite unicode_digits_to_ascii_ascii.
    + by vm_compute.
    + apply (bool_decide_unpack _). by vm_compute.
  - unfold nas_norm. rewrite unicode_digits_to_ascii_ascii.
    + by vm_compute.
    + apply (bool_decide_unpack _). by vm_compute.
Qed.

(** ** The text of a document *)

Lemma lookup_path_none (parts : list (list N)) :
  foldl (fun cur k => cur ≫= child k) None parts = None.
Proof. by induction parts. Qed.

Lemma lookup_path_cons (v : value) (k : list N) (parts : list (list N)) :
  lookup_path v (k :: parts)
  = match child k v with Some v' => lookup_path v' parts | None => None end.
Proof.
  unfold lookup_path. simpl. destruct (child k v); [done | apply lookup_path_none].
Qed.

Lemma lookup_path_app (v : value) (pre post : list (list N)) :
  lookup_path v (pre ++ post) = lookup_path v pre ≫= fun v' => lookup_path v' post.
Proof.
  unfold lookup_path. rewrite foldl_app.
  destruct (foldl _ (Some v) pre); [done | apply lookup_path_none].
Qed.

(** Both loops over the parts of a dotted path are the dotted-path lookup. *)
Lemma alt_walk_lookup (v : value) (parts : list (list N)) :
  alt_walk v parts = default VNull (lookup_path v parts).
Proof.
  revert v. induction parts as [|k parts IH]; intros v; [done|].
  rewrite lookup_path_cons. simpl.
  destruct v; try done. simpl. destruct (dict_get k d); [apply IH | done].
Qed.

Lemma path_walk_lookup (v : value) (parts : list (list N)) :
  path_walk v parts = lookup_path v parts.
Proof.
  revert v. induction parts as [|k parts IH]; intros v; [done|].
  rewrite lookup_path_cons. simpl.
  destruct v; try done. simpl. destruct (dict_get k d); [apply IH | done].
Qed.

Lemma get_text_fallback (src : list (list N * value)) (cf : list N) (alt : option (list N)) :
  dict_get cf src = None \/ dict_get cf src = Some VNull ->
  get_text_from_source src cf alt = fallback_text src alt.
Proof.
  intros Hp. unfold get_text_from_source, fallback_text.
  assert (Halt : match alt with
     | Some a => if str_truthy a
         then let cur := alt_walk (VDict src) (split_on DOT a) in
              if truthy cur then py_str cur else []
         else []
     | None => [] end
     = match alt with
       | Some a => if str_truthy a
           then match lookup_path (VDict src) (split_on DOT a) with
                | Some v => if truthy v then py_str v else []
                | None => [] end
           else []
       | None => [] end).
  { destruct alt as [a|]; [|done]. destruct (str_truthy a); [|done]. simpl.
    rewrite alt_walk_lookup. by destruct (lookup_path _ _). }
  destruct Hp as [-> | ->]; exact Halt.
Qed.

(** C1, as the code has it. A primary field that is present and not null
    gives the text, as it is when it is a string, the empty string included.
    When the primary field is absent or null the text is the fallback: the
    value at the end of the dotted path of the alternate field when it is
    true, the empty string otherwise, and a key missing at any segment makes
    it empty. A document whose text is empty is skipped: the turn of the
    loop counts it and changes nothing else. *)
Theorem get_text_from_source_cases :
  (forall src cf alt v, dict_get cf src = Some v -> v <> VNull ->
     get_text_from_source src cf alt = py_str v)
  /\ (forall src cf alt s, dict_get cf src = Some (VStr s) ->
     get_text_from_source src cf alt = s)
  /\ (forall src cf alt, dict_get cf src = None \/ dict_get cf src = Some VNull ->
     get_text_from_source src cf alt = fallback_text src alt)
  /\ (forall src a pre k post v,
     split_on DOT a = pre ++ k :: post ->
     lookup_path (VDict src) pre = Some v -> child k v = None ->
     fallback_text src (Some a) = [])
  /\ (forall cfg w detectors st hit,
     get_text_from_source (default [] (hit_source hit)) (content_field cfg)
       (alt_content_field cfg) = [] ->
     process_hit cfg w detectors st hit = Continue (count_doc st)).
Proof.
  split; [|split; [|split; [|split]]].
  - intros src cf alt v Hv Hn. unfold get_text_from_source. rewrite Hv.
    by destruct v.
  - intros src cf alt s Hv. unfold get_text_from_source. by rewrite Hv.
  - apply get_text_fallback.
  - intros src a pre k post v Hsplit Hpre Hk. unfold fallback_text.
    destruct (str_truthy a); [|done].
    rewrite Hsplit, lookup_path_app, Hpre. simpl.
    by rewrite lookup_path_cons, Hk.
  - intros cfg w detectors st hit Ht. unfold process_hit. by rewrite Ht.
Qed.
(** The loop entered with page [k] in hand, when the pages after it go on
    for [m] turns. *)
(** ** Pagination *)

Lemma scroll_loop_until (replies : nat -> HttpReply Page) (p : nat -> Page)
    (m k : nat) (fuel : nat) :
  (forall i, (k <= i < k + m)%nat -> scroll_ends (p i) = false) ->
  (forall i, (k < i <= k + m)%nat -> scroll_page (replies i) = Some (p i)) ->
  scroll_ends (p (k + m)%nat) = true ->
  (m <= fuel)%nat ->
  scroll_loop fuel replies (S k) (p k)
  = Some {| yielded := seq (S k) m ≫= (fun i => hits (p i));
            requests := S (k + m); raised := false |}.
Proof.
  revert k fuel. induction m as [|m IH]; intros k fuel Hgo Hok Hend Hfuel.
  - replace (k + 0)%nat with k in * by lia.
    destruct fuel; simpl; by rewrite Hend.
  - destruct fuel as [|fuel]; [lia|]. simpl.
    rewrite Hgo by lia. rewrite (Hok (S k)) by lia.
    rewrite (IH (S k) fuel).
    + simpl. unfold yield_first. simpl. do 2 f_equal. lia.
    + intros i Hi. apply Hgo. lia.
    + intros i Hi. apply Hok. lia.
    + by replace (S k + m)%nat with (k + S m)%nat by lia.
    + lia.
Qed.


(** C6. When the answers number 0 to [n] are pages, those before [n] have
    hits and a cursor token, and page [n] has no hit or no token, the scroll
    ends, given fuel for [n] turns: it has yielded every hit of the pages 0
    to [n] in order, it has sent [n + 1] requests and none after page [n],
    whatever the server would answer next, and it has not raised. *)
Theorem search_scroll_terminates (replies : nat -> HttpReply Page) (p : nat -> Page)
    (n fuel : nat) :
  (forall i, (i <= n)%nat -> scroll_page (replies i) = Some (p i)) ->
  (forall i, (i < n)%nat -> hits (p i) <> [] /\ str_truthy (default [] (scroll_id (p i))) = true) ->
  hits (p n) = [] \/ str_truthy (default [] (scroll_id (p n))) = false ->
  (n <= fuel)%nat ->
  search_scroll fuel replies
  = Some {| yielded := seq 0 (S n) ≫= (fun i => hits (p i));
            requests := S n; raised := false |}.
Proof.
  intros Hok Hgo Hend Hfuel. unfold search_scroll.
  rewrite (Hok 0%nat) by lia.
  rewrite (scroll_loop_until replies p n 0 fuel); simpl.
  - done.
  - intros i Hi. destruct (Hgo i) as [Hh Hs]; [lia|]. unfold scroll_ends.
    rewrite Hs. by destruct (hits (p i)).
  - intros i Hi. apply Hok. lia.
  - unfold scroll_ends. destruct Hend as [-> | ->]; [done|].
    by destruct (hits (p n)).
  - done.
Qed.
(** ** Bulk submission *)

Lemma flush_bulk_continues (w : World) (st : State) (status : Z) (data : BulkData) :
  bulk_replies w (length (bulk_calls st)) (bulk_lines st) = Reply status (Some data) ->
  status < 400 ->
  flush_bulk w st
  = match bulk_lines st with
    | [] => Continue st
    | _ => Continue (sent (if errors data
                           then [BulkItemErrors (take 5 (filter (fun it => item_failed it = true) (items data)))]
                           else []) st)
    end.
Proof.
  intros Hr Hs. unfold flush_bulk. rewrite Hr. unfold bulk.
  status_tests. simpl.
  destruct (bulk_lines st); [done|]. by destruct (errors data).
Qed.

(** ** Loading of detectors *)

Lemma find_passthrough (det : Detector) (text : list N) :
  normalizer det = None ->
  find det text = filter (fun raw => raw <> []) (pattern det text).
Proof.
  intros Hn. unfold find. rewrite Hn.
  induction (pattern det text) as [|raw l IH]; [done|].
  rewrite bind_cons, IH, filter_cons. by destruct raw.
Qed.

Lemma item_normalizer_unknown (d : list (list N * value)) :
  dict_get (lit "normalize") d <> Some (VStr (lit "nas")) ->
  item_normalizer d = None.
Proof.
  unfold item_normalizer. intros Hn.
  destruct (dict_get (lit "normalize") d) as [[| | | |n| |]|]; try done.
  case_decide; [by subst | done].
Qed.

(** C9, as the code has it. When the [yaml] module cannot be imported the
    run goes on with the built-in detector alone. When the detector file
    cannot be opened or parsed, or an entry lacks [name] or [regex] or has a
    [regex] that does not compile, loading raises and the run ends before it
    reads a document. An entry whose [normalize] is anything but [nas], or
    is missing, loads with no normalizer, and its detector yields the
    non-empty raw matches. *)
Theorem detector_loading_outcomes :
  (forall cfg w, yaml_source w = NoYamlModule ->
     main_detectors cfg w = Some [make_nas_detector])
  /\ (forall cfg w p fuel,
     detectors_yaml cfg = Some p -> p <> [] ->
     yaml_source w = CannotOpen \/ yaml_source w = YamlError ->
     main_detectors cfg w = None /\ main fuel cfg w = Some LoadFailed)
  /\ (forall cfg w p fuel l d,
     detectors_yaml cfg = Some p -> p <> [] ->
     yaml_source w = Parsed (VList l) -> VDict d ∈ l ->
     dict_get (lit "name") d = None \/ dict_get (lit "regex") d = None
     \/ (exists regex, dict_get (lit "regex") d = Some (VStr regex)
                       /\ re_compile regex (item_flags d) = None) ->
     main_detectors cfg w = None /\ main fuel cfg w = Some LoadFailed)
  /\ (forall d nm regex pat,
     dict_get (lit "name") d = Some (VStr nm) ->
     dict_get (lit "regex") d = Some (VStr regex) ->
     re_compile regex (item_flags d) = Some pat ->
     dict_get (lit "normalize") d <> Some (VStr (lit "nas")) ->
     exists det, load_item (VDict d) = Some det
       /\ name det = nm /\ pattern det = pat /\ normalizer det = None
       /\ forall text, find det text = filter (fun raw => raw <> []) (pat text)).
Proof.
  assert (Hfail : forall cfg w p fuel, detectors_yaml cfg = Some p -> p <> [] ->
            load_detectors_from_yaml (yaml_source w) = None ->
            main_detectors cfg w = None /\ main fuel cfg w = Some LoadFailed).
  { intros cfg w p fuel Hp Hne Hl.
    assert (main_detectors cfg w = None) as Hm.
    { unfold main_detectors. rewrite Hp. destruct p; [done|]. simpl. by rewrite Hl. }
    split; [done|]. unfold main. by rewrite Hm. }
  repeat apply conj.
  - intros cfg w Hy. unfold main_detectors. rewrite Hy. simpl.
    destruct (detectors_yaml cfg) as [p|]; [|done]. by destruct (str_truthy p).
  - intros cfg w p fuel Hp Hne Hy. apply (Hfail cfg w p fuel Hp Hne).
    by destruct Hy as [-> | ->].
  - intros cfg w p fuel l d Hp Hne Hy Hin Hbad. apply (Hfail cfg w p fuel Hp Hne).
    rewrite Hy. unfold load_detectors_from_yaml.
    assert (truthy (VList l) = true) as ->
      by (destruct l; [by apply elem_of_nil in Hin | done]).
    change (py_iter (VList l) ≫= mapM load_item) with (mapM load_item l).
    apply eq_None_not_Some. intros [ds Hds]. apply mapM_Some_1 in Hds.
    apply list_elem_of_lookup in Hin as [i Hi].
    destruct (Forall2_lookup_l _ _ _ _ _ Hds Hi) as (det & _ & Hdet).
    simpl in Hdet.
    destruct Hbad as [Hb | [Hb | (regex & Hb & Hc)]]; rewrite ?Hb in Hdet.
    + done.
    + by destruct (dict_get (lit "name") d) as [[]|].
    + destruct (dict_get (lit "name") d) as [[]|]; try done. by rewrite Hc in Hdet.
  - intros d nm regex pat Hnm Hrx Hc Hn. simpl. rewrite Hnm, Hrx, Hc.
    eexists. split; [done|]. simpl. rewrite (item_normalizer_unknown d Hn).
    repeat split. intros text. by apply find_passthrough.
Qed.
(** ** First occurrences *)

Section FirstBy.
Context {A K : Type} `{EqDecision K} (key : A -> K).

Lemma first_by_ext (s1 s2 : list K) (l : list A) :
  (forall k, k ∈ s1 <-> k ∈ s2) -> first_by key s1 l = first_by key s2 l.
Proof.
  revert s1 s2. induction l as [|x l IH]; intros s1 s2 Hs; [done|]. simpl.
  destruct (decide (key x ∈ s1)) as [H1|H1].
  - rewrite decide_True by by apply Hs. by apply IH.
  - rewrite decide_False by by rewrite <- Hs. f_equal. apply IH.
    intros k. rewrite !elem_of_cons. by rewrite Hs.
Qed.

Lemma first_by_app (s : list K) (l1 l2 : list A) :
  first_by key s (l1 ++ l2)
  = first_by key s l1 ++ first_by key ((key <$> l1) ++ s) l2.
Proof.
  revert s. induction l1 as [|x l1 IH]; intros s; [done|]. simpl.
  destruct (decide (key x ∈ s)) as [Hx|Hx].
  - rewrite IH. f_equal. apply first_by_ext. intros k.
    rewrite elem_of_cons, !elem_of_app. membership.
  - simpl. f_equal. rewrite IH. f_equal. apply first_by_ext. intros k.
    rewrite !elem_of_cons, !elem_of_app, !elem_of_cons. membership.
Qed.

Lemma first_by_keys (s : list K) (l : list A) (k : K) :
  k ∈ key <$> first_by key s l <-> k ∈ key <$> l /\ k ∉ s.
Proof.
  revert s. induction l as [|x l IH]; intros s; simpl.
  - rewrite elem_of_nil. tauto.
  - destruct (decide (key x ∈ s)) as [Hx|Hx].
    + rewrite IH, elem_of_cons. membership.
    + rewrite fmap_cons, !elem_of_cons, IH, elem_of_cons.
      destruct (decide (k = key x)); membership.
Qed.


Lemma first_by_sublist (s : list K) (l : list A) : first_by key s l `sublist_of` l.
Proof.
  revert s. induction l as [|x l IH]; intros s; simpl; [done|].
  destruct (decide (key x ∈ s)).
  - by apply sublist_cons.
  - by apply sublist_skip.
Qed.

Lemma first_by_at (s : list K) (l1 l2 : list A) (x : A) :
  first_by key s (l1 ++ x :: l2)
  = first_by key s l1
    ++ (if decide (key x ∈ (key <$> l1) ++ s) then [] else [x])
    ++ first_by key ((key <$> l1 ++ [x]) ++ s) l2.
Proof.
  rewrite first_by_app. f_equal. simpl.
  destruct (decide (key x ∈ (key <$> l1) ++ s)) as [Hx|Hx]; simpl.
  - apply first_by_ext. intros k. rewrite fmap_app. simpl.
    rewrite !elem_of_app, elem_of_cons, elem_of_nil.
    rewrite elem_of_app in Hx. membership.
  - f_equal. apply first_by_ext. intros k. rewrite fmap_app. simpl.
    rewrite elem_of_cons, !elem_of_app, elem_of_cons, elem_of_nil. membership.
Qed.

Lemma first_by_snoc (s : list K) (l : list A) (x : A) :
  first_by key s (l ++ [x])
  = first_by key s l ++ (if decide (key x ∈ (key <$> l) ++ s) then [] else [x]).
Proof.
  rewrite first_by_at. simpl. by rewrite app_nil_r.
Qed.
End FirstBy.
(** ** The report *)

(** The part of the state that the report writer owns. *)
Lemma write_csv_keeps (cfg : Config) (path _id : list N) (st : State)
    (pairs : list (list N * list N)) :
  let st' := write_csv cfg path _id st pairs in
  docs_count st' = docs_count st /\ bulk_lines st' = bulk_lines st
  /\ updates_count st' = updates_count st /\ bulk_calls st' = bulk_calls st
  /\ stderr st' = stderr st.
Proof.
  revert st. induction pairs as [|p pairs IH]; intros st; [done|]. simpl.
  destruct (IH (csv_step cfg path _id st p)) as (-> & -> & -> & -> & ->).
  unfold csv_step. destruct (dedupe cfg); [case_decide|]; done.
Qed.

Lemma write_csv_plain (cfg : Config) (path _id : list N) (st : State)
    (pairs : list (list N * list N)) :
  dedupe cfg = false ->
  let st' := write_csv cfg path _id st pairs in
  rows st' = rows st ++ ((fun p => (p.1, p.2, path, _id)) <$> pairs)
  /\ pairs_count st' = (pairs_count st + length pairs)%nat
  /\ seen_csv st' = seen_csv st.
Proof.
  intros Hd. revert st. induction pairs as [|p pairs IH]; intros st; simpl.
  - rewrite app_nil_r. repeat split. lia.
  - destruct (IH (csv_step cfg path _id st p)) as (-> & -> & ->).
    unfold csv_step. rewrite Hd. simpl. rewrite <- app_assoc. repeat split. lia.
Qed.

Lemma write_csv_dedupe (cfg : Config) (path _id : list N) (st : State)
    (pairs : list (list N * list N)) (seen : list (list N * list N * list N)) :
  dedupe cfg = true ->
  (forall k, k ∈ seen_csv st <-> k ∈ seen) ->
  let st' := write_csv cfg path _id st pairs in
  let cand := (fun p => (p.1, p.2, path, _id)) <$> pairs in
  rows st' = rows st ++ first_by row_key seen cand
  /\ pairs_count st' = (pairs_count st + length (first_by row_key seen cand))%nat
  /\ (forall k, k ∈ seen_csv st' <-> k ∈ (row_key <$> cand) ++ seen).
Proof.
  intros Hd. revert st seen. induction pairs as [|p pairs IH]; intros st seen Hs.
  - simpl. rewrite app_nil_r. repeat split; [lia | apply Hs | apply Hs].
  - assert (Hstep : csv_step cfg path _id st p
        = if decide ((p.1, p.2, path) ∈ seen_csv st) then st
          else write_row (p.1, p.2, path, _id) ({[(p.1, p.2, path)]} ∪ seen_csv st) st)
      by (unfold csv_step; by rewrite Hd).
    destruct (decide ((p.1, p.2, path) ∈ seen_csv st)) as [Hin|Hout].
    + pose proof (IH st seen Hs) as IH'.
      simpl in IH' |- *. rewrite Hstep.
      change (row_key (p.1, p.2, path, _id)) with (p.1, p.2, path).
      rewrite decide_True by by apply Hs.
      destruct IH' as (-> & -> & Hk). repeat split; try done.
      * intros Hx. apply Hk in Hx. rewrite elem_of_cons. tauto.
      * intros Hx. apply Hk. rewrite elem_of_cons in Hx.
        destruct Hx as [->|Hx]; [|done]. apply elem_of_app. right. by apply Hs.
    + pose proof (IH (write_row (p.1, p.2, path, _id) ({[(p.1, p.2, path)]} ∪ seen_csv st) st)
                  ((p.1, p.2, path) :: seen)) as IH'.
      simpl in IH' |- *. rewrite Hstep.
      change (row_key (p.1, p.2, path, _id)) with (p.1, p.2, path).
      rewrite decide_False by by rewrite <- Hs.
      destruct IH' as (-> & -> & Hk).
      { intros k. rewrite elem_of_union, elem_of_singleton, elem_of_cons.
        by rewrite Hs. }
      simpl. rewrite <- app_assoc. repeat split; try done; try lia.
      * intros Hx. apply Hk in Hx. rewrite elem_of_cons. rewrite elem_of_app in *.
        rewrite elem_of_cons in Hx. tauto.
      * intros Hx. apply Hk. rewrite elem_of_cons in Hx. rewrite elem_of_app in *.
        rewrite elem_of_cons. tauto.
Qed.

(** A flush touches neither the report nor the set of queued lines. *)
Lemma flush_bulk_keeps (w : World) (st : State) :
  let st' := outcome_state (flush_bulk w st) in
  rows st' = rows st /\ seen_csv st' = seen_csv st /\ pairs_count st' = pairs_count st
  /\ docs_count st' = docs_count st /\ updates_count st' = updates_count st
  /\ all_lines st' = all_lines st.
Proof.
  unfold flush_bulk. destruct (bulk_lines st) eqn:Hl; [done|].
  destruct (bulk _) as [log [data|]]; simpl; repeat split.
  unfold all_lines. simpl. rewrite Hl, concat_app. simpl. by rewrite !app_nil_r.
Qed.

Lemma process_hit_report (cfg : Config) (w : World) (detectors : list Detector)
    (st : State) (h : Hit) :
  let st' := outcome_state (process_hit cfg w detectors st h) in
  let st1 := write_csv cfg
               (get_path_virtual (default [] (hit_source h)) (path_field cfg))
               (default [] (hit_id h)) (count_doc st) (hit_pairs cfg detectors h) in
  rows st' = rows st1 /\ seen_csv st' = seen_csv st1
  /\ pairs_count st' = pairs_count st1 /\ docs_count st' = S (docs_count st).
Proof.
  unfold process_hit, hit_pairs.
  set (text := get_text_from_source _ _ _).
  set (path := get_path_virtual _ _).
  set (_id := default [] (hit_id h)).
  destruct (str_truthy text) eqn:Ht; simpl.
  2: { destruct text; [|done]. done. }
  set (pairs := extract_from_text text detectors).
  set (st1 := write_csv cfg path _id (count_doc st) pairs).
  destruct (write_csv_keeps cfg path _id (count_doc st) pairs) as (Hdocs & _).
  fold st1 in Hdocs. simpl in Hdocs.
  destruct (apply_updates cfg && _); [|done].
  case_bool_decide; [|done].
  destruct (negb (str_truthy _id)); [done|].
  destruct (bulk_size cfg <=? _); [|done].
  destruct (flush_bulk_keeps w (queue_update (update_lines cfg _id (group_fields cfg pairs)) st1))
    as (-> & -> & -> & -> & _).
  done.
Qed.
(** What a turn of the loop adds to the report. *)
Lemma process_hit_rows (cfg : Config) (w : World) (detectors : list Detector)
    (st : State) (h : Hit) :
  (dedupe cfg = true -> forall k, k ∈ seen_csv st <-> k ∈ row_key <$> rows st) ->
  let st' := outcome_state (process_hit cfg w detectors st h) in
  let new := if dedupe cfg
             then first_by row_key (row_key <$> rows st) (hit_rows cfg detectors h)
             else hit_rows cfg detectors h in
  rows st' = rows st ++ new
  /\ pairs_count st' = (pairs_count st + length new)%nat
  /\ docs_count st' = S (docs_count st)
  /\ (dedupe cfg = true -> forall k, k ∈ seen_csv st' <-> k ∈ row_key <$> rows st').
Proof.
  intros Hinv.
  destruct (process_hit_report cfg w detectors st h) as (Hr & Hs & Hp & Hd).
  cbn zeta. rewrite Hr, Hs, Hp, Hd. clear Hr Hs Hp Hd.
  unfold hit_rows. fold (hit_pairs cfg detectors h).
  set (path := get_path_virtual _ _). set (_id := default [] (hit_id h)).
  destruct (dedupe cfg) eqn:Hdd.
  - destruct (write_csv_dedupe cfg path _id (count_doc st) (hit_pairs cfg detectors h)
                (row_key <$> rows st) Hdd (Hinv eq_refl)) as (Hr & Hp & Hk).
    rewrite Hr, Hp. simpl. repeat split; try done.
    + intros Hx. apply Hk in Hx. rewrite fmap_app, elem_of_app.
      rewrite first_by_keys. rewrite elem_of_app in Hx.
      destruct (decide (k ∈ row_key <$> rows st)); tauto.
    + intros Hx. apply Hk. rewrite fmap_app, elem_of_app in Hx.
      rewrite first_by_keys in Hx. rewrite elem_of_app. tauto.
  - destruct (write_csv_plain cfg path _id (count_doc st) (hit_pairs cfg detectors h) Hdd)
      as (Hr & Hp & _).
    rewrite Hr, Hp. simpl. rewrite length_fmap. repeat split; done.
Qed.

Lemma first_by_resume {A K : Type} `{EqDecision K} (key : A -> K)
    (s : list K) (a b : list A) :
  first_by key s (a ++ b)
  = first_by key s a ++ first_by key (s ++ (key <$> first_by key s a)) b.
Proof.
  rewrite first_by_app. f_equal. apply first_by_ext. intros k.
  rewrite !elem_of_app, first_by_keys. destruct (decide (k ∈ s)); tauto.
Qed.

(** The report after the loop, from any state whose [seen_csv] holds the
    keys of its rows. *)
Lemma run_hits_rows (cfg : Config) (w : World) (detectors : list Detector)
    (hs : list Hit) (st : State) :
  (dedupe cfg = true -> forall k, k ∈ seen_csv st <-> k ∈ row_key <$> rows st) ->
  exists n,
    docs_count (outcome_state (run_hits cfg w detectors st hs)) = (docs_count st + n)%nat
    /\ (n <= length hs)%nat
    /\ (forall st'', run_hits cfg w detectors st hs = Continue st'' -> n = length hs)
    /\ rows (outcome_state (run_hits cfg w detectors st hs))
       = rows st ++ (if dedupe cfg
                     then first_by row_key (row_key <$> rows st)
                            (take n hs ≫= hit_rows cfg detectors)
                     else take n hs ≫= hit_rows cfg detectors)
    /\ pairs_count (outcome_state (run_hits cfg w detectors st hs))
       = (pairs_count st
          + length (if dedupe cfg
                    then first_by row_key (row_key <$> rows st)
                           (take n hs ≫= hit_rows cfg detectors)
                    else take n hs ≫= hit_rows cfg detectors))%nat.
Proof.
  revert st. induction hs as [|h hs IH]; intros st Hinv.
  - exists 0%nat. simpl. destruct (dedupe cfg); simpl; rewrite app_nil_r.
    all: repeat split; lia.
  - destruct (process_hit_rows cfg w detectors st h Hinv) as (Hr & Hp & Hd & Hinv').
    cbn zeta in Hr, Hp, Hd, Hinv'.
    assert (Hrun : run_hits cfg w detectors st (h :: hs)
              = match process_hit cfg w detectors st h with
                | Continue st' => run_hits cfg w detectors st' hs
                | Fatal st' => Fatal st'
                end) by done.
    rewrite Hrun. clear Hrun.
    destruct (process_hit cfg w detectors st h) as [st1|st1] eqn:Hph;
      cbn [outcome_state] in Hr, Hp, Hd, Hinv'.
    + destruct (IH st1 Hinv') as (n & Hn & Hle & Hall & Hrows & Hcount).
      exists (S n). change (take (S n) (h :: hs)) with (h :: take n hs).
      rewrite bind_cons, Hn, Hd, Hrows, Hcount, Hr, Hp.
      split; [lia|]. split; [simpl; lia|].
      split; [intros st'' Ho; simpl; f_equal; eauto|].
      destruct (dedupe cfg).
      * rewrite first_by_resume, fmap_app, length_app, <- app_assoc. split; [done | lia].
      * rewrite length_app, <- app_assoc. split; [done | lia].
    + exists 1%nat. change (take 1 (h :: hs)) with (h :: take 0 hs).
      rewrite take_0, bind_cons. cbn [outcome_state]. rewrite Hd, Hr, Hp.
      change ([] ≫= hit_rows cfg detectors) with (@nil (list N * list N * list N * list N)).
      rewrite app_nil_r. split; [lia|]. split; [simpl; lia|]. split; [done|]. done.
Qed.

(** ** The update of a document *)

Lemma first_seen_snoc (l : list (list N)) (x : list N) :
  first_seen (l ++ [x]) = first_seen l ++ (if decide (x ∈ l) then [] else [x]).
Proof.
  unfold first_seen. rewrite first_by_snoc. rewrite list_fmap_id, app_nil_r. done.
Qed.

Lemma elem_of_first_seen (l : list (list N)) (x : list N) :
  x ∈ first_seen l <-> x ∈ l.
Proof.
  unfold first_seen. pose proof (first_by_keys id [] l x) as Hk.
  rewrite !list_fmap_id in Hk. rewrite Hk, elem_of_nil. tauto.
Qed.

Lemma field_values_snoc (cfg : Config) (f : list N) (l : list (list N * list N))
    (p : list N * list N) :
  field_values cfg f (l ++ [p])
  = field_values cfg f l
    ++ (if decide (target_field p.1 (fmap cfg) (field_prefix cfg) = f) then [p.2] else []).
Proof.
  unfold field_values. rewrite filter_app, fmap_app. f_equal.
  rewrite filter_cons, filter_nil. by case_decide.
Qed.

(** The invariant of the grouping loop. *)
Lemma group_fields_lookup (cfg : Config) (pairs : list (list N * list N)) (f : list N) :
  group_fields cfg pairs !! f
  = if decide (field_values cfg f pairs = []) then None
    else Some (first_seen (field_values cfg f pairs)).
Proof.
  revert f. induction pairs as [|p l IH] using rev_ind; intros f.
  - unfold group_fields. simpl. by rewrite lookup_empty.
  - unfold group_fields in *. rewrite foldl_app. simpl.
    set (G := foldl (group_step cfg) ∅ l) in *.
    rewrite field_values_snoc. unfold group_step.
    set (f0 := target_field p.1 (fmap cfg) (field_prefix cfg)).
    pose proof (IH f0) as H0. pose proof (IH f) as Hf.
    destruct (decide (field_values cfg f0 l = [])) as [He|Hne].
    + rewrite H0. rewrite lookup_insert_eq. simpl.
      destruct (decide (f0 = f)) as [<-|Hff].
      * rewrite lookup_insert_eq, He. simpl. done.
      * rewrite !lookup_insert_ne by done. rewrite Hf, app_nil_r. done.
    + rewrite H0. simpl. rewrite H0. simpl.
      destruct (decide (p.2 ∈ first_seen (field_values cfg f0 l))) as [Hin|Hout].
      * destruct (decide (f0 = f)) as [<-|Hff].
        -- rewrite H0. rewrite first_seen_snoc.
           rewrite (decide_True (P := p.2 ∈ field_values cfg f0 l))
             by by apply elem_of_first_seen.
           rewrite app_nil_r.
           rewrite (decide_False (P := field_values cfg f0 l ++ [p.2] = []));
             [done | by destruct (field_values cfg f0 l)].
        -- rewrite Hf, app_nil_r. done.
      * destruct (decide (f0 = f)) as [<-|Hff].
        -- rewrite lookup_insert_eq, first_seen_snoc.
           rewrite (decide_False (P := p.2 ∈ field_values cfg f0 l))
             by by rewrite <- elem_of_first_seen.
           rewrite (decide_False (P := field_values cfg f0 l ++ [p.2] = []));
             [done | by destruct (field_values cfg f0 l)].
        -- rewrite lookup_insert_ne by done. rewrite Hf, app_nil_r. done.
Qed.

Lemma group_fields_nonempty (cfg : Config) (pairs : list (list N * list N)) :
  pairs <> [] -> group_fields cfg pairs <> ∅.
Proof.
  intros Hne He. destruct pairs as [|p l]; [done|].
  pose proof (group_fields_lookup cfg (p :: l) (target_field p.1 (fmap cfg) (field_prefix cfg))) as Hl.
  rewrite He, lookup_empty in Hl.
  destruct (decide (field_values cfg _ (p :: l) = [])) as [Hv|Hv]; [|done].
  unfold field_values in Hv. rewrite filter_cons_True in Hv by done. done.
Qed.

Lemma hit_pairs_text (cfg : Config) (detectors : list Detector) (h : Hit) :
  hit_pairs cfg detectors h <> [] ->
  str_truthy (get_text_from_source (default [] (hit_source h)) (content_field cfg)
                (alt_content_field cfg)) = true.
Proof.
  unfold hit_pairs, extract_from_text. by destruct (str_truthy _).
Qed.


(** C4, as the code has it. For a document with updates enabled, a
    non-empty [_id] and at least one finding, the turn of the loop queues
    exactly one update action, the header and the body with a map [grouped],
    and counts one update. A field of [grouped] is a target field of some
    finding, and its value is the list of the values found for that field
    without repetitions, in first-seen order. For a document with no
    finding, without [_id] or with an empty one, and for every document when
    the updates are off, the turn ends normally and queues nothing: the
    buffer, the requests sent and the count of updates are unchanged. *)
Theorem update_groups_by_field (cfg : Config) (w : World)
    (detectors : list Detector) (st : State) (h : Hit) :
  let pairs := hit_pairs cfg detectors h in
  let st' := outcome_state (process_hit cfg w detectors st h) in
  (forall _id,
     apply_updates cfg = true ->
     hit_id h = Some _id -> _id <> [] ->
     pairs <> [] ->
     exists grouped,
       all_lines st'
       = all_lines st ++ [Header (index cfg) _id 3; Body (lit "painless") update_script grouped]
       /\ updates_count st' = S (updates_count st)
       /\ forall f,
            grouped !! f
            = if decide (field_values cfg f pairs = []) then None
              else Some (first_seen (field_values cfg f pairs)))
  /\ (pairs = [] \/ hit_id h = None \/ hit_id h = Some [] \/ apply_updates cfg = false ->
      process_hit cfg w detectors st h = Continue st'
      /\ all_lines st' = all_lines st
      /\ bulk_lines st' = bulk_lines st /\ bulk_calls st' = bulk_calls st
      /\ updates_count st' = updates_count st).
Proof.
  cbn zeta. split.
  { intros _id Hup Hid Hne Hpairs.
    exists (group_fields cfg (hit_pairs cfg detectors h)).
    split; [|split; [|apply group_fields_lookup]].
    all: unfold process_hit; fold (hit_pairs cfg detectors h).
    all: rewrite (hit_pairs_text cfg detectors h Hpairs), Hid, Hup; simpl.
    all: set (path := get_path_virtual _ _).
    all: set (st1 := write_csv cfg path _id (count_doc st) (hit_pairs cfg detectors h)).
    all: destruct (write_csv_keeps cfg path _id (count_doc st) (hit_pairs cfg detectors h))
           as (_ & Hbl & Huc & Hbc & _); fold st1 in Hbl, Huc, Hbc; simpl in Hbl, Huc, Hbc.
    all: pose proof (group_fields_nonempty cfg _ Hpairs) as Hg.
    all: destruct (hit_pairs cfg detectors h) as [|p0 ps] eqn:Hhp; [done|].
    all: rewrite bool_decide_true by done.
    all: assert (str_truthy _id = true) as -> by (by destruct _id).
    all: simpl.
    all: set (st2 := queue_update _ st1).
    all: assert (Hal : all_lines st2 = all_lines st
           ++ [Header (index cfg) _id 3;
               Body (lit "painless") update_script (group_fields cfg (p0 :: ps))])
         by (unfold all_lines; simpl; rewrite Hbl, Hbc; by rewrite app_assoc).
    all: assert (Hu2 : updates_count st2 = S (updates_count st)) by (simpl; by rewrite Huc).
    all: destruct (bulk_size cfg <=? _); simpl; [|done].
    all: destruct (flush_bulk_keeps w st2) as (_ & _ & _ & _ & Hu & Ha).
    - by rewrite Ha.
    - by rewrite Hu. }
  intros Hnone. unfold process_hit. fold (hit_pairs cfg detectors h).
  destruct (str_truthy (get_text_from_source _ _ _)); cbn [negb]; [|done].
  set (path := get_path_virtual _ _). set (_id := default [] (hit_id h)).
  set (st1 := write_csv cfg path _id (count_doc st) (hit_pairs cfg detectors h)).
  destruct (write_csv_keeps cfg path _id (count_doc st) (hit_pairs cfg detectors h))
    as (_ & Hbl & Huc & Hbc & _).
  fold st1 in Hbl, Huc, Hbc. simpl in Hbl, Huc, Hbc.
  assert (Hst1 : all_lines st1 = all_lines st /\ bulk_lines st1 = bulk_lines st
                 /\ bulk_calls st1 = bulk_calls st
                 /\ updates_count st1 = updates_count st).
  { unfold all_lines. by rewrite Hbl, Hbc, Huc. }
  clearbody st1.
  destruct (apply_updates cfg) eqn:Hup; cbn [andb]; [|done].
  destruct (hit_pairs cfg detectors h) as [|p0 ps] eqn:Hhp; [done|].
  destruct (bool_decide _); [|done].
  assert (_id = []) as ->.
  { subst _id. by destruct Hnone as [?|[-> |[-> |?]]]. }
  done.
Qed.

(** ** More on the normalisation of separators *)

Lemma sep_subst_clean (c : N) :
  (sep_subst c ∉ NBSP_SET) /\ (sep_subst c ∉ UNICODE_DASHES).
Proof.
  assert (Hs : (SPACE ∉ NBSP_SET) /\ (SPACE ∉ UNICODE_DASHES))
    by (split; apply (bool_decide_unpack _); by vm_compute).
  assert (Hh : (HYPHEN ∉ NBSP_SET) /\ (HYPHEN ∉ UNICODE_DASHES))
    by (split; apply (bool_decide_unpack _); by vm_compute).
  unfold sep_subst. destruct (decide (c ∈ NBSP_SET)); [done|].
  destruct (decide (c ∈ UNICODE_DASHES)); done.
Qed.

(** What the collapse of the runs writes: a space, or a character of the
    text that is outside the class. *)
Lemma ws_pass_elements (b : bool) (s : list N) :
  Forall (fun c => c = SPACE \/ (c ∈ s /\ ws_class c = false)) (ws_pass b s).
Proof.
  revert b. induction s as [|c s IH]; intros b; simpl; [constructor|].
  assert (Hrest : forall b', Forall (fun x => x = SPACE \/ (x ∈ c :: s /\ ws_class x = false))
                               (ws_pass b' s)).
  { intros b'. eapply Forall_impl; [apply IH|]. intros x [->|[Hx Hw]]; [by left|].
    right. split; [|done]. apply elem_of_cons. by right. }
  destruct (ws_class c) eqn:Hc.
  - destruct b; [apply Hrest|]. constructor; [by left | apply Hrest].
  - constructor; [|apply Hrest]. right. split; [|done]. apply elem_of_cons. by left.
Qed.

Lemma ws_pass_true_head (s r : list N) (x : N) :
  ws_pass true s = x :: r -> ws_class x = false.
Proof.
  induction s as [|c s IH]; simpl; [done|].
  destruct (ws_class c) eqn:Hc; [apply IH|]. by intros [= <- _].
Qed.

Lemma ws_pass_no_double (b : bool) (s a r : list N) (x y : N) :
  ws_pass b s = a ++ x :: y :: r -> ws_class x = true -> ws_class y = true -> False.
Proof.
  revert b a. induction s as [|c s IH]; intros b a Heq Hx Hy; simpl in Heq.
  - by destruct a.
  - destruct (ws_class c) eqn:Hc.
    + destruct b; [by eapply IH|].
      destruct a as [|a0 a]; simpl in Heq.
      * injection Heq as _ Heq. apply ws_pass_true_head in Heq. congruence.
      * injection Heq as _ Heq. by eapply IH.
    + destruct a as [|a0 a]; simpl in Heq.
      * injection Heq as -> _. congruence.
      * injection Heq as _ Heq. by eapply IH.
Qed.

Lemma ws_pass_length (b : bool) (s : list N) :
  (length (ws_pass b s) <= length s)%nat.
Proof.
  revert b. induction s as [|c s IH]; intros b; simpl; [done|].
  destruct (ws_class c); [destruct b|]; simpl.
  - pose proof (IH true). lia.
  - pose proof (IH true). lia.
  - pose proof (IH false). lia.
Qed.

(** X1. [normalize_separators] brings a text to a normal form. The text
    it returns holds no character of [NBSP_SET], no dash of
    [UNICODE_DASHES], and of the class of white space (space, tab, carriage
    return, form feed, vertical tab) only the space; it never holds two
    spaces in a row; it is not longer than the text given; and normalising
    it again changes nothing. *)
Theorem normalize_separators_normal_form (s : list N) :
  Forall (fun c => (c ∉ NBSP_SET) /\ (c ∉ UNICODE_DASHES) /\ (c ∈ WS_CLASS -> c = SPACE))
    (normalize_separators s)
  /\ (forall a b, normalize_separators s <> a ++ SPACE :: SPACE :: b)
  /\ (length (normalize_separators s) <= length s)%nat
  /\ normalize_separators (normalize_separators s) = normalize_separators s.
Proof.
  split; [|split; [|split]]; [| | |apply normalize_separators_idempotent].
  all: rewrite normalize_separators_fmap.
  - eapply Forall_impl; [apply ws_pass_elements|]. intros c [->|[Hin Hw]].
    + split; [|split; [|done]]; apply (bool_decide_unpack _); by vm_compute.
    + apply list_elem_of_fmap in Hin as (c' & -> & _).
      destruct (sep_subst_clean c') as [H1 H2]. split; [done|]. split; [done|].
      intros Hc. unfold ws_class in Hw. apply bool_decide_eq_false in Hw. done.
  - intros a b Heq. by apply (ws_pass_no_double _ _ _ _ _ _ Heq).
  - pose proof (ws_pass_length false (sep_subst <$> s)) as Hl.
    by rewrite length_fmap in Hl.
Qed.

(** ** More on the folding of digits *)

Lemma digit_piece_length (c : N) : (length (concat (digit_piece c)) <= 1)%nat.
Proof.
  unfold digit_piece. destruct (isdigit c); [|simpl; lia].
  destruct (decimal c) as [v|]; [|simpl; lia].
  destruct ((0 <=? v) && (v <=? 9)); simpl; lia.
Qed.

Lemma unicode_digits_to_ascii_concat (a b : list N) :
  unicode_digits_to_ascii (a ++ b) = unicode_digits_to_ascii a ++ unicode_digits_to_ascii b.
Proof. unfold unicode_digits_to_ascii. by rewrite bind_app, concat_app. Qed.

(** X2. [unicode_digits_to_ascii] reads the characters one by one: the fold
    of a concatenation is the concatenation of the folds, and the fold is
    never longer than the text. *)
Theorem unicode_digits_to_ascii_app (a b : list N) :
  unicode_digits_to_ascii (a ++ b) = unicode_digits_to_ascii a ++ unicode_digits_to_ascii b
  /\ (length (unicode_digits_to_ascii a) <= length a)%nat.
Proof.
  split; [apply unicode_digits_to_ascii_concat|].
  unfold unicode_digits_to_ascii. induction a as [|c a IH]; [done|].
  rewrite bind_cons, concat_app, length_app. simpl.
  pose proof (digit_piece_length c). lia.
Qed.

Lemma unicode_digits_to_ascii_fixed `{!PyRuntimeLaws} (l : list N) :
  Forall is_ascii_digit l -> unicode_digits_to_ascii l = l.
Proof.
  intros Hl. rewrite unicode_digits_to_ascii_ascii.
  - induction Hl as [|c l Hc _ IH]; [done|]. rewrite filter_cons, IH.
    unfold is_ascii_digit in Hc. rewrite decide_True; [done|].
    apply andb_true_iff. split; apply N.leb_le; lia.
  - eapply Forall_impl; [exact Hl|]. unfold is_ascii_digit. intros c Hc. lia.
Qed.

Lemma unicode_digits_to_ascii_hyphen `{!PyRuntimeLaws} :
  unicode_digits_to_ascii [HYPHEN] = [].
Proof. rewrite unicode_digits_to_ascii_ascii; [done|]. repeat constructor. Qed.

(** X3. Folding the digits is idempotent, and the national-ID normalizer
    fixes its own values: a value it returns is returned unchanged when
    given back to it. *)
Theorem nas_norm_canonical `{!PyRuntimeLaws} (s v : list N) :
  unicode_digits_to_ascii (unicode_digits_to_ascii s) = unicode_digits_to_ascii s
  /\ (nas_norm s = Some v -> nas_norm v = Some v).
Proof.
  assert (Hd : Forall is_ascii_digit (unicode_digits_to_ascii s)).
  { rewrite unicode_digits_to_ascii_omap. apply omap_ascii_digit_Forall. }
  split; [by apply unicode_digits_to_ascii_fixed|].
  unfold nas_norm at 1. case_decide as Hlen; [done|]. intros [= <-].
  destruct (unicode_digits_to_ascii s)
    as [|d1 [|d2 [|d3 [|d4 [|d5 [|d6 [|d7 [|d8 [|d9 [|? ?]]]]]]]]]];
    simpl in Hlen; try (exfalso; apply Hlen; reflexivity); try lia.
  assert (Hfold : unicode_digits_to_ascii
                    ([d1; d2; d3] ++ [HYPHEN] ++ [d4; d5; d6] ++ [HYPHEN] ++ [d7; d8; d9])
                  = [d1; d2; d3; d4; d5; d6; d7; d8; d9]).
  { rewrite !unicode_digits_to_ascii_concat.
    rewrite unicode_digits_to_ascii_hyphen.
    rewrite !unicode_digits_to_ascii_fixed; [done|..].
    all: repeat (apply Forall_cons in Hd as [? Hd]).
    all: repeat first [apply Forall_nil_2 | apply Forall_cons_2; [assumption|]]. }
  assert (Hv : [d1; d2; d3; HYPHEN; d4; d5; d6; HYPHEN; d7; d8; d9]
               = [d1; d2; d3] ++ [HYPHEN] ++ [d4; d5; d6] ++ [HYPHEN] ++ [d7; d8; d9])
    by reflexivity.
  change (nas_norm [d1; d2; d3; HYPHEN; d4; d5; d6; HYPHEN; d7; d8; d9]
          = Some [d1; d2; d3; HYPHEN; d4; d5; d6; HYPHEN; d7; d8; d9]).
  unfold nas_norm. rewrite Hv, Hfold. reflexivity.
Qed.

Lemma omap_ws_pass {B : Type} (f : N -> option B) (b : bool) (s : list N) :
  (forall c, ws_class c = true -> f c = None) -> f SPACE = None ->
  omap f (ws_pass b s) = omap f s.
Proof.
  intros Hc Hs. revert b. induction s as [|c s IH]; intros b; [done|]. simpl.
  destruct (ws_class c) eqn:Hw.
  - rewrite (Hc c Hw). destruct b; simpl; rewrite ?Hs; apply IH.
  - simpl. by rewrite IH.
Qed.

Lemma omap_fmap_same {B : Type} (f : N -> option B) (g : N -> N) (s : list N) :
  (forall c, f (g c) = f c) -> omap f (g <$> s) = omap f s.
Proof.
  intros Hfg. induction s as [|c s IH]; [done|].
  rewrite fmap_cons. cbn [omap list_omap]. by rewrite Hfg, IH.
Qed.

Lemma ascii_digit_of_ws `{!PyRuntimeLaws} (c : N) :
  ws_class c = true -> ascii_digit_of c = None.
Proof.
  unfold ws_class, WS_CLASS. intros Hc%bool_decide_eq_true.
  rewrite ascii_digit_of_ascii.
  all: repeat (apply elem_of_cons in Hc as [->|Hc]; [done|]).
  all: by apply elem_of_nil in Hc.
Qed.

(** X4. When no character of [NBSP_SET] or [UNICODE_DASHES] is a decimal
    digit, normalising the separators does not change the digits of a text:
    the digits folded from the normalised text are those of the text, and
    the national-ID normalizer gives the same answer on both. *)
Theorem nas_norm_after_normalize `{!PyRuntimeLaws} (s : list N) :
  (forall c, c ∈ NBSP_SET ++ UNICODE_DASHES -> decimal c = None) ->
  unicode_digits_to_ascii (normalize_separators s) = unicode_digits_to_ascii s
  /\ nas_norm (normalize_separators s) = nas_norm s.
Proof.
  intros Hsep.
  assert (Hfold : unicode_digits_to_ascii (normalize_separators s)
                  = unicode_digits_to_ascii s).
  { rewrite !unicode_digits_to_ascii_omap, normalize_separators_fmap.
    rewrite omap_ws_pass; [|apply ascii_digit_of_ws|by rewrite ascii_digit_of_ascii].
    apply omap_fmap_same. intros c.
    unfold sep_subst. destruct (decide (c ∈ NBSP_SET)) as [Hn|Hn].
    - unfold ascii_digit_of at 2. rewrite (Hsep c) by (apply elem_of_app; by left).
      by rewrite ascii_digit_of_ascii.
    - destruct (decide (c ∈ UNICODE_DASHES)) as [Hd|Hd]; [|done].
      unfold ascii_digit_of at 2. rewrite (Hsep c) by (apply elem_of_app; by right).
      by rewrite ascii_digit_of_ascii. }
  split; [done|]. unfold nas_norm. by rewrite Hfold.
Qed.

(** ** The pattern of the national-ID detector *)

Lemma is_decimal_class (c : N) : is_decimal c = true -> nas_sep_class c = true.
Proof. unfold nas_sep_class. by intros ->. Qed.

Lemma class_run_le (limit : nat) (s : list N) :
  (class_run limit s <= limit)%nat /\ (class_run limit s <= length s)%nat.
Proof.
  revert s. induction limit as [|k IH]; intros [|c s]; simpl; try lia.
  destruct (nas_sep_class c); [|lia]. destruct (IH s). lia.
Qed.

Lemma class_run_Forall (limit : nat) (s : list N) :
  Forall (fun c => nas_sep_class c = true) (take (class_run limit s) s).
Proof.
  revert s. induction limit as [|k IH]; intros [|c s]; simpl; try constructor.
  destruct (nas_sep_class c) eqn:Hc; simpl; [|constructor].
  constructor; [done | apply IH].
Qed.

Lemma class_run_full (limit : nat) (s : list N) :
  Forall (fun c => nas_sep_class c = true) s ->
  class_run limit s = (limit `min` length s)%nat.
Proof.
  intros Hs. revert limit. induction Hs as [|c s Hc _ IH]; intros [|k]; simpl; try done.
  by rewrite Hc, IH.
Qed.

Lemma backtrack_Some (lo n : nat) (s : list N) (j : nat) :
  backtrack lo n s = Some j ->
  (lo <= j <= lo + n)%nat /\ is_decimal <$> s !! j = Some true.
Proof.
  induction n as [|n IH]; simpl; case_bool_decide as Hd.
  - intros [= <-]. split; [lia | done].
  - done.
  - intros [= <-]. split; [lia | done].
  - intros Hj. destruct (IH Hj). split; [lia | done].
Qed.

Lemma backtrack_found (lo n : nat) (s : list N) (j : nat) :
  (lo <= j <= lo + n)%nat -> is_decimal <$> s !! j = Some true ->
  (forall j', (j < j' <= lo + n)%nat -> is_decimal <$> s !! j' <> Some true) ->
  backtrack lo n s = Some j.
Proof.
  induction n as [|n IH]; intros Hj Hd Hmax; simpl.
  - replace j with lo in * by lia. by rewrite bool_decide_eq_true_2.
  - destruct (decide (j = lo + S n)%nat) as [->|Hne].
    + by rewrite bool_decide_eq_true_2.
    + rewrite bool_decide_eq_false_2 by (apply Hmax; lia).
      apply IH; [lia | done |]. intros j' Hj'. apply Hmax. lia.
Qed.

Lemma nas_alt2_digits (s : list N) (n : nat) :
  nas_alt2 s = Some n ->
  n = 9%nat /\ (9 <= length s)%nat
  /\ forall i, (i < 9)%nat -> exists d, s !! i = Some d /\ is_decimal d = true.
Proof.
  unfold nas_alt2. destruct (bool_decide _ && _) eqn:H2; [|done]. intros [= <-].
  apply andb_true_iff in H2 as [Hl Hf]. apply bool_decide_eq_true in Hl.
  rewrite length_take in Hl. split; [done|]. split; [lia|].
  intros i Hi. destruct (lookup_lt_is_Some_2 (take 9 s) i) as [d Hd];
    [rewrite length_take; lia|].
  exists d. split; [by rewrite lookup_take_lt in Hd by lia|].
  rewrite forallb_forall in Hf. apply Hf. apply list_elem_of_In.
  by eapply list_elem_of_lookup_2.
Qed.

(** What a match at the start of [s] looks like. *)
Lemma nas_match_at_shape (s : list N) (n : nat) :
  nas_match_at s = Some n ->
  (9 <= n <= 26)%nat /\ (n <= length s)%nat
  /\ is_decimal <$> s !! 0%nat = Some true
  /\ is_decimal <$> s !! (n - 1)%nat = Some true
  /\ Forall (fun c => nas_sep_class c = true) (take n s).
Proof.
  unfold nas_match_at. destruct (nas_alt1 s) as [n1|] eqn:H1.
  - intros [= <-]. unfold nas_alt1 in H1. destruct s as [|c s]; [done|].
    destruct (is_decimal c) eqn:Hc; [|done]. cbn zeta in H1.
    case_decide as Hk; [|done].
    destruct (backtrack 7 _ s) as [j|] eqn:Hb; [|done]. injection H1 as <-.
    apply backtrack_Some in Hb as [Hj Hd].
    destruct (class_run_le 24 s) as [H24 Hlen].
    assert (Hjs : (j < length s)%nat).
    { destruct (s !! j) eqn:Hl; [|done]. by apply lookup_lt_Some in Hl. }
    split; [lia|]. split; [simpl; lia|]. split; [simpl; by rewrite Hc|].
    split; [by replace (S (S j) - 1)%nat with (S j) by lia|].
    change (take (S (S j)) (c :: s)) with (c :: take (S j) s).
    constructor; [by apply is_decimal_class|].
    destruct (s !! j) as [d|] eqn:Hl; [|done].
    rewrite (take_S_r _ _ _ Hl). apply Forall_app. split.
    + pose proof (class_run_Forall 24 s) as Hf.
      replace (take j s) with (take j (take (class_run 24 s) s))
        by (rewrite take_take; f_equal; lia). by apply Forall_take.
    + constructor; [|constructor]. apply is_decimal_class.
      simpl in Hd. by injection Hd.
  - intros (-> & Hl & Hat)%nas_alt2_digits.
    split; [lia|]. split; [lia|].
    assert (Hat' : forall i, (i < 9)%nat -> is_decimal <$> s !! i = Some true).
    { intros i Hi. destruct (Hat i Hi) as (d & -> & Hd). simpl. by rewrite Hd. }
    split; [apply Hat'; lia|]. split; [apply Hat'; lia|].
    apply Forall_lookup. intros i c Hc.
    assert (Hi : (i < 9)%nat).
    { apply lookup_lt_Some in Hc. rewrite length_take in Hc. lia. }
    rewrite lookup_take_lt in Hc by lia.
    destruct (Hat i Hi) as (d & Hd & Hdd). apply is_decimal_class. congruence.
Qed.

(** [finditer] resumes after the characters of the last match. *)
Lemma nas_finditer_from_skip (skip : nat) (s : list N) :
  nas_finditer_from skip s = nas_finditer_from 0 (drop skip s).
Proof.
  revert skip. induction s as [|c s IH]; intros [|k]; try done.
  simpl. apply IH.
Qed.

Lemma nas_pattern_cons (c : N) (s : list N) :
  nas_pattern (c :: s)
  = match nas_match_at (c :: s) with
    | Some n => take n (c :: s) :: nas_pattern (drop n (c :: s))
    | None => nas_pattern s
    end.
Proof.
  unfold nas_pattern. cbn [nas_finditer_from].
  destruct (nas_match_at (c :: s)) as [n|] eqn:Hm; [|done].
  rewrite nas_finditer_from_skip. apply nas_match_at_shape in Hm as [Hn _].
  destruct n as [|n]; [lia|]. simpl. by rewrite Nat.sub_0_r.
Qed.

(** Induction on the length of the text. *)
Lemma text_length_ind (P : list N -> Prop) :
  (forall s, (forall s', (length s' < length s)%nat -> P s') -> P s) ->
  forall s, P s.
Proof.
  intros Hstep s. remember (length s) as len eqn:Hlen. revert s Hlen.
  induction (lt_wf len) as [len _ IH]. intros s ->.
  apply Hstep. intros s' Hs'. by apply (IH (length s')).
Qed.

(** The matches stand in the text one after the other, with the unmatched
    characters between them. *)
Lemma nas_pattern_segments (s : list N) :
  exists gaps rest,
    length gaps = length (nas_pattern s)
    /\ s = concat (zip_with app gaps (nas_pattern s)) ++ rest.
Proof.
  induction s as [s IH] using text_length_ind.
  destruct s as [|c s]; [by exists [], []|].
  rewrite nas_pattern_cons. destruct (nas_match_at (c :: s)) as [n|] eqn:Hm.
  - apply nas_match_at_shape in Hm as (Hn & Hlen & _).
    destruct (IH (drop n (c :: s))) as (gaps & rest & Hg & Hs).
    { rewrite length_drop. simpl in *. lia. }
    exists ([] :: gaps), rest. split; [simpl; by rewrite Hg|].
    cbn [zip_with concat]. rewrite <- app_assoc, <- Hs. simpl.
    by rewrite take_drop.
  - destruct (IH s) as (gaps & rest & Hg & Hs); [simpl; lia|].
    destruct gaps as [|g gaps].
    + destruct (nas_pattern s); [|done]. exists [], (c :: rest). split; [done|].
      simpl in *. by rewrite Hs.
    + destruct (nas_pattern s) as [|m ms]; [done|].
      exists ((c :: g) :: gaps), rest. split; [done|].
      simpl in *. by rewrite Hs at 1.
Qed.

(** X5. A match of the pattern of the national-ID detector has 9 to 26
    characters, all of them decimal digits, hyphens, white space,
    underscores, dots or slashes, the first and the last a decimal digit;
    and the matches are disjoint pieces of the text, in the order of the
    text. *)
Theorem nas_pattern_matches (text : list N) :
  Forall (fun m =>
            (9 <= length m <= 26)%nat
            /\ Forall (fun c => nas_sep_class c = true) m
            /\ is_decimal <$> head m = Some true
            /\ is_decimal <$> last m = Some true)
    (nas_pattern text)
  /\ exists gaps rest,
       length gaps = length (nas_pattern text)
       /\ text = concat (zip_with app gaps (nas_pattern text)) ++ rest.
Proof.
  split; [|apply nas_pattern_segments].
  induction text as [text IH] using text_length_ind.
  destruct text as [|c s]; [constructor|].
  rewrite nas_pattern_cons. destruct (nas_match_at (c :: s)) as [n|] eqn:Hm.
  - apply nas_match_at_shape in Hm as (Hn & Hlen & H0 & Hlast & Hall).
    constructor.
    + rewrite length_take. split; [lia|]. split; [done|].
      split.
      * destruct n; [lia|]. done.
      * rewrite last_lookup, length_take.
        replace (Init.Nat.pred (n `min` length (c :: s))) with (n - 1)%nat by lia.
        rewrite lookup_take_lt by lia. done.
    + apply IH. rewrite length_drop. simpl in *. lia.
  - apply IH. simpl; lia.
Qed.

(** X6. The pattern finds a text that has the shape as a whole: when the
    text has 9 to 26 characters of the class and starts and ends with a
    decimal digit, the only match is the text itself, so the detector
    yields the normalised value of the whole text, or nothing when the
    text does not hold nine digits. *)
Theorem nas_pattern_whole (s : list N) :
  (9 <= length s <= 26)%nat ->
  Forall (fun c => nas_sep_class c = true) s ->
  is_decimal <$> head s = Some true ->
  is_decimal <$> last s = Some true ->
  nas_pattern s = [s]
  /\ find make_nas_detector s = match nas_norm s with Some v => [v] | None => [] end.
Proof.
  intros Hlen Hall Hhead Hlast.
  assert (Hpat : nas_pattern s = [s]).
  { destruct s as [|c s]; [simpl in Hlen; lia|].
    rewrite nas_pattern_cons.
    assert (Hm : nas_match_at (c :: s) = Some (length (c :: s))).
    { unfold nas_match_at, nas_alt1. simpl in Hhead.
      assert (Hc : is_decimal c = true) by congruence. rewrite Hc. cbn zeta.
      apply Forall_cons in Hall as [_ Hs].
      rewrite (class_run_full 24 s Hs). simpl in Hlen.
      rewrite decide_True by lia.
      rewrite (backtrack_found 7 _ s (length s - 1)).
      - simpl. do 2 f_equal. lia.
      - lia.
      - rewrite last_lookup in Hlast. simpl in Hlast.
        destruct s as [|c' s]; [simpl in Hlen; lia|].
        simpl in *. by rewrite Nat.sub_0_r.
      - intros j' Hj'. rewrite lookup_ge_None_2 by lia. done. }
    rewrite Hm. rewrite firstn_all, drop_all. done. }
  split; [done|]. unfold find. simpl. rewrite Hpat. simpl.
  destruct (nas_norm s) as [v|] eqn:Hv; [|done].
  by rewrite (nas_norm_truthy s v Hv).
Qed.

(** X7. The second alternative of the pattern, nine decimal digits, never
    decides a match: where nine digits stand, the first alternative matches
    already. *)
Theorem nas_second_alternative_unused (s : list N) :
  (is_Some (nas_alt2 s) -> is_Some (nas_alt1 s))
  /\ nas_match_at s = nas_alt1 s.
Proof.
  assert (H : nas_alt2 s <> None -> is_Some (nas_alt1 s)).
  { destruct (nas_alt2 s) as [n2|] eqn:H2; [|done]. intros _.
    apply nas_alt2_digits in H2 as (_ & Hl & Hat).
    destruct s as [|c s]; [simpl in Hl; lia|].
    unfold nas_alt1. destruct (Hat 0%nat) as (d & [= <-] & ->); [lia|]. cbn zeta.
    assert (Hrun : (8 <= class_run 24 s)%nat).
    { assert (Hc : forall i, (i < 8)%nat -> exists d, s !! i = Some d /\ nas_sep_class d = true).
      { intros i Hi. destruct (Hat (S i)) as (d & Hd & Hdd); [lia|].
        exists d. split; [done | by apply is_decimal_class]. }
      clear -Hc.
      assert (Hgen : forall m k (l : list N),
                (forall i, (i < m)%nat -> exists d, l !! i = Some d /\ nas_sep_class d = true) ->
                (m <= k)%nat -> (m <= class_run k l)%nat).
      { induction m as [|m IH]; intros k l Hl Hk; [lia|].
        destruct k as [|k]; [lia|]. destruct l as [|x l].
        - destruct (Hl 0%nat) as (? & ? & _); [lia | done].
        - simpl. destruct (Hl 0%nat) as (? & [= <-] & ->); [lia|].
          apply le_n_S, IH; [|lia]. intros i Hi. apply (Hl (S i)). lia. }
      apply Hgen; [done | lia]. }
    rewrite decide_True by lia.
    destruct (backtrack 7 (class_run 24 s - 7) s) as [j|] eqn:Hb; [by eexists|].
    exfalso. destruct (Hat 8%nat) as (d & Hd & Hdd); [lia|]. simpl in Hd.
    assert (Hex : exists j, (7 <= j <= 7 + (class_run 24 s - 7))%nat
                            /\ is_decimal <$> s !! j = Some true).
    { exists 7%nat. split; [lia|]. by rewrite Hd; simpl; rewrite Hdd. }
    clear -Hb Hex. revert Hb Hex. generalize (class_run 24 s - 7)%nat as m.
    induction m as [|m IH]; simpl; case_bool_decide as Hn; try done.
    - intros _ (j & Hj & Hd). by replace j with 7%nat in * by lia.
    - intros Hb (j & Hj & Hd). destruct (decide (j = 7 + S m)%nat) as [->|]; [done|].
      apply IH; [done|]. exists j. split; [lia | done]. }
  split.
  - intros [n Hn]. apply H. by rewrite Hn.
  - unfold nas_match_at. destruct (nas_alt1 s) eqn:H1; [done|].
    destruct (nas_alt2 s) eqn:H2; [|done].
    destruct H as [? ?]; [done | done].
Qed.

(** ** What a detector yields *)

Lemma unicode_digits_to_ascii_Forall (s : list N) :
  Forall is_ascii_digit (unicode_digits_to_ascii s).
Proof.
  unfold unicode_digits_to_ascii. induction s as [|c s IH]; [constructor|].
  rewrite bind_cons, concat_app. apply Forall_app. split; [|done].
  unfold digit_piece. destruct (isdigit c); [|constructor].
  destruct (decimal c) as [v|]; [|constructor].
  destruct ((0 <=? v) && (v <=? 9)) eqn:Hv; [|constructor].
  apply andb_true_iff in Hv as [H0 H9]. apply Z.leb_le in H0, H9.
  simpl. constructor; [|constructor]. unfold is_ascii_digit, str_of_digit. lia.
Qed.

Lemma nas_norm_local_nas_norm (s : list N) : nas_norm_local s = nas_norm s.
Proof. unfold nas_norm_local, nas_norm. cbn zeta. by repeat case_decide. Qed.

Lemma nas_norm_shape (s v : list N) :
  nas_norm s = Some v ->
  exists d1 d2 d3 d4 d5 d6 d7 d8 d9,
    unicode_digits_to_ascii s = [d1; d2; d3; d4; d5; d6; d7; d8; d9]
    /\ v = [d1; d2; d3; HYPHEN; d4; d5; d6; HYPHEN; d7; d8; d9]
    /\ Forall is_ascii_digit [d1; d2; d3; d4; d5; d6; d7; d8; d9].
Proof.
  pose proof (unicode_digits_to_ascii_Forall s) as Hd.
  unfold nas_norm. case_decide as Hlen; [done|]. intros [= <-].
  destruct (unicode_digits_to_ascii s)
    as [|d1 [|d2 [|d3 [|d4 [|d5 [|d6 [|d7 [|d8 [|d9 [|? ?]]]]]]]]]];
    simpl in Hlen; try (exfalso; apply Hlen; reflexivity); try lia.
  by exists d1, d2, d3, d4, d5, d6, d7, d8, d9.
Qed.

(** X8. [Detector.find] yields, in the order of the matches, the value of
    each match that has one and whose value is not empty: the match itself
    without a normalizer, what the normalizer returns otherwise. It never
    yields an empty string, and never more values than there are matches. *)
Theorem find_values (d : Detector) (text : list N) :
  find d text
  = filter (fun v => v <> [])
      (omap (fun raw => match normalizer d with Some f => f raw | None => Some raw end)
         (pattern d text))
  /\ Forall (fun v => v <> []) (find d text)
  /\ (length (find d text) <= length (pattern d text))%nat.
Proof.
  unfold find. induction (pattern d text) as [|raw l (IH1 & IH2 & IH3)].
  - split; [done|]. split; [constructor | done].
  - rewrite bind_cons. cbn [omap list_omap].
    destruct (match normalizer d with Some f => f raw | None => Some raw end) as [v|].
    + destruct v as [|c v].
      * rewrite filter_cons_False by (by intros ?). simpl in *.
        repeat split; [done | done | lia].
      * rewrite filter_cons_True by done. simpl in *.
        split; [by rewrite <- IH1|]. split; [by constructor | lia].
    + simpl. repeat split; [done | done | lia].
Qed.

(** X9. A value that a detector with the national-ID normalizer yields,
    the built-in one or the one of a YAML entry, comes from a match of its
    pattern that holds exactly nine digits, and is these digits as ASCII
    digits, written [ddd-ddd-ddd]. *)
Theorem nas_values_shape (d : Detector) (text v : list N) :
  normalizer d = Some nas_norm \/ normalizer d = Some nas_norm_local ->
  v ∈ find d text ->
  exists raw d1 d2 d3 d4 d5 d6 d7 d8 d9,
    raw ∈ pattern d text
    /\ unicode_digits_to_ascii raw = [d1; d2; d3; d4; d5; d6; d7; d8; d9]
    /\ v = [d1; d2; d3; HYPHEN; d4; d5; d6; HYPHEN; d7; d8; d9]
    /\ Forall is_ascii_digit [d1; d2; d3; d4; d5; d6; d7; d8; d9].
Proof.
  intros Hn Hv. unfold find in Hv. apply list_elem_of_bind in Hv as (raw & Hv & Hraw).
  assert (Hval : match normalizer d with Some f => f raw | None => Some raw end
                 = nas_norm raw).
  { destruct Hn as [-> | ->]; [done | apply nas_norm_local_nas_norm]. }
  rewrite Hval in Hv. destruct (nas_norm raw) as [v'|] eqn:Hnorm;
    [|by apply elem_of_nil in Hv].
  rewrite (nas_norm_truthy raw v' Hnorm) in Hv.
  apply list_elem_of_singleton in Hv as ->.
  destruct (nas_norm_shape raw v' Hnorm)
    as (d1 & d2 & d3 & d4 & d5 & d6 & d7 & d8 & d9 & Hd & -> & Hall).
  by exists raw, d1, d2, d3, d4, d5, d6, d7, d8, d9.
Qed.

(** ** Splitting and joining *)

Lemma split_on_nonempty (sep : N) (s : list N) : split_on sep s <> [].
Proof.
  destruct s as [|c s]; [done|]. simpl. case_decide; [done|].
  by destruct (split_on sep s).
Qed.

Lemma split_on_app (sep : N) (a b : list N) :
  sep ∉ a -> split_on sep (a ++ sep :: b) = a :: split_on sep b.
Proof.
  induction a as [|c a IH]; intros Ha; simpl.
  - by rewrite decide_True.
  - apply not_elem_of_cons in Ha as [Hc Ha]. rewrite decide_False by done.
    by rewrite IH.
Qed.

Lemma split_on_whole (sep : N) (a : list N) : sep ∉ a -> split_on sep a = [a].
Proof.
  induction a as [|c a IH]; intros Ha; simpl; [done|].
  apply not_elem_of_cons in Ha as [Hc Ha]. rewrite decide_False by done.
  by rewrite IH.
Qed.

Lemma split_on_join (sep : N) (ks : list (list N)) :
  ks <> [] -> Forall (fun k => sep ∉ k) ks ->
  split_on sep (join [sep] ks) = ks.
Proof.
  intros Hne Hks. induction Hks as [|k ks Hk Hks IH]; [done|].
  destruct ks as [|k' ks].
  - simpl. by apply split_on_whole.
  - change (join [sep] (k :: k' :: ks)) with (k ++ sep :: join [sep] (k' :: ks)).
    rewrite split_on_app by done. by rewrite IH.
Qed.

(** X10. [get_path_virtual] on the dotted path of the keys [ks], none of
    which holds a dot, follows the keys through the nested objects: it
    returns the text of the value found at the end, and the empty string
    as soon as a key is missing or the value reached is not an object. *)
Theorem get_path_virtual_keys (src : list (list N * value)) (ks : list (list N)) :
  ks <> [] -> Forall (fun k => DOT ∉ k) ks ->
  get_path_virtual src (join [DOT] ks)
  = match lookup_path (VDict src) ks with
    | Some v => py_str v
    | None => []
    end.
Proof.
  intros Hne Hks. unfold get_path_virtual.
  by rewrite (split_on_join DOT ks Hne Hks), path_walk_lookup.
Qed.

(** ** Extraction from a text *)

Lemma normalize_separators_truthy (s : list N) :
  str_truthy (normalize_separators s) = str_truthy s.
Proof.
  rewrite normalize_separators_fmap. destruct s as [|c s]; [done|].
  rewrite fmap_cons. simpl. by destruct (ws_class (sep_subst c)).
Qed.

(** X11. [extract_from_text] finds nothing in the empty text; it walks the
    detectors in order, so the findings of a list of detectors are those of
    its first part followed by those of the rest; and a pair is found when
    the text is not empty and the pair is the name of one of the detectors
    with a value that this detector finds in the normalised text. *)
Theorem extract_from_text_findings (text : list N) (ds1 ds2 : list Detector) :
  extract_from_text [] ds1 = []
  /\ extract_from_text text (ds1 ++ ds2)
     = extract_from_text text ds1 ++ extract_from_text text ds2
  /\ forall nm v,
       (nm, v) ∈ extract_from_text text ds1
       <-> text <> []
           /\ exists det, det ∈ ds1 /\ nm = name det
                          /\ v ∈ find det (normalize_separators text).
Proof.
  split; [done|]. split.
  - unfold extract_from_text. destruct (str_truthy text); [|done].
    cbn zeta. by rewrite bind_app.
  - intros nm v. unfold extract_from_text. destruct text as [|c text].
    + simpl. split; [by intros ?%elem_of_nil | by intros [? _]].
    + cbn [str_truthy]. cbn zeta. rewrite list_elem_of_bind. split.
      * intros (det & Hv & Hdet). apply list_elem_of_fmap in Hv as (v' & [= -> ->] & Hv).
        split; [done|]. by exists det.
      * intros (_ & det & Hdet & -> & Hv). exists det. split; [|done].
        apply list_elem_of_fmap. by exists v.
Qed.

(** X12. Extraction does not depend on whether the separators of the text
    were normalised before: the findings in a normalised text are those in
    the text. *)
Theorem extract_from_text_normalized (text : list N) (detectors : list Detector) :
  extract_from_text (normalize_separators text) detectors
  = extract_from_text text detectors.
Proof.
  unfold extract_from_text.
  by rewrite normalize_separators_truthy, normalize_separators_idempotent.
Qed.

(** ** The target field *)

Lemma replace_char_clean (old new : N) (s : list N) :
  old <> new -> old ∉ replace_char old new s.
Proof.
  intros Hne. unfold replace_char. intros (c & Hc & _)%list_elem_of_fmap.
  by case_decide; subst.
Qed.

(** X13. An entry of the field map decides the target field, whatever the
    prefix. Without one, the target field is [nas_norm] or the prefix
    followed by the lowered name with its spaces replaced, so it holds a
    space only if the prefix does; and a name that lowers to [nas] gets
    [nas_norm] without the prefix. *)
Theorem target_field_cases (detector_name prefix : list N) (fmap : gmap (list N) (list N)) :
  (forall f, fmap !! detector_name = Some f ->
     target_field detector_name fmap prefix = f)
  /\ (fmap !! detector_name = None ->
      let field := replace_char SPACE UNDERSCORE (lower detector_name) in
      (target_field detector_name fmap prefix = lit "nas_norm"
       \/ target_field detector_name fmap prefix = prefix ++ field)
      /\ (field = lit "nas" -> target_field detector_name fmap prefix = lit "nas_norm")
      /\ (SPACE ∉ prefix -> SPACE ∉ target_field detector_name fmap prefix)).
Proof.
  split; [intros f Hf; unfold target_field; by rewrite Hf|].
  intros Hnone. cbn zeta. unfold target_field. rewrite Hnone. cbn zeta.
  set (field := replace_char SPACE UNDERSCORE (lower detector_name)).
  assert (Hclean : SPACE ∉ field) by (by apply replace_char_clean).
  split; [|split].
  - case_decide; [by left | right]. by destruct prefix.
  - intros Hf. by rewrite decide_True.
  - intros Hp. case_decide.
    + apply (bool_decide_unpack _). by vm_compute.
    + destruct prefix as [|c p]; [done|]. cbn [str_truthy].
      rewrite elem_of_app. tauto.
Qed.

(** ** The field map *)

Lemma split_on_sep_app (sep : N) (a b : list N) :
  split_on sep (a ++ sep :: b) = split_on sep a ++ split_on sep b.
Proof.
  induction a as [|c a IH]; simpl.
  - by rewrite decide_True.
  - case_decide; [by rewrite IH|]. rewrite IH.
    pose proof (split_on_nonempty sep a). by destruct (split_on sep a).
Qed.

Lemma lstrip_pad (pad s : list N) :
  Forall (fun c => isspace c = true) pad -> lstrip (pad ++ s) = lstrip s.
Proof. induction 1 as [|c pad Hc _ IH]; [done|]. simpl. by rewrite Hc. Qed.

Lemma lstrip_fixed (s : list N) :
  isspace <$> head s <> Some true -> lstrip s = s.
Proof.
  destruct s as [|c s]; [done|]. simpl. by destruct (isspace c).
Qed.

Lemma rstrip_pad (pad s : list N) :
  Forall (fun c => isspace c = true) pad -> rstrip (s ++ pad) = rstrip s.
Proof.
  intros Hp. unfold rstrip. rewrite reverse_app, lstrip_pad; [done|].
  by apply Forall_reverse.
Qed.

Lemma rstrip_fixed (s : list N) :
  isspace <$> last s <> Some true -> rstrip s = s.
Proof.
  intros Hl. unfold rstrip. rewrite lstrip_fixed; [apply reverse_involutive|].
  by rewrite head_reverse.
Qed.

Lemma strip_padded (l k r : list N) :
  Forall (fun c => isspace c = true) l -> Forall (fun c => isspace c = true) r ->
  isspace <$> head k <> Some true -> isspace <$> last k <> Some true ->
  strip (l ++ k ++ r) = k.
Proof.
  intros Hl Hr Hhead Hlast. unfold strip. rewrite lstrip_pad by done.
  destruct k as [|c k].
  - simpl. rewrite <- (app_nil_r r), lstrip_pad by done. done.
  - rewrite lstrip_fixed by done. rewrite rstrip_pad by done. by apply rstrip_fixed.
Qed.

Lemma lstrip_keeps (s : list N) (c : N) :
  c ∈ s -> isspace c = false -> c ∈ lstrip s.
Proof.
  intros Hc Hs. induction s as [|x s IH]; [done|]. simpl.
  destruct (isspace x) eqn:Hx; [|done].
  apply elem_of_cons in Hc as [->|Hc]; [congruence | by apply IH].
Qed.

Lemma strip_keeps (s : list N) (c : N) :
  c ∈ s -> isspace c = false -> str_truthy (strip s) = true.
Proof.
  intros Hc Hs. assert (Hin : c ∈ strip s).
  { unfold strip, rstrip. rewrite elem_of_reverse. apply lstrip_keeps; [|done].
    rewrite elem_of_reverse. by apply lstrip_keeps. }
  destruct (strip s); [by apply elem_of_nil in Hin | done].
Qed.

Lemma split_first_app (sep : N) (a b : list N) :
  sep ∉ a -> split_first sep (a ++ sep :: b) = Some (a, b).
Proof.
  induction a as [|c a IH]; intros Ha; simpl.
  - by rewrite decide_True.
  - apply not_elem_of_cons in Ha as [Hc Ha]. rewrite decide_False by done.
    by rewrite IH.
Qed.

Lemma not_space_not_in (c : N) (pad : list N) :
  isspace c = false -> Forall (fun x => isspace x = true) pad -> c ∉ pad.
Proof.
  intros Hc Hp Hin. rewrite Forall_forall in Hp. specialize (Hp c Hin). congruence.
Qed.

(** The turn of the loop on a well-formed entry. *)
Lemma field_map_step_entry (m : gmap (list N) (list N)) (l k m1 m2 v r : list N) :
  isspace EQUALS = false ->
  Forall (fun c => isspace c = true) l -> Forall (fun c => isspace c = true) m1 ->
  Forall (fun c => isspace c = true) m2 -> Forall (fun c => isspace c = true) r ->
  EQUALS ∉ k ->
  isspace <$> head k <> Some true -> isspace <$> last k <> Some true ->
  isspace <$> head v <> Some true -> isspace <$> last v <> Some true ->
  field_map_step m (l ++ k ++ m1 ++ [EQUALS] ++ m2 ++ v ++ r) = <[k := v]> m.
Proof.
  intros He Hl Hm1 Hm2 Hr Hk Hk1 Hk2 Hv1 Hv2. unfold field_map_step.
  rewrite (strip_keeps _ EQUALS); [|set_solver|done]. cbn [negb].
  replace (l ++ k ++ m1 ++ [EQUALS] ++ m2 ++ v ++ r)
    with ((l ++ k ++ m1) ++ EQUALS :: (m2 ++ v ++ r))
    by (by rewrite <- !app_assoc).
  rewrite split_first_app.
  - by rewrite !strip_padded.
  - rewrite !elem_of_app. intros [H|[H|H]]; [|done|].
    + by apply (not_space_not_in EQUALS l).
    + by apply (not_space_not_in EQUALS m1).
Qed.

Lemma parse_field_map_parts (s : list N) :
  parse_field_map (Some s) = foldl field_map_step ∅ (split_on COMMA s).
Proof. by destruct s. Qed.

Lemma field_map_fold_union (m : gmap (list N) (list N)) (parts : list (list N)) :
  foldl field_map_step m parts = foldl field_map_step ∅ parts ∪ m.
Proof.
  induction parts as [|part parts IH] using rev_ind.
  - simpl. by rewrite (left_id_L ∅ (∪)).
  - rewrite !foldl_snoc, IH. unfold field_map_step.
    destruct (negb (str_truthy (strip part))); [done|].
    destruct (split_first EQUALS part) as [[k v]|]; [|done].
    by rewrite insert_union_l.
Qed.

(** X14. [parse_field_map] reads an entry [name=field] written with white
    space around the name and around the field as the entry without it,
    when [=] is not white space, the name holds no [=], the entry holds no
    comma, and the name and the field do not start or end with white space;
    [target_field] then sends the name to the field, whatever the prefix. *)
Theorem parse_field_map_entry (l k m1 m2 v r prefix : list N) :
  isspace EQUALS = false ->
  Forall (fun c => isspace c = true) l -> Forall (fun c => isspace c = true) m1 ->
  Forall (fun c => isspace c = true) m2 -> Forall (fun c => isspace c = true) r ->
  EQUALS ∉ k -> COMMA ∉ l ++ k ++ m1 ++ [EQUALS] ++ m2 ++ v ++ r ->
  isspace <$> head k <> Some true -> isspace <$> last k <> Some true ->
  isspace <$> head v <> Some true -> isspace <$> last v <> Some true ->
  parse_field_map (Some (l ++ k ++ m1 ++ [EQUALS] ++ m2 ++ v ++ r)) = {[ k := v ]}
  /\ target_field k (parse_field_map (Some (l ++ k ++ m1 ++ [EQUALS] ++ m2 ++ v ++ r))) prefix
     = v.
Proof.
  intros He Hl Hm1 Hm2 Hr Hk Hc Hk1 Hk2 Hv1 Hv2.
  assert (Hparse : parse_field_map (Some (l ++ k ++ m1 ++ [EQUALS] ++ m2 ++ v ++ r))
                   = {[ k := v ]}).
  { rewrite parse_field_map_parts, (split_on_whole COMMA _ Hc). cbn [foldl].
    rewrite field_map_step_entry by done. apply insert_empty. }
  split; [done|]. rewrite Hparse. unfold target_field.
  by rewrite lookup_singleton_eq.
Qed.

(** X15. The field map of a text with a comma is the field map of what
    follows the comma, completed by the field map of what precedes it: the
    entries are read from left to right, and the last entry of a name
    wins. The text without entries, and no text, give the empty map. *)
Theorem parse_field_map_union (s1 s2 : list N) :
  parse_field_map (Some (s1 ++ COMMA :: s2))
  = parse_field_map (Some s2) ∪ parse_field_map (Some s1)
  /\ parse_field_map None = ∅ /\ parse_field_map (Some []) = ∅.
Proof.
  split; [|done].
  rewrite !parse_field_map_parts, split_on_sep_app, foldl_app.
  apply field_map_fold_union.
Qed.

(** X16. Round trip: the field map read from the entries [name=field] of
    a list, joined with commas, maps every name of the list to the field of
    its last entry and holds nothing else, when [=] is not white space and
    the names and fields hold no comma, the names no [=], and none starts
    or ends with white space. *)
Theorem parse_field_map_join (kvs : list (list N * list N)) :
  isspace EQUALS = false ->
  Forall (fun kv => (COMMA ∉ kv.1) /\ (COMMA ∉ kv.2) /\ (EQUALS ∉ kv.1)
                    /\ isspace <$> head kv.1 <> Some true
                    /\ isspace <$> last kv.1 <> Some true
                    /\ isspace <$> head kv.2 <> Some true
                    /\ isspace <$> last kv.2 <> Some true) kvs ->
  parse_field_map (Some (join [COMMA] ((fun kv => kv.1 ++ [EQUALS] ++ kv.2) <$> kvs)))
  = list_to_map (reverse kvs).
Proof.
  intros He Hkvs. rewrite parse_field_map_parts.
  destruct (decide (kvs = [])) as [->|Hne]; [done|].
  rewrite split_on_join.
  - clear Hne. induction kvs as [|[k v] kvs IH] using rev_ind; [done|].
    apply Forall_app in Hkvs as [Hkvs [Hkv _]%Forall_cons].
    rewrite fmap_app, foldl_app, IH, reverse_snoc by done.
    destruct Hkv as (_ & _ & Hk & Hk1 & Hk2 & Hv1 & Hv2). simpl in Hk, Hk1, Hk2, Hv1, Hv2.
    pose proof (field_map_step_entry (list_to_map (reverse kvs)) [] k [] [] v [] He) as Hs.
    rewrite app_nil_r in Hs. by apply Hs.
  - by destruct kvs.
  - apply Forall_fmap. eapply Forall_impl; [exact Hkvs|].
    intros [k v] (Hk & Hv & _). cbn [fst snd] in *.
    intros [?|[?%list_elem_of_singleton|?]%elem_of_app]%elem_of_app; done.
Qed.

(** ** The loop and the generator *)

Lemma run_hits_app (cfg : Config) (w : World) (detectors : list Detector)
    (st : State) (a b : list Hit) :
  run_hits cfg w detectors st (a ++ b)
  = match run_hits cfg w detectors st a with
    | Continue st' => run_hits cfg w detectors st' b
    | Fatal st' => Fatal st'
    end.
Proof.
  revert st. induction a as [|h a IH]; intros st; [done|].
  rewrite <- app_comm_cons. cbn [run_hits].
  destruct (process_hit cfg w detectors st h); [apply IH | done].
Qed.

(** When the scroll ends, the loop over the generator comes to the loop
    over the hits that the scroll yields. *)
Lemma scroll_hits_eager (fuel : nat) (cfg : Config) (w : World)
    (detectors : list Detector) (k : nat) (prev : Page) (st : State) (run : ScrollRun) :
  scroll_loop fuel (scroll_replies w) k prev = Some run ->
  scroll_hits fuel cfg w detectors k prev st
  = Some (match run_hits cfg w detectors st (yielded run) with
          | Fatal st' => Fatal st'
          | Continue st' => if raised run then Fatal st' else Continue st'
          end).
Proof.
  revert k prev st run. induction fuel as [|fuel IH]; intros k prev st run; simpl.
  - destruct (scroll_ends prev); [|done]. by intros [= <-].
  - destruct (scroll_ends prev); [by intros [= <-]|].
    destruct (scroll_page (scroll_replies w k)) as [p|]; [|by intros [= <-]].
    destruct (scroll_loop fuel (scroll_replies w) (S k) p) as [run'|] eqn:Hloop; [|done].
    intros [= <-]. cbn [yield_first yielded raised]. rewrite run_hits_app.
    destruct (run_hits cfg w detectors st (hits p)) as [st1|st1]; [|done].
    by apply IH.
Qed.

Lemma main_eager (fuel : nat) (cfg : Config) (w : World) (detectors : list Detector)
    (run : ScrollRun) :
  main_detectors cfg w = Some detectors ->
  search_scroll fuel (scroll_replies w) = Some run ->
  main fuel cfg w
  = match run_hits cfg w detectors initial_state (yielded run) with
    | Fatal st => Some (Ran (Fatal st))
    | Continue st =>
        if raised run then Some (Ran (Fatal st))
        else if apply_updates cfg then Some (Ran (flush_bulk w st))
        else Some (Ran (Continue st))
    end.
Proof.
  intros Hd. unfold main, search_scroll. rewrite Hd.
  destruct (scroll_page (scroll_replies w 0%nat)) as [p|]; [|by intros [= <-]].
  destruct (scroll_loop fuel (scroll_replies w) 1 p) as [run'|] eqn:Hloop; [|done].
  intros [= <-]. cbn [yield_first yielded raised]. rewrite run_hits_app.
  destruct (run_hits cfg w detectors initial_state (hits p)) as [st|st]; [|done].
  rewrite (scroll_hits_eager fuel cfg w detectors 1 p st run' Hloop). simpl.
  destruct (run_hits cfg w detectors st (yielded run')) as [st'|st']; [|done].
  by destruct (raised run').
Qed.

(** ** The scroll when a request fails *)



(** ** The bulk buffer *)

Lemma all_lines_write_csv (cfg : Config) (path _id : list N) (st : State)
    (pairs : list (list N * list N)) :
  all_lines (write_csv cfg path _id st pairs) = all_lines st.
Proof.
  destruct (write_csv_keeps cfg path _id st pairs) as (_ & Hb & _ & Hc & _).
  unfold all_lines. by rewrite Hb, Hc.
Qed.

(** The lines that a turn of the loop queues. *)
Lemma process_hit_lines (cfg : Config) (w : World) (detectors : list Detector)
    (st : State) (h : Hit) :
  let st' := outcome_state (process_hit cfg w detectors st h) in
  all_lines st' = all_lines st ++ hit_update cfg detectors h
  /\ updates_count st'
     = (updates_count st + length (hit_update cfg detectors h) `div` 2)%nat.
Proof.
  cbn zeta. unfold process_hit, hit_update. fold (hit_pairs cfg detectors h).
  destruct (str_truthy (get_text_from_source _ _ _)) eqn:Ht; cbn [negb].
  2: { assert (hit_pairs cfg detectors h = []) as ->.
       { unfold hit_pairs, extract_from_text. by rewrite Ht. }
       rewrite andb_false_r. simpl. by rewrite app_nil_r, Nat.add_0_r. }
  set (path := get_path_virtual _ _). set (_id := default [] (hit_id h)).
  set (pairs := hit_pairs cfg detectors h).
  set (st1 := write_csv cfg path _id (count_doc st) pairs).
  assert (H1 : all_lines st1 = all_lines st)
    by exact (all_lines_write_csv cfg path _id (count_doc st) pairs).
  assert (H2 : updates_count st1 = updates_count st)
    by (by destruct (write_csv_keeps cfg path _id (count_doc st) pairs) as (_ & _ & ? & _)).
  destruct (apply_updates cfg); simpl;
    [|by rewrite app_nil_r, Nat.add_0_r].
  clearbody st1 pairs. destruct pairs as [|pr prs]; simpl;
    [by rewrite app_nil_r, Nat.add_0_r|].
  rewrite bool_decide_eq_true_2 by (by apply group_fields_nonempty).
  destruct (str_truthy _id); simpl; [|by rewrite app_nil_r, Nat.add_0_r].
  set (ls := update_lines cfg _id _).
  assert (Hq : all_lines (queue_update ls st1) = all_lines st ++ ls).
  { unfold all_lines in *. simpl. by rewrite app_assoc, H1. }
  destruct (bulk_size cfg <=? _).
  - destruct (flush_bulk_keeps w (queue_update ls st1)) as (_ & _ & _ & _ & -> & ->).
    split; [done|]. simpl. lia.
  - split; [done|]. simpl. lia.
Qed.

Lemma run_hits_lines (cfg : Config) (w : World) (detectors : list Detector)
    (hs : list Hit) (st : State) :
  exists n,
    docs_count (outcome_state (run_hits cfg w detectors st hs)) = (docs_count st + n)%nat
    /\ all_lines (outcome_state (run_hits cfg w detectors st hs))
       = all_lines st ++ (take n hs ≫= hit_update cfg detectors)
    /\ (2 * updates_count (outcome_state (run_hits cfg w detectors st hs))
        = 2 * updates_count st + length (take n hs ≫= hit_update cfg detectors))%nat.
Proof.
  revert st. induction hs as [|h hs IH]; intros st.
  - exists 0%nat. simpl. rewrite app_nil_r. repeat split; lia.
  - destruct (process_hit_lines cfg w detectors st h) as (Hl & Hu).
    destruct (process_hit_report cfg w detectors st h) as (_ & _ & _ & Hd).
    cbn zeta in Hl, Hu, Hd.
    assert (Hlen : (length (hit_update cfg detectors h)
                    = 2 * (length (hit_update cfg detectors h) `div` 2))%nat).
    { unfold hit_update. by destruct (_ && _). }
    cbn [run_hits].
    destruct (process_hit cfg w detectors st h) as [st1|st1] eqn:Hph;
      cbn [outcome_state] in Hl, Hu, Hd.
    + destruct (IH st1) as (n & Hn & Hlines & Hcount).
      exists (S n). change (take (S n) (h :: hs)) with (h :: take n hs).
      rewrite bind_cons, Hn, Hlines, Hcount, Hl, Hu, Hd, length_app, <- app_assoc.
      repeat split; lia.
    + exists 1%nat. change (take 1 (h :: hs)) with (h :: take 0 hs).
      rewrite take_0, bind_cons. cbn [outcome_state]. rewrite Hl, Hu, Hd.
      change ([] ≫= hit_update cfg detectors) with (@nil Line).
      rewrite app_nil_r. repeat split; lia.
Qed.

(** X19. The lines queued by the loop, sent or still in the buffer, are
    the update actions of the documents it has read, in the order of the
    documents, two lines for each action counted. *)
Theorem queued_lines_of_documents (cfg : Config) (w : World)
    (detectors : list Detector) (hs : list Hit) :
  let st := outcome_state (run_hits cfg w detectors initial_state hs) in
  all_lines st = take (docs_count st) hs ≫= hit_update cfg detectors
  /\ length (all_lines st) = (2 * updates_count st)%nat.
Proof.
  cbn zeta. destruct (run_hits_lines cfg w detectors hs initial_state) as (n & Hn & Hl & Hu).
  simpl in Hn, Hl, Hu. rewrite Hn, Hl. split; [done | lia].
Qed.

Lemma process_hit_batches (cfg : Config) (w : World) (detectors : list Detector)
    (st : State) (h : Hit) :
  batches_ok cfg st ->
  match process_hit cfg w detectors st h with
  | Continue st' => batches_ok cfg st'
  | Fatal st' =>
      Z.of_nat (length (bulk_lines st')) = 2 * batch_actions cfg
      /\ bulk_calls st' = bulk_calls st
  end.
Proof.
  intros [(q & Hq & Hlt) Hcalls]. unfold process_hit.
  destruct (negb (str_truthy (get_text_from_source _ _ _))); [by split; [exists q|]|].
  set (path := get_path_virtual _ _). set (_id := default [] (hit_id h)).
  set (pairs := extract_from_text _ _).
  set (st1 := write_csv cfg path _id (count_doc st) pairs).
  destruct (write_csv_keeps cfg path _id (count_doc st) pairs) as (_ & Hb & _ & Hc & _).
  fold st1 in Hb, Hc. simpl in Hb, Hc.
  assert (Hkeep : batches_ok cfg st1).
  { unfold batches_ok. rewrite Hb, Hc. split; [by exists q | done]. }
  destruct (apply_updates cfg && _); [|done].
  case_bool_decide; [|done].
  destruct (negb (str_truthy _id)); [done|].
  set (ls := update_lines cfg _id _).
  assert (Hlen : length (bulk_lines (queue_update ls st1)) = (2 * S q)%nat).
  { simpl. rewrite length_app, Hb, Hq. simpl. lia. }
  rewrite Hlen. replace (Z.of_nat (2 * S q) / 2) with (Z.of_nat (S q))
    by (rewrite Nat2Z.inj_mul, Z.mul_comm, Z.div_mul; lia).
  assert (Hba : batch_actions cfg = Z.max 1 (bulk_size cfg)) by done.
  destruct (bulk_size cfg <=? Z.of_nat (S q)) eqn:Hfull.
  - apply Z.leb_le in Hfull.
    assert (Hm : Z.of_nat (S q) = batch_actions cfg) by lia.
    unfold flush_bulk.
    destruct (bulk_lines (queue_update ls st1)) as [|l0 lines] eqn:Hbl;
      [simpl in Hlen; lia|].
    rewrite <- Hbl in *. clear Hbl. simpl in Hlen.
    destruct (bulk _) as [log [data|]].
    + split; [exists 0%nat; simpl; split; lia|]. simpl.
      apply Forall_app. split; [by rewrite Hc|].
      constructor; [|constructor]. rewrite Hlen. lia.
    + simpl. rewrite Hlen. split; [lia | done].
  - apply Z.leb_gt in Hfull. split; [exists (S q); split; [done | lia]|].
    simpl. by rewrite Hc.
Qed.

Lemma run_hits_batches (cfg : Config) (w : World) (detectors : list Detector)
    (hs : list Hit) (st : State) :
  batches_ok cfg st ->
  match run_hits cfg w detectors st hs with
  | Continue st' => batches_ok cfg st'
  | Fatal st' =>
      Z.of_nat (length (bulk_lines st')) = 2 * batch_actions cfg
      /\ Forall (fun call => Z.of_nat (length call) = 2 * batch_actions cfg) (bulk_calls st')
  end.
Proof.
  revert st. induction hs as [|h hs IH]; intros st Hst; [done|]. cbn [run_hits].
  pose proof (process_hit_batches cfg w detectors st h Hst) as Hp.
  destruct (process_hit cfg w detectors st h) as [st1|st1]; [by apply IH|].
  destruct Hp as [Hl Hc]. split; [done|]. rewrite Hc. apply Hst.
Qed.

Lemma batches_ok_initial (cfg : Config) : batches_ok cfg initial_state.
Proof.
  split; [|constructor]. exists 0%nat. split; [done|]. unfold batch_actions. lia.
Qed.

(** X20. A bulk request sent by the loop carries a full batch:
    [bulk_size] update actions, one when [bulk_size] is less than one.
    After a turn that ends normally the buffer holds fewer actions than
    that; when the loop ends on an exception of the bulk request, the
    buffer still holds the batch that was refused. *)
Theorem bulk_requests_full_batches (cfg : Config) (w : World)
    (detectors : list Detector) (hs : list Hit) :
  let o := run_hits cfg w detectors initial_state hs in
  Forall (fun call => Z.of_nat (length call) = 2 * batch_actions cfg)
    (bulk_calls (outcome_state o))
  /\ match o with
     | Continue st => Z.of_nat (length (bulk_lines st)) < 2 * batch_actions cfg
     | Fatal st => Z.of_nat (length (bulk_lines st)) = 2 * batch_actions cfg
     end.
Proof.
  cbn zeta. pose proof (run_hits_batches cfg w detectors hs initial_state
                          (batches_ok_initial cfg)) as H.
  destruct (run_hits cfg w detectors initial_state hs) as [st|st]; simpl.
  - destruct H as [(q & Hq & Hlt) Hc]. split; [done|]. rewrite Hq. lia.
  - destruct H as [Hl Hc]. by split.
Qed.

(** ** Runs without updates, and runs that the server answers *)




Lemma flush_bulk_answered (w : World) (st : State) :
  bulk_answered w ->
  exists st', flush_bulk w st = Continue st' /\ bulk_lines st' = []
    /\ bulk_calls st' = bulk_calls st ++ (match bulk_lines st with [] => [] | _ => [bulk_lines st] end).
Proof.
  intros Hw. destruct (Hw (length (bulk_calls st)) (bulk_lines st))
    as (status & data & Hr & Hs).
  rewrite (flush_bulk_continues w st status data Hr Hs).
  destruct (bulk_lines st) eqn:Hl.
  - exists st. by rewrite app_nil_r.
  - eexists. split; [done|]. simpl. by rewrite Hl.
Qed.

Lemma run_hits_answered (cfg : Config) (w : World) (detectors : list Detector)
    (hs : list Hit) (st : State) :
  bulk_answered w -> exists st', run_hits cfg w detectors st hs = Continue st'.
Proof.
  intros Hw. revert st. induction hs as [|h hs IH]; intros st; [by exists st|].
  cbn [run_hits].
  assert (Hp : exists st1, process_hit cfg w detectors st h = Continue st1).
  { unfold process_hit. destruct (negb _); [by eexists|].
    destruct (_ && _); [|by eexists]. destruct (bool_decide _); [|by eexists].
    destruct (negb _); [by eexists|]. destruct (_ <=? _); [|by eexists].
    destruct (flush_bulk_answered w (queue_update
                (update_lines cfg (default [] (hit_id h))
                   (group_fields cfg
                      (extract_from_text
                         (get_text_from_source (default [] (hit_source h))
                            (content_field cfg) (alt_content_field cfg)) detectors)))
                (write_csv cfg
                   (get_path_virtual (default [] (hit_source h)) (path_field cfg))
                   (default [] (hit_id h)) (count_doc st)
                   (extract_from_text
                      (get_text_from_source (default [] (hit_source h))
                         (content_field cfg) (alt_content_field cfg)) detectors))) Hw)
      as (st1 & -> & _). by eexists. }
  destruct Hp as (st1 & ->). apply IH.
Qed.


(** ** How a run ends *)

Lemma bulk_raises (r : HttpReply BulkData) :
  (bulk r).2 = None
  <-> r = NoReply
      \/ exists status payload, r = Reply status payload
                                /\ (400 <= status < 600 \/ payload = None).
Proof.
  destruct r as [|status payload]; [split; [by left | done]|].
  unfold bulk, raises_for_status. split.
  - intros Hb. right. exists status, payload. split; [done|].
    destruct (Z.leb_spec 400 status) as [H4|H4], (Z.ltb_spec status 600) as [H6|H6];
      simpl in Hb; try (left; lia).
    all: destruct payload as [data|]; [|by right].
    all: by destruct (errors data).
  - intros [?|(status' & payload' & Heq & Hc)]; [done|].
    injection Heq as <- <-. destruct Hc as [Hs| ->].
    + by status_tests.
    + by destruct (400 <=? status), (status <? 600).
Qed.

Lemma flush_bulk_refused (w : World) (st : State) :
  refused w st ->
  flush_bulk w st
  = Fatal (log_more (bulk (bulk_replies w (length (bulk_calls st)) (bulk_lines st))).1 st).
Proof.
  intros [Hne Hb]. unfold flush_bulk. destruct (bulk_lines st) as [|l ls] eqn:Hl; [done|].
  by destruct (bulk _) as [log [data|]].
Qed.



Lemma run_hits_Continue_docs (cfg : Config) (w : World) (detectors : list Detector)
    (hs : list Hit) (st st' : State) :
  run_hits cfg w detectors st hs = Continue st' ->
  docs_count st' = (docs_count st + length hs)%nat.
Proof.
  revert st. induction hs as [|h hs IH]; intros st; [intros [= <-]; simpl; lia|].
  cbn [run_hits].
  destruct (process_hit_report cfg w detectors st h) as (_ & _ & _ & Hd).
  cbn zeta in Hd.
  destruct (process_hit cfg w detectors st h) as [st1|st1]; [|done].
  intros Hrun%IH. simpl in *. lia.
Qed.


(** The turn that fills the batch with the update of its document, when the
    request for the batch is refused. *)
Lemma process_hit_refused (cfg : Config) (w : World) (detectors : list Detector)
    (st : State) (h : Hit) (_id : list N) :
  apply_updates cfg = true ->
  hit_id h = Some _id -> _id <> [] ->
  hit_pairs cfg detectors h <> [] ->
  let ls := bulk_lines st
            ++ update_lines cfg _id (group_fields cfg (hit_pairs cfg detectors h)) in
  bulk_size cfg <= Z.of_nat (length ls) / 2 ->
  (bulk (bulk_replies w (length (bulk_calls st)) ls)).2 = None ->
  exists st',
    process_hit cfg w detectors st h = Fatal st'
    /\ bulk_lines st' = ls /\ bulk_calls st' = bulk_calls st
    /\ docs_count st' = S (docs_count st).
Proof.
  intros Hup Hid Hne Hp ls Hfull Hbad. unfold process_hit.
  fold (hit_pairs cfg detectors h).
  rewrite (hit_pairs_text cfg detectors h Hp), Hid, Hup. cbn [negb andb].
  change (default [] (Some _id)) with _id.
  assert (Hsome : match hit_pairs cfg detectors h with [] => false | _ => true end = true)
    by (by destruct (hit_pairs cfg detectors h)).
  assert (Hidt : str_truthy _id = true) by (by destruct _id).
  rewrite Hsome, Hidt, bool_decide_eq_true_2 by (by apply group_fields_nonempty).
  cbn [negb].
  set (q := queue_update _ _).
  destruct (write_csv_keeps cfg
              (get_path_virtual (default [] (hit_source h)) (path_field cfg))
              _id (count_doc st) (hit_pairs cfg detectors h))
    as (Hd & Hb & _ & Hc & _).
  cbn zeta in Hd, Hb, Hc.
  assert (Hq : bulk_lines q = ls) by (subst q ls; cbn [bulk_lines queue_update]; by rewrite Hb).
  assert (Hqc : bulk_calls q = bulk_calls st)
    by (subst q; cbn [bulk_calls queue_update]; by rewrite Hc).
  assert (Hqd : docs_count q = S (docs_count st))
    by (subst q; cbn [docs_count queue_update]; by rewrite Hd).
  rewrite Hq. replace (bulk_size cfg <=? Z.of_nat (length ls) / 2) with true
    by (symmetry; by apply Z.leb_le).
  assert (Href : refused w q).
  { unfold refused. rewrite Hq, Hqc. split; [|done].
    subst ls. unfold update_lines. simpl. by destruct (bulk_lines st). }
  rewrite (flush_bulk_refused w q Href). eexists. split; [done|].
  cbn [bulk_lines bulk_calls docs_count log_more]. by rewrite Hq, Hqc, Hqd.
Qed.

(** The loop over the generator ends where the loop over the hits of the
    pages read so far ends on an exception: the later requests are not
    sent. *)
Lemma scroll_hits_fatal (cfg : Config) (w : World) (detectors : list Detector)
    (p : nat -> Page) (m k fuel : nat) (st st' : State) :
  (forall i, (k < i <= k + m)%nat -> scroll_page (scroll_replies w i) = Some (p i)) ->
  (forall i, (k <= i < k + m)%nat -> scroll_ends (p i) = false) ->
  (m <= fuel)%nat ->
  run_hits cfg w detectors st (seq (S k) m ≫= (fun i => hits (p i))) = Fatal st' ->
  scroll_hits fuel cfg w detectors (S k) (p k) st = Some (Fatal st').
Proof.
  revert k fuel st. induction m as [|m IH]; intros k fuel st Hok Hgo Hfuel; [done|].
  destruct fuel as [|fuel]; [lia|]. cbn [seq]. rewrite bind_cons, run_hits_app.
  cbn [scroll_hits]. rewrite Hgo by lia. rewrite (Hok (S k)) by lia.
  destruct (run_hits cfg w detectors st (hits (p (S k)))) as [st1|st1];
    [|by intros [= ->]].
  apply IH; [| |lia].
  - intros i Hi. apply Hok. lia.
  - intros i Hi. apply Hgo. lia.
Qed.

Lemma main_fatal_in_loop (fuel : nat) (cfg : Config) (w : World)
    (detectors : list Detector) (p : nat -> Page) (n : nat) (st : State) :
  main_detectors cfg w = Some detectors ->
  (forall i, (i <= n)%nat -> scroll_page (scroll_replies w i) = Some (p i)) ->
  (forall i, (i < n)%nat -> scroll_ends (p i) = false) ->
  (n <= fuel)%nat ->
  run_hits cfg w detectors initial_state (seq 0 (S n) ≫= (fun i => hits (p i))) = Fatal st ->
  main fuel cfg w = Some (Ran (Fatal st)).
Proof.
  intros Hd Hok Hgo Hfuel. unfold main. rewrite Hd, (Hok 0%nat) by lia.
  cbn [seq]. rewrite bind_cons, run_hits_app.
  destruct (run_hits cfg w detectors initial_state (hits (p 0%nat))) as [st1|st1];
    [|by intros [= ->]].
  intros Hrun. rewrite (scroll_hits_fatal cfg w detectors p n 0 fuel st1 st); try done.
  - intros i Hi. apply Hok. lia.
  - intros i Hi. apply Hgo. lia.
Qed.

(** C7, as the code has it. [bulk] raises on a status from 400 to 599,
    when there is no answer, and when the body cannot be decoded. On a status
    below 400 with a decoded body it returns the body; when the body reports
    item errors it prints at most five of the items that failed, the first
    ones. [flush_bulk] then goes on with the buffer emptied, so no line is
    sent twice, and it ends the run when [bulk] raises: the turn of the loop
    aborts and so does the loop. [bulk] raises in these cases only; a
    request that it raises on ends the flush, the turn that filled the
    batch, the loop at this document and the run, whatever the scroll would
    answer later, and so does the final flush; and with a server that
    answers every bulk request the loop reads every document. *)
Theorem bulk_raises_on_error_status :
  (forall status payload, 400 <= status < 600 ->
     bulk (Reply status payload) = ([BulkHttpError status], None))
  /\ bulk NoReply = ([], None)
  /\ (forall status, status < 400 -> bulk (Reply status None) = ([], None))
  /\ (forall status data, status < 400 ->
     bulk (Reply status (Some data))
     = (if errors data
        then [BulkItemErrors (take 5 (filter (fun it => item_failed it = true) (items data)))]
        else [],
        Some data))
  /\ (forall status data errs, status < 400 ->
     BulkItemErrors errs ∈ (bulk (Reply status (Some data))).1 ->
     (length errs <= 5)%nat /\ Forall (fun it => item_failed it = true) errs)
  /\ (forall w st status data,
     bulk_lines st <> [] ->
     bulk_replies w (length (bulk_calls st)) (bulk_lines st) = Reply status (Some data) ->
     status < 400 ->
     exists st', flush_bulk w st = Continue st'
       /\ bulk_lines st' = []
       /\ bulk_calls st' = bulk_calls st ++ [bulk_lines st]
       /\ rows st' = rows st /\ updates_count st' = updates_count st)
  /\ (forall w st status payload,
     bulk_lines st <> [] ->
     bulk_replies w (length (bulk_calls st)) (bulk_lines st) = Reply status payload ->
     400 <= status < 600 ->
     flush_bulk w st = Fatal (log_more [BulkHttpError status] st))
  /\ (forall cfg w detectors st st' h hs,
     process_hit cfg w detectors st h = Fatal st' ->
     run_hits cfg w detectors st (h :: hs) = Fatal st')
  /\ (forall r : HttpReply BulkData,
     (bulk r).2 = None
     <-> r = NoReply
         \/ exists status payload, r = Reply status payload
                                   /\ (400 <= status < 600 \/ payload = None))
  /\ (forall w st, refused w st ->
     flush_bulk w st
     = Fatal (log_more (bulk (bulk_replies w (length (bulk_calls st)) (bulk_lines st))).1 st))
  /\ (forall cfg w detectors st h _id,
     apply_updates cfg = true ->
     hit_id h = Some _id -> _id <> [] ->
     hit_pairs cfg detectors h <> [] ->
     let ls := bulk_lines st
               ++ update_lines cfg _id (group_fields cfg (hit_pairs cfg detectors h)) in
     bulk_size cfg <= Z.of_nat (length ls) / 2 ->
     (bulk (bulk_replies w (length (bulk_calls st)) ls)).2 = None ->
     exists st',
       process_hit cfg w detectors st h = Fatal st'
       /\ bulk_lines st' = ls /\ bulk_calls st' = bulk_calls st
       /\ docs_count st' = S (docs_count st)
       /\ forall st0 before after,
            run_hits cfg w detectors st0 before = Continue st ->
            run_hits cfg w detectors st0 (before ++ h :: after) = Fatal st')
  /\ (forall fuel cfg w detectors (p : nat -> Page) n st,
     main_detectors cfg w = Some detectors ->
     (forall i, (i <= n)%nat -> scroll_page (scroll_replies w i) = Some (p i)) ->
     (forall i, (i < n)%nat -> scroll_ends (p i) = false) ->
     (n <= fuel)%nat ->
     run_hits cfg w detectors initial_state (seq 0 (S n) ≫= (fun i => hits (p i)))
     = Fatal st ->
     main fuel cfg w = Some (Ran (Fatal st)))
  /\ (forall fuel cfg w detectors run st,
     main_detectors cfg w = Some detectors ->
     search_scroll fuel (scroll_replies w) = Some run -> raised run = false ->
     run_hits cfg w detectors initial_state (yielded run) = Continue st ->
     apply_updates cfg = true -> refused w st ->
     main fuel cfg w
     = Some (Ran (Fatal (log_more
                           (bulk (bulk_replies w (length (bulk_calls st)) (bulk_lines st))).1
                           st))))
  /\ (forall cfg w detectors st hs,
     bulk_answered w -> exists st', run_hits cfg w detectors st hs = Continue st').
Proof.
  repeat apply conj.
  - intros status payload [Hlo Hhi]. unfold bulk, raises_for_status. by status_tests.
  - done.
  - intros status Hs. unfold bulk. by status_tests.
  - intros status data Hs. unfold bulk.
    status_tests. simpl. by destruct (errors data).
  - intros status data errs Hs. unfold bulk.
    status_tests. simpl.
    destruct (errors data); simpl; [|by intros ?%elem_of_nil].
    intros [= ->]%list_elem_of_singleton. split.
    + rewrite length_take. lia.
    + apply Forall_take. apply Forall_forall. intros it Hit.
      by apply list_elem_of_filter in Hit as [? _].
  - intros w st status data Hne Hr Hs.
    rewrite (flush_bulk_continues w st status data Hr Hs).
    destruct (bulk_lines st) eqn:Hl; [done|]. eexists. split; [done|].
    simpl. by rewrite Hl.
  - intros w st status payload Hne Hr [Hlo Hhi]. unfold flush_bulk. rewrite Hr.
    destruct (bulk_lines st); [done|]. unfold bulk, raises_for_status. by status_tests.
  - intros cfg w detectors st st' h hs Hp. simpl. by rewrite Hp.
  - apply bulk_raises.
  - apply flush_bulk_refused.
  - intros cfg w detectors st h _id Hup Hid Hne Hp ls Hfull Hbad.
    destruct (process_hit_refused cfg w detectors st h _id Hup Hid Hne Hp Hfull Hbad)
      as (st' & Hph & Hb & Hc & Hd).
    exists st'. split; [done|]. split; [done|]. split; [done|]. split; [done|].
    intros st0 before after Hrun. rewrite run_hits_app, Hrun. cbn [run_hits].
    by rewrite Hph.
  - intros fuel cfg w detectors p n st Hd Hok Hgo Hfuel Hrun. by eapply main_fatal_in_loop.
  - intros fuel cfg w detectors run st Hd Hscroll Hraised Hrun Hup Href.
    rewrite (main_eager fuel cfg w detectors run Hd Hscroll), Hrun, Hraised, Hup.
    by rewrite (flush_bulk_refused w st Href).
  - intros cfg w detectors st hs Hw. by apply run_hits_answered.
Qed.





(** ** The report and the updates *)

Lemma first_by_all_seen {A K : Type} `{EqDecision K} (key : A -> K)
    (s : list K) (l : list A) :
  (forall x, x ∈ l -> key x ∈ s) -> first_by key s l = [].
Proof.
  induction l as [|x l IH]; intros Hl; [done|]. simpl.
  rewrite decide_True by (apply Hl, elem_of_cons; by left).
  apply IH. intros y Hy. apply Hl, elem_of_cons. by right.
Qed.

(** The rows of a run that read every document. *)
Lemma run_hits_all_rows (cfg : Config) (w : World) (detectors : list Detector)
    (hs : list Hit) (st : State) :
  run_hits cfg w detectors initial_state hs = Continue st ->
  rows st = (if dedupe cfg
             then first_by row_key [] (hs ≫= hit_rows cfg detectors)
             else hs ≫= hit_rows cfg detectors)
  /\ pairs_count st = length (rows st) /\ docs_count st = length hs.
Proof.
  intros Hrun.
  destruct (run_hits_rows cfg w detectors hs initial_state) as (n & Hn & _ & Hall & Hr & Hp).
  { intros _ k. simpl. rewrite elem_of_nil. set_solver. }
  rewrite Hrun in Hn, Hr, Hp, Hall. simpl in Hn, Hr, Hp.
  rewrite (Hall st eq_refl) in Hn, Hr, Hp. rewrite firstn_all in Hr, Hp.
  rewrite Hr, Hp, Hn. done.
Qed.

(** X23. The report does not depend on the updates: two runs over the
    same documents that end normally, with the same detectors and the same
    text field, alternate field, path field and [dedupe], write the same
    rows and count the same pairs, whatever the index, the field map, the
    prefix, [apply_updates], [bulk_size] and the answers of the server. *)
Theorem report_independent_of_updates (cfg cfg' : Config) (w w' : World)
    (detectors : list Detector) (hs : list Hit) (st st' : State) :
  content_field cfg = content_field cfg' ->
  alt_content_field cfg = alt_content_field cfg' ->
  path_field cfg = path_field cfg' ->
  dedupe cfg = dedupe cfg' ->
  run_hits cfg w detectors initial_state hs = Continue st ->
  run_hits cfg' w' detectors initial_state hs = Continue st' ->
  rows st = rows st' /\ pairs_count st = pairs_count st' /\ docs_count st = docs_count st'.
Proof.
  intros Hc Ha Hp Hd Hrun Hrun'.
  destruct (run_hits_all_rows cfg w detectors hs st Hrun) as (Hr & Hn & Hdocs).
  destruct (run_hits_all_rows cfg' w' detectors hs st' Hrun') as (Hr' & Hn' & Hdocs').
  assert (Hrows : forall h, hit_rows cfg detectors h = hit_rows cfg' detectors h).
  { intros h. unfold hit_rows. by rewrite Hc, Ha, Hp. }
  assert (Hall : hs ≫= hit_rows cfg detectors = hs ≫= hit_rows cfg' detectors).
  { clear -Hrows. induction hs as [|h hs IH]; [done|]. by rewrite !bind_cons, Hrows, IH. }
  assert (rows st = rows st') as Heq by (by rewrite Hr, Hr', Hall, Hd).
  split; [done|]. split; [by rewrite Hn, Hn', Heq | by rewrite Hdocs, Hdocs'].
Qed.

(** X24. With [dedupe], reading the same documents a second time adds no
    row to the report: a run over a list of documents followed by the same
    list writes the rows of a run over the list. *)
Theorem dedupe_second_reading (cfg : Config) (w w' : World)
    (detectors : list Detector) (hs : list Hit) (st st' : State) :
  dedupe cfg = true ->
  run_hits cfg w detectors initial_state hs = Continue st ->
  run_hits cfg w' detectors initial_state (hs ++ hs) = Continue st' ->
  rows st' = rows st /\ pairs_count st' = pairs_count st
  /\ docs_count st' = (2 * docs_count st)%nat.
Proof.
  intros Hd Hrun Hrun'.
  destruct (run_hits_all_rows cfg w detectors hs st Hrun) as (Hr & Hn & Hdocs).
  destruct (run_hits_all_rows cfg w' detectors (hs ++ hs) st' Hrun') as (Hr' & Hn' & Hdocs').
  rewrite Hd in Hr, Hr'.
  assert (Heq : rows st' = rows st).
  { rewrite Hr', Hr, bind_app, first_by_resume.
    rewrite (first_by_all_seen row_key
               ([] ++ (row_key <$> first_by row_key [] (hs ≫= hit_rows cfg detectors)))
               (hs ≫= hit_rows cfg detectors)).
    - by rewrite app_nil_r.
    - intros x Hx. rewrite app_nil_l. apply first_by_keys. split; [|by intros ?%elem_of_nil].
      apply list_elem_of_fmap. by exists x. }
  split; [done|]. split; [by rewrite Hn', Hn, Heq|].
  rewrite Hdocs', Hdocs, length_app. lia.
Qed.

(** ** More on the loading of detectors *)

Lemma flags_map_get_bits (key : list N) (i : Z) :
  Z.testbit (flags_map_get key) i = true <-> (key, i) ∈ FLAG_BITS.
Proof.
  unfold flags_map_get, FLAG_BITS. rewrite !elem_of_cons, elem_of_nil.
  assert (Hbit : forall v b, v = 2 ^ b -> 0 <= b ->
            (Z.testbit v i = true <-> i = b)).
  { intros v b -> Hb. rewrite Z.pow2_bits_eqb by done.
    rewrite Z.eqb_eq. split; congruence. }
  repeat case_decide; subst;
    rewrite ?(Hbit 2 1), ?(Hbit 8 3), ?(Hbit 16 4), ?(Hbit 64 6), ?Z.bits_0 by done.
  all: split; [intros Hi; first [done | subst; tauto]|].
  all: intros Hor.
  all: repeat (destruct Hor as [Hor|Hor];
               [apply pair_equal_spec in Hor as [Hk ->];
                first [reflexivity | congruence | by vm_compute in Hk]|]).
  all: done.
Qed.

Lemma flags_fold_bits (g : value -> Z) (fs : list value) (a : Z) (i : Z) :
  Z.testbit (foldl (fun flags f => Z.lor flags (g f)) a fs) i = true
  <-> Z.testbit a i = true \/ exists f, f ∈ fs /\ Z.testbit (g f) i = true.
Proof.
  revert a. induction fs as [|f fs IH]; intros a; simpl.
  - split; [by left|]. intros [?|(f & Hf & _)]; [done|]. by apply elem_of_nil in Hf.
  - rewrite IH, Z.lor_spec, orb_true_iff. split.
    + intros [[?|?]|(f' & Hf & Hb)]; [by left | right | right].
      * exists f. split; [apply elem_of_cons; by left | done].
      * exists f'. split; [apply elem_of_cons; by right | done].
    + intros [?|(f' & Hf & Hb)]; [by left; left|].
      apply elem_of_cons in Hf as [->|Hf]; [by left; right|].
      right. by exists f'.
Qed.

(** X25. The flags of an entry of the detector file: a bit is set exactly
    when it is the bit of one of the four names of [flags_map] and the
    entry names this flag, in any case of the letters and anywhere in the
    list. So unknown names are ignored, and the order and the repetitions
    do not count. *)
Theorem item_flags_bits (item : list (list N * value)) (i : Z) :
  Z.testbit (item_flags item) i = true
  <-> exists nm, (nm, i) ∈ FLAG_BITS /\ names_flag item nm.
Proof.
  unfold item_flags, names_flag.
  destruct (dict_get (lit "flags") item) as [[| | | |fl|fs|]|];
    try (rewrite Z.bits_0; split; [done | by intros (? & _ & ?)]).
  - rewrite Z.lor_0_l, flags_map_get_bits. split.
    + intros Hin. by exists (upper fl).
    + by intros (nm & Hin & ->).
  - rewrite flags_fold_bits, Z.bits_0. split.
    + intros [?|(f & Hf & Hb)]; [done|]. apply flags_map_get_bits in Hb.
      exists (upper (py_str f)). split; [done|]. by exists f.
    + intros (nm & Hin & f & Hf & <-). right. exists f. split; [done|].
      by apply flags_map_get_bits.
Qed.

(** X26. What the detector file may hold. A document that is false (no
    document, an empty list, an empty mapping) gives no detector. A list
    gives one detector for each entry, in the order of the list, when every
    entry loads. Any other document makes the loading raise. When the
    loading returns, the built-in detector comes first in the list of the
    run. *)
Theorem load_detectors_documents :
  (forall v, truthy v = false -> load_detectors_from_yaml (Parsed v) = Some [])
  /\ (forall l ds,
        load_detectors_from_yaml (Parsed (VList l)) = Some ds
        <-> Forall2 (fun item det => load_item item = Some det) l ds)
  /\ (forall v, truthy v = true -> (forall l, v <> VList l) ->
        load_detectors_from_yaml (Parsed v) = None)
  /\ (forall cfg w ds, main_detectors cfg w = Some ds ->
        exists loaded, ds = make_nas_detector :: loaded).
Proof.
  repeat apply conj.
  - intros v Hv. unfold load_detectors_from_yaml. by rewrite Hv.
  - intros l ds. unfold load_detectors_from_yaml. destruct l as [|item l].
    + simpl. split; [intros [= <-]; constructor | by intros ->%Forall2_nil_inv_l].
    + cbn [truthy]. change (py_iter (VList (item :: l)) ≫= mapM load_item)
        with (mapM load_item (item :: l)). apply mapM_Some.
  - intros v Hv Hl. unfold load_detectors_from_yaml. rewrite Hv.
    destruct v as [| | | |s|l|d]; try done.
    + destruct s as [|c s]; [done|]. done.
    + by destruct (Hl l).
    + destruct d as [|[k x] d]; [done|]. done.
  - intros cfg w ds. unfold main_detectors.
    destruct (detectors_yaml cfg) as [p|]; [|intros [= <-]; by eexists].
    destruct (str_truthy p); [|intros [= <-]; by eexists].
    destruct (load_detectors_from_yaml (yaml_source w)) as [loaded|]; [|done].
    intros [= <-]. by eexists.
Qed.

Lemma find_nas_norm (det : Detector) (text : list N) :
  normalizer det = Some nas_norm_local ->
  find det text = omap nas_norm (pattern det text).
Proof.
  intros Hn. unfold find. rewrite Hn.
  induction (pattern det text) as [|raw l IH]; [done|].
  rewrite bind_cons, IH. cbn [omap list_omap].
  assert (nas_norm_local raw = nas_norm raw) as ->.
  { unfold nas_norm_local, nas_norm. cbn zeta. by repeat case_decide. }
  destruct (nas_norm raw) as [v|] eqn:Hv; [|done].
  by rewrite (nas_norm_truthy raw v Hv).
Qed.

(** X27. An entry of the detector file with [normalize: nas] loads with
    the normalizer of the built-in detector: its detector yields the
    normalised value of every match that holds nine digits, and with the
    pattern of the built-in detector it finds what the built-in detector
    finds. *)
Theorem yaml_nas_entry (d : list (list N * value)) (nm regex : list N)
    (pat : list N -> list (list N)) :
  dict_get (lit "name") d = Some (VStr nm) ->
  dict_get (lit "regex") d = Some (VStr regex) ->
  re_compile regex (item_flags d) = Some pat ->
  dict_get (lit "normalize") d = Some (VStr (lit "nas")) ->
  exists det, load_item (VDict d) = Some det
    /\ name det = nm /\ pattern det = pat
    /\ (forall text, find det text = omap nas_norm (pat text))
    /\ (pat = nas_pattern -> forall text, find det text = find make_nas_detector text).
Proof.
  intros Hnm Hrx Hc Hn. unfold load_item. rewrite Hnm, Hrx, Hc.
  eexists. split; [done|]. cbn [name pattern]. split; [done|]. split; [done|].
  assert (Hnorm : item_normalizer d = Some nas_norm_local).
  { unfold item_normalizer. rewrite Hn. by rewrite decide_True. }
  split.
  - intros text. by rewrite find_nas_norm.
  - intros -> text. rewrite find_nas_norm by done. unfold find. simpl.
    induction (nas_pattern text) as [|raw l IH]; [done|].
    rewrite bind_cons, <- IH. cbn [omap list_omap].
    destruct (nas_norm raw) as [v|] eqn:Hv; [|done].
    by rewrite (nas_norm_truthy raw v Hv).
Qed.

(** ** The client *)

Lemma lstrip_char_head (ch : N) (s : list N) : head (lstrip_char ch s) <> Some ch.
Proof.
  induction s as [|c s IH]; [done|]. simpl. case_decide; [done|]. simpl. congruence.
Qed.

Lemma lstrip_char_replicate (ch : N) (s : list N) :
  exists n, s = replicate n ch ++ lstrip_char ch s.
Proof.
  induction s as [|c s (n & IH)]; [by exists 0%nat|]. simpl. case_decide as Hc.
  - subst. exists (S n). simpl. by rewrite <- IH.
  - by exists 0%nat.
Qed.

Lemma rstrip_char_last (ch : N) (s : list N) : last (rstrip_char ch s) <> Some ch.
Proof. unfold rstrip_char. rewrite last_reverse. apply lstrip_char_head. Qed.

Lemma rstrip_char_replicate (ch : N) (s : list N) :
  exists n, s = rstrip_char ch s ++ replicate n ch.
Proof.
  destruct (lstrip_char_replicate ch (reverse s)) as (n & Hn). exists n.
  unfold rstrip_char. rewrite <- (reverse_involutive s) at 1.
  rewrite Hn at 1. by rewrite reverse_app, reverse_replicate.
Qed.

(** X28. The client keeps the address without the slashes at its end, so
    the address of a request never holds two slashes where the path
    starts. Of the credentials it uses one kind only: with an API key, the
    [Authorization] header [ApiKey] and no basic authentication; else with
    a bearer token, the header [Bearer] and no basic authentication; else
    no header, and the user and the password as basic authentication when
    both are given, none otherwise. The [Content-Type] header is
    [application/json], and [verify] is the CA bundle when one is given,
    the flag [verify_tls] otherwise. *)
Theorem ESClient_init_address_and_auth (url : list N)
    (user password api_key bearer ca_cert : option (list N)) (t : Z) (verify_tls : bool) :
  let es := ESClient_init url user password api_key bearer ca_cert t verify_tls in
  last (base_url es) <> Some SLASH
  /\ (exists n, url = base_url es ++ replicate n SLASH)
  /\ (forall pre, bulk_url es <> pre ++ lit "//_bulk")
  /\ (forall pre, scroll_url es <> pre ++ lit "//_search/scroll")
  /\ (authorization es <> None -> auth es = None)
  /\ (arg_truthy api_key = true ->
      authorization es = Some (lit "ApiKey " ++ default [] api_key)
      /\ auth es = None)
  /\ (arg_truthy api_key = false -> arg_truthy bearer = true ->
      authorization es = Some (lit "Bearer " ++ default [] bearer)
      /\ auth es = None)
  /\ (arg_truthy api_key = false -> arg_truthy bearer = false ->
      authorization es = None
      /\ auth es = (if arg_truthy user && arg_truthy password
                    then Some (default [] user, default [] password)
                    else None)
      /\ (auth es <> None <-> arg_truthy user = true /\ arg_truthy password = true))
  /\ content_type es = lit "application/json"
  /\ timeout es = t
  /\ verify es = (if arg_truthy ca_cert then VerifyCA (default [] ca_cert)
                  else VerifyFlag verify_tls).
Proof.
  cbn zeta. unfold bulk_url, scroll_url.
  cbn [base_url authorization auth content_type timeout verify ESClient_init].
  pose proof (rstrip_char_last SLASH url) as Hlast.
  assert (Hsuffix : forall pre tail, rstrip_char SLASH url ++ SLASH :: tail
                                     <> pre ++ SLASH :: SLASH :: tail).
  { intros pre tail Heq.
    replace (pre ++ SLASH :: SLASH :: tail) with ((pre ++ [SLASH]) ++ SLASH :: tail) in Heq
      by (by rewrite <- app_assoc).
    assert (Hlen : length (rstrip_char SLASH url) = length (pre ++ [SLASH])).
    { apply (f_equal length) in Heq. rewrite !length_app in Heq. simpl in Heq.
      rewrite length_app. simpl. lia. }
    apply app_inj_1 in Heq as [Heq _]; [|done].
    rewrite Heq, last_snoc in Hlast. done. }
  repeat apply conj.
  - done.
  - apply rstrip_char_replicate.
  - intros pre. apply (Hsuffix pre (lit "_bulk")).
  - intros pre. apply (Hsuffix pre (lit "_search/scroll")).
  - destruct (arg_truthy api_key); [done|]. by destruct (arg_truthy bearer).
  - by intros ->.
  - by intros -> ->.
  - intros -> ->. split; [done|]. split; [done|].
    destruct (arg_truthy user), (arg_truthy password); simpl; split;
      try done; by intros [? ?].
  - done.
  - done.
  - done.
Qed.
End Properties.

(** * The properties on the sample data *)

(** ** The tables satisfy the laws *)

Lemma py311_laws : @PyRuntimeLaws py311.
Proof.
  split.
  - intros c v. simpl. unfold unicode_decimal.
    destruct (List.find _ _) as [r|]; [|done]. intros [= <-].
    pose proof (N.mod_lt (c - r.1) 10 ltac:(done)) as Hm. revert Hm.
    generalize ((c - r.1) mod 10)%N. intros m Hm. lia.
  - intros c v. simpl. unfold unicode_decimal, unicode_isdigit.
    destruct (List.find _ _) as [r|] eqn:Hf; [|done]. intros _.
    apply List.find_some in Hf as [Hin Hr].
    apply orb_true_iff. left. apply existsb_exists. eauto.
  - intros c Hc. simpl.
    assert (Hall : forallb (fun c => bool_decide
              (unicode_decimal c
               = if ((48 <=? c) && (c <=? 57))%N then Some (Z.of_N c - 48) else None))
              (N.of_nat <$> seq 0 128) = true) by (vm_compute; reflexivity).
    rewrite forallb_forall in Hall.
    apply (bool_decide_unpack _). apply Is_true_true. apply Hall. apply list_elem_of_In.
    apply list_elem_of_fmap. exists (N.to_nat c). split; [lia|].
    apply elem_of_seq. lia.
Qed.

(** ** The pattern of the national ID, against CPython's [re] *)

Example nas_pattern_long_digit_run :
  nas_pattern (lit "1234567890123456789012345678901234567890")
  = [lit "12345678901234567890123456"; lit "78901234567890"].
Proof. vm_compute. reflexivity. Qed.

Example nas_pattern_spaced_digits :
  nas_pattern (lit "1 2 3 4 5 6 7 8 9 1 2 3 4 5 6 7 8 9 1 2 3 4 5 6 7 8 9")
  = [lit "1 2 3 4 5 6 7 8 9 1 2 3 4"; lit "5 6 7 8 9 1 2 3 4 5 6 7 8"].
Proof. vm_compute. reflexivity. Qed.

Example nas_pattern_backtracks :
  nas_pattern (lit "a 123456789012 b 12-34 c 1.2.3.4.5.6.7.8.9x")
  = [lit "123456789012"; lit "1.2.3.4.5.6.7.8.9"]
  /\ nas_pattern (lit "12345678") = []
  /\ nas_pattern (lit "SIN 123 456 789 here") = [lit "123 456 789"].
Proof. vm_compute. auto. Qed.

(** ** C1: the text of a document *)

(** The theorem of C1 on a source tree that has no primary field. *)
Lemma get_text_from_source_cases_witness :
  get_text_from_source ALT_ONLY_SOURCE (lit "content") (Some (lit "attachment.content"))
  = fallback_text ALT_ONLY_SOURCE (Some (lit "attachment.content")).
Proof.
  apply (proj1 (proj2 (proj2 (@get_text_from_source_cases py311)))).
  left. reflexivity.
Defined.

Example alternate_field_read :
  get_text_from_source ALT_ONLY_SOURCE (lit "content") (Some (lit "attachment.content"))
  = lit "SIN 123 456 789"
  /\ get_text_from_source ALT_ONLY_SOURCE (lit "content") (Some (lit "attachment.text")) = [].
Proof. split; reflexivity. Qed.

(** C1 as the specification words it fails on a primary field that is
    present and empty: the dotted path of the alternate field leads to a
    text, yet the text of the document is empty, not that text, and the
    document is skipped although only one of the two fields is empty. *)
Lemma empty_primary_not_replaced :
  dict_get (lit "content") EMPTY_PRIMARY_SOURCE = Some (VStr [])
  /\ lookup_path (VDict EMPTY_PRIMARY_SOURCE) (split_on DOT (lit "attachment.content"))
     = Some (VStr (lit "SIN 123 456 789"))
  /\ get_text_from_source EMPTY_PRIMARY_SOURCE (lit "content")
       (Some (lit "attachment.content")) = []
  /\ get_text_from_source EMPTY_PRIMARY_SOURCE (lit "content")
       (Some (lit "attachment.content"))
     <> fallback_text EMPTY_PRIMARY_SOURCE (Some (lit "attachment.content"))
  /\ process_hit SAMPLE_CONFIG (one_page [EMPTY_PRIMARY_HIT]) [make_nas_detector]
       initial_state EMPTY_PRIMARY_HIT
     = Continue (count_doc initial_state).
Proof. repeat split; by vm_compute. Qed.

(** ** C2: the national-ID normalizer *)

(** The theorem of C2 on nine Arabic-Indic digits. *)
Lemma nas_norm_nine_digits_witness :
  length (filter (fun c => is_Some (decimal c)) ARABIC_SIN) = 9%nat
  /\ exists d1 d2 d3 d4 d5 d6 d7 d8 d9,
       omap ascii_digit_of ARABIC_SIN = [d1; d2; d3; d4; d5; d6; d7; d8; d9]
       /\ Forall is_ascii_digit [d1; d2; d3; d4; d5; d6; d7; d8; d9]
       /\ nas_norm ARABIC_SIN = Some [d1; d2; d3; HYPHEN; d4; d5; d6; HYPHEN; d7; d8; d9].
Proof.
  assert (H9 : length (filter (fun c => is_Some (decimal c)) ARABIC_SIN) = 9%nat)
    by (vm_compute; reflexivity).
  split; [exact H9|].
  exact (proj1 (@nas_norm_nine_digits py311 py311_laws) ARABIC_SIN H9).
Defined.

Example arabic_sin_normalised : nas_norm ARABIC_SIN = Some (lit "123-456-789").
Proof. reflexivity. Qed.

(** ** C3: the folding of digits *)

(** The theorem of C3 on a text with an Arabic-Indic digit, a superscript,
    an ASCII digit and a letter. *)
Lemma unicode_digits_to_ascii_digits_witness :
  unicode_digits_to_ascii MIXED_DIGITS = omap ascii_digit_of MIXED_DIGITS
  /\ Forall is_ascii_digit (unicode_digits_to_ascii MIXED_DIGITS)
  /\ length (unicode_digits_to_ascii MIXED_DIGITS)
     = length (filter (fun c => is_Some (decimal c)) MIXED_DIGITS).
Proof. exact (@unicode_digits_to_ascii_digits py311 py311_laws MIXED_DIGITS). Defined.

(** The superscript two is a digit for [isdigit] and is dropped. *)
Example mixed_digits_folded :
  unicode_digits_to_ascii MIXED_DIGITS = lit "17"
  /\ isdigit 0xB2%N = true /\ decimal 0xB2%N = None.
Proof. repeat split. Qed.

(** ** C4: the update of a document *)

(** The theorem of C4 on a text in which two detectors mapped to one field
    find the same three values, one of them twice. *)
Lemma update_groups_by_field_witness :
  (exists grouped,
     all_lines (outcome_state
                  (process_hit MAPPED_CONFIG (one_page [TWO_SINS_HIT])
                     [make_nas_detector; SIN2_DETECTOR] initial_state TWO_SINS_HIT))
     = [Header (lit "docs") (lit "7") 3; Body (lit "painless") update_script grouped]
     /\ grouped !! lit "nas_norm" = Some [lit "123-456-789"; lit "987-654-321"]
     /\ grouped !! lit "pii.sin2" = None)
  /\ all_lines (outcome_state
                  (process_hit SAMPLE_CONFIG (one_page [NO_ID_HIT]) [make_nas_detector]
                     initial_state NO_ID_HIT)) = []
  /\ all_lines (outcome_state
                  (process_hit SAMPLE_CONFIG (one_page [PLAIN_HIT]) [make_nas_detector]
                     initial_state PLAIN_HIT)) = [].
Proof.
  assert (Hp : hit_pairs MAPPED_CONFIG [make_nas_detector; SIN2_DETECTOR] TWO_SINS_HIT <> [])
    by (vm_compute; discriminate).
  split; [|split].
  - destruct (proj1 (update_groups_by_field MAPPED_CONFIG (one_page [TWO_SINS_HIT])
                       [make_nas_detector; SIN2_DETECTOR] initial_state TWO_SINS_HIT)
                (lit "7") eq_refl eq_refl ltac:(discriminate) Hp)
      as (grouped & Hl & _ & Hg).
    exists grouped. split; [exact Hl|]. split.
    + rewrite Hg. vm_compute. reflexivity.
    + rewrite Hg. vm_compute. reflexivity.
  - exact (proj1 (proj2 (proj2 (update_groups_by_field SAMPLE_CONFIG (one_page [NO_ID_HIT])
                                  [make_nas_detector] initial_state NO_ID_HIT)
                           (or_intror (or_introl eq_refl))))).
  - exact (proj1 (proj2 (proj2 (update_groups_by_field SAMPLE_CONFIG (one_page [PLAIN_HIT])
                                  [make_nas_detector] initial_state PLAIN_HIT)
                           (or_introl eq_refl)))).
Defined.

Example two_sins_findings :
  hit_pairs MAPPED_CONFIG [make_nas_detector; SIN2_DETECTOR] TWO_SINS_HIT
  = [(lit "NAS", lit "123-456-789"); (lit "NAS", lit "987-654-321");
     (lit "NAS", lit "123-456-789"); (lit "SIN2", lit "123-456-789");
     (lit "SIN2", lit "987-654-321"); (lit "SIN2", lit "123-456-789")].
Proof. vm_compute. reflexivity. Qed.

(** C4 as the specification words it, for every document with updates
    enabled, fails on a document that has a finding and no [_id], and on a
    document that has no finding: no update action is queued for them. *)
Lemma no_update_without_id_or_finding :
  apply_updates SAMPLE_CONFIG = true
  /\ hit_pairs SAMPLE_CONFIG [make_nas_detector] NO_ID_HIT
     = [(lit "NAS", lit "123-456-789")]
  /\ all_lines (outcome_state
                  (process_hit SAMPLE_CONFIG (one_page [NO_ID_HIT]) [make_nas_detector]
                     initial_state NO_ID_HIT)) = []
  /\ updates_count (outcome_state
                      (process_hit SAMPLE_CONFIG (one_page [NO_ID_HIT]) [make_nas_detector]
                         initial_state NO_ID_HIT)) = 0%nat
  /\ all_lines (outcome_state
                  (process_hit SAMPLE_CONFIG (one_page [PLAIN_HIT]) [make_nas_detector]
                     initial_state PLAIN_HIT)) = [].
Proof. repeat split; by vm_compute. Qed.

(** ** C5: the report *)


(** One row with [dedupe], two without. *)
Example dedupe_one_row_for_two_documents :
  rows (outcome_state
          (run_hits DEDUPE_CONFIG (one_page []) [make_nas_detector] initial_state
             [SIN_HIT; SIN_HIT_COPY]))
  = [(lit "NAS", lit "123-456-789", lit "/a/b", lit "1")]
  /\ rows (outcome_state
             (run_hits SAMPLE_CONFIG (one_page []) [make_nas_detector] initial_state
                [SIN_HIT; SIN_HIT_COPY]))
     = [(lit "NAS", lit "123-456-789", lit "/a/b", lit "1");
        (lit "NAS", lit "123-456-789", lit "/a/b", lit "3")].
Proof. split; by vm_compute. Qed.

(** ** C6: pagination *)

(** The theorem of C6 on three pages, the last one empty with a cursor
    token. *)
Lemma search_scroll_terminates_witness :
  search_scroll 5 PAGE_REPLIES
  = Some {| yielded := seq 0 3 ≫= (fun i => hits (PAGES i));
            requests := 3; raised := false |}.
Proof.
  apply (search_scroll_terminates PAGE_REPLIES PAGES 2 5).
  - intros i Hi. reflexivity.
  - intros i Hi. destruct i as [|[|i]]; [by split | by split | lia].
  - left. reflexivity.
  - lia.
Defined.

Example scroll_stops_at_empty_page :
  yielded <$> search_scroll 5 PAGE_REPLIES = Some [SIN_HIT; PLAIN_HIT; SIN_HIT_COPY].
Proof. reflexivity. Qed.

(** ** C7: bulk submission *)

(** The theorem of C7 on an answer that reports a version conflict for one
    item of three. *)
Lemma bulk_raises_on_error_status_witness :
  (exists st',
     flush_bulk conflict_world QUEUED_STATE = Continue st'
     /\ bulk_lines st' = []
     /\ bulk_calls st' = bulk_calls QUEUED_STATE ++ [bulk_lines QUEUED_STATE]
     /\ rows st' = rows QUEUED_STATE /\ updates_count st' = updates_count QUEUED_STATE)
  /\ (exists st',
       process_hit BATCH_ONE_CONFIG refusing_world [make_nas_detector] initial_state SIN_HIT
       = Fatal st'
       /\ bulk_calls st' = [] /\ docs_count st' = 1%nat
       /\ main 0 BATCH_ONE_CONFIG refusing_world = Some (Ran (Fatal st'))).
Proof.
  destruct (@bulk_raises_on_error_status py311)
    as (_ & _ & _ & _ & _ & Hflush & _ & _ & _ & _ & Hturn & Hmain & _).
  split.
  - apply (Hflush conflict_world QUEUED_STATE 200 CONFLICT_DATA).
    + vm_compute. discriminate.
    + reflexivity.
    + lia.
  - destruct (Hturn BATCH_ONE_CONFIG refusing_world [make_nas_detector] initial_state
                SIN_HIT (lit "1") eq_refl eq_refl ltac:(discriminate)
                ltac:(vm_compute; discriminate) ltac:(vm_compute; discriminate) eq_refl)
      as (st' & Hph & _ & Hc & Hd & Hrun).
    exists st'. split; [exact Hph|]. split; [exact Hc|]. split; [exact Hd|].
    apply (Hmain 0%nat BATCH_ONE_CONFIG refusing_world [make_nas_detector]
             (fun _ => {| scroll_id := Some (lit "c1"); hits := [SIN_HIT] |}) 0%nat st').
    + reflexivity.
    + intros i Hi. reflexivity.
    + intros i Hi. lia.
    + lia.
    + exact (Hrun initial_state [] [] eq_refl).
Defined.

(** The server of [refusing_world] would answer the scroll for ever: the
    run ends at the first document, on the bulk request refused, with one
    search request sent and no turn of the scroll taken. *)
Example refused_bulk_ends_run :
  (fun r => match r with
            | Some (Ran (Fatal st)) =>
                Some (docs_count st, length (bulk_lines st), bulk_calls st, stderr st)
            | _ => None
            end) (main 0 BATCH_ONE_CONFIG refusing_world)
  = Some (1%nat, 2%nat, [], [BulkHttpError 503]).
Proof. vm_compute. reflexivity. Qed.

Example version_conflict_is_reported :
  bulk (Reply 200 (Some CONFLICT_DATA)) = ([BulkItemErrors [CONFLICT_ITEM]], Some CONFLICT_DATA)
  /\ stderr (outcome_state (flush_bulk conflict_world QUEUED_STATE))
     = [BulkItemErrors [CONFLICT_ITEM]].
Proof. split; reflexivity. Qed.

(** C7 as the specification words it, a fatal error on every answer that is
    not 2xx, fails on the status 300: [bulk] returns the body and prints
    nothing. *)
Lemma bulk_returns_on_redirect_status :
  ~ (200 <= 300 < 300)
  /\ bulk MULTIPLE_CHOICES = ([], Some {| errors := false; items := [] |})
  /\ MULTIPLE_CHOICES = Reply 300 (Some {| errors := false; items := [] |}).
Proof. split; [lia | split; reflexivity]. Qed.

(** ** C8: normalisation of separators *)

(** The theorem of C8 on a run of a non-breaking space, a tab and a space
    between two letters. *)
Lemma normalize_separators_rewrites_witness :
  normalize_separators (lit "a" ++ SPACE_RUN ++ lit "b")
  = normalize_separators (lit "a") ++ SPACE :: normalize_separators (lit "b").
Proof.
  apply (proj2 (proj2 (proj2 normalize_separators_rewrites))).
  - discriminate.
  - apply (bool_decide_unpack _). by vm_compute.
  - intros a' c Ha. change (lit "a") with [97%N] in Ha. assert (c = 97%N) as ->.
    { destruct a' as [|? [|? ?]]; by simplify_eq/=. }
    apply (bool_decide_unpack _). by vm_compute.
  - intros c b' Hb. change (lit "b") with [98%N] in Hb.
    assert (c = 98%N) as -> by (by simplify_eq/=).
    apply (bool_decide_unpack _). by vm_compute.
Defined.

Example separators_normalised :
  normalize_separators (lit "a" ++ SPACE_RUN ++ lit "b") = lit "a b"
  /\ normalize_separators (lit "x" ++ UNICODE_DASHES ++ [LINE_FEED; LINE_FEED]%N)
     = lit "x-----" ++ [LINE_FEED; LINE_FEED].
Proof. split; reflexivity. Qed.

(** C8 as the specification words it fails on the carriage return: it is
    not one of the characters listed as rewritten, and it becomes a
    space. *)
Lemma normalize_separators_carriage_return :
  (CARRIAGE_RETURN ∉ C8_LISTED)
  /\ (normalize_separators CRLF_TEXT <> CRLF_TEXT)
  /\ (normalize_separators CRLF_TEXT = lit "a" ++ [SPACE; LINE_FEED] ++ lit "b").
Proof.
  split; [|split].
  - apply (bool_decide_unpack _). by vm_compute.
  - vm_compute. discriminate.
  - vm_compute. reflexivity.
Qed.

(** ** C9: loading of detectors *)

(** The theorem of C9 on an entry that names an unknown normalizer. *)
Lemma detector_loading_outcomes_witness :
  exists det,
    load_item (VDict UNKNOWN_NORMALIZER_ITEM) = Some det
    /\ name det = lit "WORD" /\ pattern det = word_finditer_from (lit "SIN") 0
    /\ normalizer det = None
    /\ forall text,
         find det text = filter (fun raw => raw <> []) (word_finditer_from (lit "SIN") 0 text).
Proof.
  apply (proj2 (proj2 (proj2 (@detector_loading_outcomes py311)))
           UNKNOWN_NORMALIZER_ITEM (lit "WORD") (lit "SIN")).
  - reflexivity.
  - reflexivity.
  - reflexivity.
  - vm_compute. discriminate.
Defined.

Example unknown_normalizer_loaded :
  (fun d => (name d, find d (lit "a SIN b SINSIN")))
    <$> load_item (VDict UNKNOWN_NORMALIZER_ITEM)
  = Some (lit "WORD", [lit "SIN"; lit "SIN"; lit "SIN"]).
Proof. vm_compute. reflexivity. Qed.

(** C9 as the specification words it fails on a detector file that does not
    parse, and on one whose entry has no [regex]: the run ends there, it
    does not go on with the built-in detector. *)
Lemma unparseable_file_ends_run :
  main 5 YAML_CONFIG (yaml_world YamlError) = Some LoadFailed
  /\ main 5 YAML_CONFIG (yaml_world NO_REGEX_FILE) = Some LoadFailed
  /\ main_detectors YAML_CONFIG (yaml_world YamlError) = None.
Proof. repeat split; reflexivity. Qed.

(** ** C10: a document without an id *)


(** ** A whole run *)

(** One document with a national ID, default settings, updates enabled: one
    row, one update sent in the final flush. *)
Example end_to_end :
  (fun r => match r with
            | Some (Ran (Continue st)) =>
                Some (rows st, updates_count st, length (bulk_calls st), bulk_lines st)
            | _ => None
            end) (main 5 SAMPLE_CONFIG (one_page [SIN_HIT]))
  = Some ([(lit "NAS", lit "123-456-789", lit "/a/b", lit "1")], 1%nat, 1%nat, []).
Proof. vm_compute. reflexivity. Qed.

(** ** The further properties on the sample data *)

Lemma nas_norm_canonical_witness :
  nas_norm ARABIC_SIN = Some (lit "123-456-789")
  /\ nas_norm (lit "123-456-789") = Some (lit "123-456-789").
Proof.
  assert (H : nas_norm ARABIC_SIN = Some (lit "123-456-789")) by reflexivity.
  split; [exact H|].
  exact (proj2 (@nas_norm_canonical py311 py311_laws ARABIC_SIN (lit "123-456-789")) H).
Defined.

Lemma nas_norm_after_normalize_witness :
  unicode_digits_to_ascii (normalize_separators NBSP_SIN) = unicode_digits_to_ascii NBSP_SIN
  /\ nas_norm (normalize_separators NBSP_SIN) = nas_norm NBSP_SIN.
Proof.
  apply (@nas_norm_after_normalize py311 py311_laws NBSP_SIN).
  intros c Hc. unfold NBSP_SET, UNICODE_DASHES in Hc. simpl in Hc.
  repeat (apply elem_of_cons in Hc as [->|Hc]; [reflexivity|]).
  by apply elem_of_nil in Hc.
Defined.

Example nbsp_sin_normalised :
  normalize_separators NBSP_SIN = lit "123 456-789"
  /\ nas_norm NBSP_SIN = Some (lit "123-456-789").
Proof. split; reflexivity. Qed.

Lemma nas_pattern_whole_witness :
  nas_pattern (lit "123 456 789") = [lit "123 456 789"]
  /\ find make_nas_detector (lit "123 456 789")
     = match nas_norm (lit "123 456 789") with Some v => [v] | None => [] end.
Proof.
  apply (@nas_pattern_whole py311 (lit "123 456 789")).
  - vm_compute. lia.
  - apply Forall_forall. intros c Hc.
    repeat (apply elem_of_cons in Hc as [->|Hc]; [reflexivity|]).
    by apply elem_of_nil in Hc.
  - reflexivity.
  - reflexivity.
Defined.

(** Two national IDs with one space between them make one match of
    eighteen digits, and neither is found. *)
Example adjacent_ids_missed :
  nas_pattern (lit "123456789 987654321") = [lit "123456789 987654321"]
  /\ find make_nas_detector (lit "123456789 987654321") = [].
Proof. split; by vm_compute. Qed.

Lemma nas_values_shape_witness :
  exists raw d1 d2 d3 d4 d5 d6 d7 d8 d9,
    raw ∈ pattern make_nas_detector (lit "SIN 123 456 789 here")
    /\ unicode_digits_to_ascii raw = [d1; d2; d3; d4; d5; d6; d7; d8; d9]
    /\ lit "123-456-789" = [d1; d2; d3; HYPHEN; d4; d5; d6; HYPHEN; d7; d8; d9]
    /\ Forall is_ascii_digit [d1; d2; d3; d4; d5; d6; d7; d8; d9].
Proof.
  apply (@nas_values_shape py311 make_nas_detector (lit "SIN 123 456 789 here")
           (lit "123-456-789")).
  - by left.
  - apply (bool_decide_unpack _). by vm_compute.
Defined.

Lemma get_path_virtual_keys_witness :
  get_path_virtual SIN_SOURCE (join [DOT] [lit "path"; lit "virtual"])
  = match lookup_path (VDict SIN_SOURCE) [lit "path"; lit "virtual"] with
    | Some v => py_str v
    | None => []
    end.
Proof.
  apply (@get_path_virtual_keys py311 SIN_SOURCE [lit "path"; lit "virtual"]).
  - discriminate.
  - repeat constructor; apply (bool_decide_unpack _); by vm_compute.
Defined.

Example path_read :
  get_path_virtual SIN_SOURCE (lit "path.virtual") = lit "/a/b"
  /\ get_path_virtual SIN_SOURCE (lit "path.real") = []
  /\ get_path_virtual SIN_SOURCE (lit "content.virtual") = [].
Proof. repeat split. Qed.

Lemma parse_field_map_entry_witness :
  parse_field_map (Some (lit " " ++ lit "NAS" ++ [] ++ [EQUALS] ++ lit " " ++ lit "nas_norm" ++ []))
  = {[ lit "NAS" := lit "nas_norm" ]}
  /\ target_field (lit "NAS")
       (parse_field_map
          (Some (lit " " ++ lit "NAS" ++ [] ++ [EQUALS] ++ lit " " ++ lit "nas_norm" ++ [])))
       (lit "pii.")
     = lit "nas_norm".
Proof.
  apply (@parse_field_map_entry py311 (lit " ") (lit "NAS") [] (lit " ") (lit "nas_norm") []
           (lit "pii.")).
  - reflexivity.
  - repeat constructor.
  - constructor.
  - repeat constructor.
  - constructor.
  - apply (bool_decide_unpack _). by vm_compute.
  - apply (bool_decide_unpack _). by vm_compute.
  - discriminate.
  - discriminate.
  - discriminate.
  - discriminate.
Defined.

Lemma parse_field_map_join_witness :
  parse_field_map
    (Some (join [COMMA] ((fun kv => kv.1 ++ [EQUALS] ++ kv.2) <$> FIELD_MAP_ENTRIES)))
  = list_to_map (reverse FIELD_MAP_ENTRIES).
Proof.
  apply (@parse_field_map_join py311 FIELD_MAP_ENTRIES).
  - reflexivity.
  - repeat constructor; try discriminate; apply (bool_decide_unpack _); by vm_compute.
Defined.

Example field_map_read :
  parse_field_map (Some (lit "NAS=nas_norm, EMAIL = emails ,,bad,NAS=sin"))
  = {[ lit "NAS" := lit "sin"; lit "EMAIL" := lit "emails" ]}.
Proof. apply (bool_decide_unpack _). by vm_compute. Qed.


Example scroll_failure_keeps_first_page :
  yielded <$> search_scroll 5 FAILING_REPLIES = Some [SIN_HIT].
Proof. reflexivity. Qed.




(** The sample compiler gives the national-ID pattern for its source. *)
Lemma nas_regex_compiles : re_compile NAS_REGEX 0 = Some nas_pattern.
Proof.
  change (sample_re_compile unicode_tables NAS_REGEX 0 = Some (@nas_pattern py311)).
  unfold sample_re_compile. rewrite decide_True by reflexivity.
  cbv beta iota delta [nas_pattern nas_finditer_from nas_match_at nas_alt1 nas_alt2
                       class_run backtrack nas_sep_class is_decimal decimal isspace
                       py311 unicode_tables].
  reflexivity.
Qed.

Lemma yaml_nas_entry_witness :
  exists det, load_item (VDict NAS_ITEM) = Some det
    /\ name det = lit "SIN" /\ pattern det = nas_pattern
    /\ (forall text, find det text = omap nas_norm (nas_pattern text))
    /\ (nas_pattern = nas_pattern ->
        forall text, find det text = find make_nas_detector text).
Proof.
  apply (@yaml_nas_entry py311 NAS_ITEM (lit "SIN") NAS_REGEX nas_pattern).
  - reflexivity.
  - reflexivity.
  - exact nas_regex_compiles.
  - reflexivity.
Defined.


Lemma report_independent_of_updates_witness :
  rows (outcome_state (run_hits SAMPLE_CONFIG (one_page []) [make_nas_detector]
                         initial_state [SIN_HIT; PLAIN_HIT]))
  = rows (outcome_state (run_hits YAML_CONFIG (one_page []) [make_nas_detector]
                           initial_state [SIN_HIT; PLAIN_HIT]))
  /\ pairs_count (outcome_state (run_hits SAMPLE_CONFIG (one_page []) [make_nas_detector]
                                   initial_state [SIN_HIT; PLAIN_HIT]))
     = pairs_count (outcome_state (run_hits YAML_CONFIG (one_page []) [make_nas_detector]
                                     initial_state [SIN_HIT; PLAIN_HIT]))
  /\ docs_count (outcome_state (run_hits SAMPLE_CONFIG (one_page []) [make_nas_detector]
                                  initial_state [SIN_HIT; PLAIN_HIT]))
     = docs_count (outcome_state (run_hits YAML_CONFIG (one_page []) [make_nas_detector]
                                    initial_state [SIN_HIT; PLAIN_HIT])).
Proof.
  apply (@report_independent_of_updates py311 SAMPLE_CONFIG YAML_CONFIG
           (one_page []) (one_page []) [make_nas_detector] [SIN_HIT; PLAIN_HIT]).
  - reflexivity.
  - reflexivity.
  - reflexivity.
  - reflexivity.
  - by vm_compute.
  - by vm_compute.
Defined.

Lemma dedupe_second_reading_witness :
  rows (outcome_state (run_hits DEDUPE_CONFIG (one_page []) [make_nas_detector]
                         initial_state ([SIN_HIT; SIN_HIT_COPY] ++ [SIN_HIT; SIN_HIT_COPY])))
  = rows (outcome_state (run_hits DEDUPE_CONFIG (one_page []) [make_nas_detector]
                           initial_state [SIN_HIT; SIN_HIT_COPY]))
  /\ pairs_count (outcome_state (run_hits DEDUPE_CONFIG (one_page []) [make_nas_detector]
                                   initial_state
                                   ([SIN_HIT; SIN_HIT_COPY] ++ [SIN_HIT; SIN_HIT_COPY])))
     = pairs_count (outcome_state (run_hits DEDUPE_CONFIG (one_page []) [make_nas_detector]
                                     initial_state [SIN_HIT; SIN_HIT_COPY]))
  /\ docs_count (outcome_state (run_hits DEDUPE_CONFIG (one_page []) [make_nas_detector]
                                  initial_state
                                  ([SIN_HIT; SIN_HIT_COPY] ++ [SIN_HIT; SIN_HIT_COPY])))
     = (2 * docs_count (outcome_state (run_hits DEDUPE_CONFIG (one_page []) [make_nas_detector]
                                         initial_state [SIN_HIT; SIN_HIT_COPY])))%nat.
Proof.
  apply (@dedupe_second_reading py311 DEDUPE_CONFIG (one_page []) (one_page [])
           [make_nas_detector] [SIN_HIT; SIN_HIT_COPY]).
  - reflexivity.
  - by vm_compute.
  - by vm_compute.
Defined.
